(** * Polite seed ingester: a shallow embedding of [src/ingest]

    The three scripts [fetch_seed.py], [usaspending_fetch.py] and
    [news_fetch.py] are embedded as functions of an explicit [World]
    (wall clock, the two per-domain dictionaries, the trace of external
    calls, the log), in a state-and-exception monad.  Everything outside
    the process (HTTP servers, robots.txt files, the storage backends, the
    random generator) is an oracle of the record [Env]; library functions
    the scripts call but do not define ([urlparse], [hashlib.sha256],
    [strftime], ...) are fields of the record [Lib].

    The clock counts milliseconds ([Z]); Python floats holding seconds
    are idealised as exact millisecond counts. A character is a code
    point below 256 (content bytes; text within Latin-1), and the
    predicates on characters are those of Python's [str] on that range. *)

From stdpp Require Import gmap strings list.
From Stdlib Require Import ZArith String Ascii DecimalString Lia.

Open Scope Z_scope.

(** ** Python string primitives (code points below 256) *)

Module Py.

(** [lo <= code <= hi] *)
Definition between (lo hi : N) (c : ascii) : bool :=
  let n := N_of_ascii c in ((lo <=? n) && (n <=? hi))%N.

(** [c.isupper()]: A-Z, and the capital letters of Latin-1 ([U+00C0] to
    [U+00DE] without the multiplication sign) *)
Definition is_upper (c : ascii) : bool :=
  between 65 90 c || between 192 214 c || between 216 222 c.

(** [c.isalnum()]: the digits and letters of ASCII and, in Latin-1, the
    ordinal indicators, the superscript digits, the micro sign, the
    vulgar fractions and the letters [U+00C0] to [U+00FF] without the
    multiplication and the division sign *)
Definition isalnum (c : ascii) : bool :=
  between 48 57 c || between 65 90 c || between 97 122 c
  || between 170 170 c || between 178 179 c || between 181 181 c
  || between 185 186 c || between 188 190 c
  || between 192 214 c || between 216 246 c || between 248 255 c.

(** [c.isspace()]: tab to carriage return, the four separators, the
    space, next line and the no-break space *)
Definition isspace (c : ascii) : bool :=
  between 9 13 c || between 28 32 c || between 133 133 c || between 160 160 c.

(** [c.lower()] *)
Definition lower_char (c : ascii) : ascii :=
  if is_upper c then ascii_of_N (N_of_ascii c + 32) else c.

(** [s.lower()] *)
Fixpoint lower (s : string) : string :=
  match s with
  | EmptyString => EmptyString
  | String c r => String (lower_char c) (lower r)
  end.

(** [c in chars], for a character [c] *)
Fixpoint mem_char (c : ascii) (chars : string) : bool :=
  match chars with
  | EmptyString => false
  | String d r => Ascii.eqb c d || mem_char c r
  end.

(** [sub in s] *)
Fixpoint contains (sub s : string) : bool :=
  prefix sub s ||
  match s with
  | EmptyString => false
  | String _ r => contains sub r
  end.

(** [s.startswith(p)] and [s.endswith(p)] *)
Definition startswith (p s : string) : bool := prefix p s.

Fixpoint rev_string (s : string) : string :=
  match s with
  | EmptyString => EmptyString
  | String c r => rev_string r +:+ String c EmptyString
  end.

Definition endswith (p s : string) : bool := prefix (rev_string p) (rev_string s).

(** [s.lstrip(chars)], [s.rstrip(chars)], [s.strip(chars)] *)
Fixpoint lstrip (chars s : string) : string :=
  match s with
  | EmptyString => EmptyString
  | String c r => if mem_char c chars then lstrip chars r else s
  end.

Definition rstrip (chars s : string) : string :=
  rev_string (lstrip chars (rev_string s)).

Definition strip (chars s : string) : string := rstrip chars (lstrip chars s).

(** [s.strip()] *)
Fixpoint lstrip_ws (s : string) : string :=
  match s with
  | EmptyString => EmptyString
  | String c r => if isspace c then lstrip_ws r else s
  end.

Definition strip_ws (s : string) : string :=
  rev_string (lstrip_ws (rev_string (lstrip_ws s))).

(** [s.split(sep)] for a one-character separator: never the empty list *)
Fixpoint split (sep : ascii) (s : string) : list string :=
  match s with
  | EmptyString => [EmptyString]
  | String c r =>
      if Ascii.eqb c sep then EmptyString :: split sep r
      else match split sep r with
           | [] => [String c EmptyString]
           | h :: t => String c h :: t
           end
  end.

(** [s.split(sep, 1)] when [sep in s]: the text before and after the first
    separator; [None] when the separator does not occur *)
Fixpoint split_once (sep : ascii) (s : string) : option (string * string) :=
  match s with
  | EmptyString => None
  | String c r =>
      if Ascii.eqb c sep then Some (EmptyString, r)
      else match split_once sep r with
           | Some (a, b) => Some (String c a, b)
           | None => None
           end
  end.

(** [l[-1]] of a list of strings ([""] stands for the impossible empty list) *)
Definition last_item (l : list string) : string := List.last l EmptyString.

(** [s.replace(a, b)] for single characters *)
Fixpoint replace_char (a b : ascii) (s : string) : string :=
  match s with
  | EmptyString => EmptyString
  | String c r => String (if Ascii.eqb c a then b else c) (replace_char a b r)
  end.

(** [s[:n]] for a non-negative literal [n] *)
Fixpoint take (n : nat) (s : string) : string :=
  match n, s with
  | O, _ => EmptyString
  | _, EmptyString => EmptyString
  | S k, String c r => String c (take k r)
  end.

(** [s[:-n]] for a positive literal [n] *)
Definition drop_last (n : nat) (s : string) : string :=
  take (String.length s - n)%nat s.

(** [s[-1]] of a non-empty string, as a string *)
Definition last_char (s : string) : string :=
  match rev_string s with
  | EmptyString => EmptyString
  | String c _ => String c EmptyString
  end.

(** [l[:n]] on a list, for any Python integer [n]: a negative bound counts
    from the end *)
Definition slice_to {A} (n : Z) (l : list A) : list A :=
  if 0 <=? n then firstn (Z.to_nat n) l
  else firstn (List.length l - Z.to_nat (- n))%nat l.

(** [str(n)] for an integer *)
Definition str_of_int (n : Z) : string := NilZero.string_of_int (Z.to_int n).

(** [bool(s)] *)
Definition truthy (s : string) : bool := negb (String.eqb s EmptyString).

(** [a or b] on strings *)
Definition or_else (a b : string) : string := if truthy a then a else b.

(** [posixpath.join(a, b)] *)
Definition path_join (a b : string) : string :=
  if startswith "/" b then b
  else if negb (truthy a) || endswith "/" a then a +:+ b
  else a +:+ "/" +:+ b.

(** Dictionaries whose insertion order is observable ([params]): keys keep
    their first position, a second assignment replaces the value. *)
Fixpoint dict_set (k v : string) (d : list (string * string)) : list (string * string) :=
  match d with
  | [] => [(k, v)]
  | (k', v') :: r => if String.eqb k k' then (k, v) :: r else (k', v') :: dict_set k v r
  end.

Fixpoint dict_get {V} (k : string) (d : list (string * V)) : option V :=
  match d with
  | [] => None
  | (k', v) :: r => if String.eqb k k' then Some v else dict_get k r
  end.

Definition dict_mem {V} (k : string) (d : list (string * V)) : bool :=
  match dict_get k d with Some _ => true | None => false end.

End Py.

(** ** JSON values, HTTP responses, robots parsers *)

#[warnings="-register-all"]
Inductive Json :=
| JNull
| JBool (b : bool)
| JNum (n : Z)
| JStr (s : string)
| JArr (items : list Json)
| JObj (fields : list (string * Json)).

Definition json_of_opt (o : option string) : Json :=
  match o with Some s => JStr s | None => JNull end.

(** [bool(v)] of a decoded JSON value *)
Definition json_truthy (v : Json) : bool :=
  match v with
  | JNull => false
  | JBool b => b
  | JNum n => negb (n =? 0)
  | JStr s => Py.truthy s
  | JArr l => match l with [] => false | _ => true end
  | JObj l => match l with [] => false | _ => true end
  end.

(** [len(v)]; [None] where Python raises [TypeError] *)
Definition json_len (v : Json) : option nat :=
  match v with
  | JStr s => Some (String.length s)
  | JArr l => Some (List.length l)
  | JObj l => Some (List.length l)
  | _ => None
  end.

Inductive Exn :=
| RequestException (msg : string)   (* requests.RequestException and subclasses *)
| ValueError (msg : string)
| OSError (msg : string)
| AzureError (msg : string)
| KeyError (msg : string)
| AttributeError (msg : string)
| TypeError (msg : string)
| OverflowError (msg : string)
| OtherError (msg : string).

Definition is_request_exception (e : Exn) : bool :=
  match e with RequestException _ => true | _ => false end.

Definition exn_str (e : Exn) : string :=
  match e with
  | RequestException m | ValueError m | OSError m | AzureError m
  | KeyError m | AttributeError m | TypeError m | OverflowError m | OtherError m => m
  end.

(** A [requests.Response]. [content] is [None] when reading the body
    raises; [json_body] is [None] when [r.json()] raises. Header names are
    looked up case-insensitively, as in [requests]. *)
Record Response := mkResponse {
  status_code : Z;
  headers : list (string * string);
  content : option string;
  text : string;
  json_body : option Json
}.

Fixpoint header_get (name : string) (h : list (string * string)) : option string :=
  match h with
  | [] => None
  | (k, v) :: r => if String.eqb (Py.lower k) (Py.lower name) then Some v else header_get name r
  end.

(** A [RobotFileParser] after a successful [read()]. [crawl_delay] gives
    [None] where the method raises, [Some None] where it returns [None],
    and the declared number of seconds otherwise. *)
Record RobotsParser := mkRobots {
  can_fetch : string -> string -> bool;
  crawl_delay : string -> option (option Z)
}.

Definition Params := list (string * string).

(** ** Storage and network events *)

Inductive Payload :=
| RawBytes (b : string)                (* bytes as received *)
| JsonText (indent : bool) (j : Json)  (* json.dumps(j, indent=2) or json.dumps(j), UTF-8 *)
| PlainText (s : string).              (* text, UTF-8 *)

(** Calls of the Azure Data Lake SDK *)
Inductive SdkCall :=
| OpenService (account_url : string)
| CreateFileSystem (fs : string)
| CreateDirectory (fs dir : string)
| CreateFile (fs dir file : string)
| UploadData (fs dir file : string) (data : Payload)
| AppendData (fs dir file : string) (data : Payload) (offset : nat)
| FlushData (fs dir file : string) (position : nat).

(** Calls of the local file system *)
Inductive LocalOp :=
| MakeDirs (path : string)
| WriteFile (path : string) (data : Payload).

Inductive Event :=
| EvRobots (robots_url : string) (start : Z) (ok : bool)
| EvGet (url : string) (params : Params) (start : Z) (ok : bool)
| EvFeed (url : string) (start : Z)
| EvSleep (ms : Z)
| EvAdls (call : SdkCall) (ok : bool)
| EvLocal (op : LocalOp) (ok : bool).

Inductive Level := DEBUG | INFO | WARNING | ERROR.

(** ** Configuration, library functions, environment *)

(** Module-level constants read from the process environment. *)
Record Config := mkConfig {
  DEFAULT_CRAWL_DELAY : Z;            (* milliseconds *)
  USER_AGENT : string;
  LOCAL_RAW_BASE : string;
  ADLS_ACCOUNT : option string;       (* AZURE_STORAGE_ACCOUNT_NAME *)
  ADLS_FILESYSTEM : option string;
  AZURE_SDK_AVAILABLE : bool;
  SAM_API_KEY : option string
}.

(** Library functions used, not defined, by the scripts. *)
Record Lib := mkLib {
  urlparse : string -> option (string * string); (* (netloc, path); None: ValueError *)
  sha256_hexdigest : string -> string;           (* hashlib.sha256(b).hexdigest() *)
  strftime_date : Z -> string;                   (* utcnow().strftime("%Y%m%d") *)
  strftime_stamp : Z -> string;                  (* utcnow().strftime("%Y%m%dT%H%M%SZ") *)
  isoformat : Z -> string;                       (* utcnow().isoformat() *)
  splitext_ext : string -> string;               (* os.path.splitext(p)[1] *)
  py_int : string -> option Z;                   (* int(s); None: ValueError *)
  py_float : Z -> option Z;                      (* float(cd) seconds, in ms; None: raises *)
  json_dumps : bool -> Json -> string;           (* json.dumps(j, indent=2) / json.dumps(j) *)
  response_bool : Response -> bool               (* requests.Response.__bool__ *)
}.

(** The world outside the process. The first argument of every oracle is
    the number of external calls made so far, so that the same request may
    be answered differently at different moments. *)
Record Env := mkEnv {
  robots_read : nat -> string -> option RobotsParser;  (* None: rp.read() raises *)
  http_get : nat -> string -> Params -> Exn + Response;
  feed_parse : nat -> string -> list (list (string * string));
  latency : nat -> N;                                  (* duration of the call, ms *)
  random_ms : nat -> N;                                (* random.uniform(0, 1), ms *)
  adls : nat -> SdkCall -> bool;                       (* false: the call raises *)
  localfs : nat -> LocalOp -> bool;                    (* false: the call raises *)
  sleep_limit : nat -> Z                               (* longest pause the platform takes, ms *)
}.

(** ** The world and the monad *)

Record World := mkWorld {
  clock : Z;                                   (* time.time(), ms *)
  domain_last_request : gmap (option string) Z;
  domain_crawl_delay : gmap (option string) Z;
  trace : list Event;                          (* newest first *)
  logs : list (Level * string)                 (* newest first *)
}.

Inductive Res (A : Type) :=
| Ok (a : A)
| Raise (e : Exn).
Arguments Ok {A} a.
Arguments Raise {A} e.

Definition M (A : Type) : Type := World -> Res A * World.

Definition ret {A} (a : A) : M A := fun w => (Ok a, w).

Definition bind {A B} (m : M A) (k : A -> M B) : M B :=
  fun w => match m w with
           | (Ok a, w') => k a w'
           | (Raise e, w') => (Raise e, w')
           end.

Definition raise {A} (e : Exn) : M A := fun w => (Raise e, w).

(** [try: m except Exception as e: h e] *)
Definition try_except {A} (m : M A) (h : Exn -> M A) : M A :=
  fun w => match m w with
           | (Ok a, w') => (Ok a, w')
           | (Raise e, w') => h e w'
           end.

(** [try: m except C as e: h e] for the exception class recognised by [c] *)
Definition try_except_class {A} (c : Exn -> bool) (m : M A) (h : Exn -> M A) : M A :=
  fun w => match m w with
           | (Ok a, w') => (Ok a, w')
           | (Raise e, w') => if c e then h e w' else (Raise e, w')
           end.

Declare Scope py_scope.
Delimit Scope py_scope with py.
Notation "x <- m ;; k" := (bind m (fun x => k))
  (at level 100, m at next level, right associativity) : py_scope.
Notation "m ;;; k" := (bind m (fun _ => k))
  (at level 100, right associativity) : py_scope.
Open Scope py_scope.

Definition exec {A} (m : M A) (w : World) : World := snd (m w).
Definition result {A} (m : M A) (w : World) : Res A := fst (m w).

Definition set_clock (t : Z) (w : World) : World :=
  mkWorld t (domain_last_request w) (domain_crawl_delay w) (trace w) (logs w).
Definition set_last_request (m : gmap (option string) Z) (w : World) : World :=
  mkWorld (clock w) m (domain_crawl_delay w) (trace w) (logs w).
Definition set_crawl_delay (m : gmap (option string) Z) (w : World) : World :=
  mkWorld (clock w) (domain_last_request w) m (trace w) (logs w).
Definition push_event (e : Event) (w : World) : World :=
  mkWorld (clock w) (domain_last_request w) (domain_crawl_delay w) (e :: trace w) (logs w).
Definition push_log (l : Level) (msg : string) (w : World) : World :=
  mkWorld (clock w) (domain_last_request w) (domain_crawl_delay w) (trace w) ((l, msg) :: logs w).

(** A world at the start of a run: empty dictionaries, nothing done yet. *)
Definition initial_world (t0 : Z) : World := mkWorld t0 ∅ ∅ [] [].

(** [LOG.<level>(fmt, ...)]: the format string is recorded, not its arguments. *)
Definition log (l : Level) (msg : string) : M unit :=
  fun w => (Ok tt, push_log l msg w).

(** [datetime.utcnow()], as the clock reading the formatting functions take *)
Definition utcnow : M Z := fun w => (Ok (clock w), w).

(** [for x in l: body x] *)
Fixpoint for_each {A} (body : A -> M unit) (l : list A) : M unit :=
  match l with
  | [] => ret tt
  | x :: r => body x ;;; for_each body r
  end.

(** The longest duration [time.sleep] converts: [2^63 - 1] nanoseconds,
    in milliseconds. *)
Definition SLEEP_MAX : Z := 9223372036854.

(** ** External calls

    Every external call reads its oracle at the index [length (trace w)],
    appends its event and lets the clock advance by the call's latency. *)

Section Primitives.
Context (env : Env).

Definition call_index (w : World) : nat := List.length (trace w).

Definition after_call (e : Event) (w : World) : World :=
  set_clock (clock w + Z.of_N (latency env (call_index w))) (push_event e w).

(** [rp.set_url(robots_url); rp.read()] *)
Definition robots_io (robots_url : string) : M RobotsParser :=
  fun w =>
    match robots_read env (call_index w) robots_url with
    | Some rp => (Ok rp, after_call (EvRobots robots_url (clock w) true) w)
    | None => (Raise (OtherError "robots.txt unreadable"),
               after_call (EvRobots robots_url (clock w) false) w)
    end.

(** [SESSION.get(url, params=params, ...)] and [requests.get(url, ...)] *)
Definition session_get (url : string) (params : Params) : M Response :=
  fun w =>
    match http_get env (call_index w) url params with
    | inr r => (Ok r, after_call (EvGet url params (clock w) true) w)
    | inl e => (Raise e, after_call (EvGet url params (clock w) false) w)
    end.

(** [feedparser.parse(url)] *)
Definition feedparser_parse (url : string) : M (list (list (string * string))) :=
  fun w => (Ok (feed_parse env (call_index w) url), after_call (EvFeed url (clock w)) w).

(** [random.uniform(0, 1)], in milliseconds *)
Definition random_uniform_0_1 (w : World) : Z :=
  Z.of_N (N.min (random_ms env (call_index w)) 1000).

(** What [time.sleep(d)] raises, if it raises: [ValueError] on a
    negative duration; [OverflowError] on one that does not fit 63 bits
    of nanoseconds; [OSError] on one the platform refuses (the deadline
    of the pause, the monotonic clock plus the duration, has to fit
    too, so the platform's limit may be lower and may change). *)
Definition sleep_error (i : nat) (d : Z) : option Exn :=
  if d <? 0 then Some (ValueError "sleep length must be non-negative")
  else if SLEEP_MAX <? d
       then Some (OverflowError "timestamp too large to convert to C _PyTime_t")
  else if sleep_limit env i <? d then Some (OSError "Invalid argument")
  else None.

(** [time.sleep(d)] *)
Definition time_sleep (d : Z) : M unit :=
  fun w =>
    match sleep_error (call_index w) d with
    | Some e => (Raise e, w)
    | None => (Ok tt, set_clock (clock w + d) (push_event (EvSleep d) w))
    end.

Definition adls_call (c : SdkCall) : M unit :=
  fun w =>
    let ok := adls env (call_index w) c in
    (if ok then Ok tt else Raise (AzureError "storage call failed"),
     after_call (EvAdls c ok) w).

Definition local_call (op : LocalOp) : M unit :=
  fun w =>
    let ok := localfs env (call_index w) op in
    (if ok then Ok tt else Raise (OSError "file system call failed"),
     after_call (EvLocal op ok) w).

End Primitives.

(** ** [fetch_seed.py] *)

Module FetchSeed.
Section FetchSeed.
Context (lib : Lib) (cfg : Config) (env : Env).

(** [ADLSWriter]: the object keeps the file system name. *)
Record ADLSWriter := mkADLSWriter { filesystem : string }.

(** [ADLSWriter.__init__] *)
Definition ADLSWriter_init (account_name fs : string) : M ADLSWriter :=
  if negb (AZURE_SDK_AVAILABLE cfg) then
    raise (OtherError "Azure SDK is required for ADLS writes.")
  else
    adls_call env (OpenService ("https://" +:+ account_name +:+ ".dfs.core.windows.net")) ;;;
    try_except (adls_call env (CreateFileSystem fs) ;;; log INFO "Created filesystem %s")
               (fun _ => ret tt) ;;;
    ret (mkADLSWriter fs).

(** [ADLSWriter.upload_bytes] *)
Definition upload_bytes (self : ADLSWriter) (directory_path filename : string)
    (data : Payload) : M bool :=
  try_except (adls_call env (CreateDirectory (filesystem self) directory_path))
             (fun _ => ret tt) ;;;
  adls_call env (CreateFile (filesystem self) directory_path filename) ;;;
  adls_call env (UploadData (filesystem self) directory_path filename data) ;;;
  ret true.

(** [ADLSWriter.upload_text]: [text.encode(encoding)] then [upload_bytes] *)
Definition upload_text (self : ADLSWriter) (directory_path filename : string)
    (text : Payload) : M unit :=
  upload_bytes self directory_path filename text ;;; ret tt.

Definition sha256_hex (b : string) : string := sha256_hexdigest lib b.

(** A manifest row as [csv.DictReader] yields it: field name to value,
    [None] for a field missing from a short line. *)
Definition Row := list (string * option string).

(** [row.get(k)] *)
Definition row_get (k : string) (row : Row) : option string :=
  match Py.dict_get k row with Some (Some v) => Some v | _ => None end.

(** [row.get(k) or ""] and the like *)
Definition opt_truthy (o : option string) : bool :=
  match o with Some s => Py.truthy s | None => false end.

Definition opt_or (o : option string) (d : string) : string :=
  match o with Some s => Py.or_else s d | None => d end.

Definition get_domain (url : string) : option string :=
  match urlparse lib url with
  | Some (netloc, _) => Some (Py.lower netloc)
  | None => None
  end.

(** [f"{domain}"] *)
Definition fmt_domain (domain : option string) : string :=
  match domain with Some d => d | None => "None" end.

(** [f"https://{domain}/robots.txt"] *)
Definition robots_txt_url (domain : option string) : string :=
  "https://" +:+ fmt_domain domain +:+ "/robots.txt".

Definition get_robots_parser_for_domain (domain : option string) : M (option RobotsParser) :=
  let robots_url := robots_txt_url domain in
  try_except (rp <- robots_io env robots_url ;; ret (Some rp))
             (fun e => log WARNING "Failed to read robots.txt %s: %s" ;;; ret None).

(** [domain_crawl_delay.get(domain, DEFAULT_CRAWL_DELAY)] *)
Definition effective_delay (w : World) (domain : option string) : Z :=
  default (DEFAULT_CRAWL_DELAY cfg) (domain_crawl_delay w !! domain).

Definition wait_for_domain (domain : option string) : M unit :=
  fun w =>
    let last := domain_last_request w !! domain in
    let delay := effective_delay w domain in
    match last with
    | Some last =>
        if last =? 0 then (Ok tt, w)            (* [if last:] is false at 0.0 *)
        else
          let elapsed := clock w - last in
          if elapsed <? delay then
            let sleep_for := delay - elapsed + random_uniform_0_1 env w in
            (log DEBUG "Sleeping %.2fs to respect crawl-delay for %s" ;;;
             time_sleep env sleep_for) w
          else (Ok tt, w)
    | None => (Ok tt, w)
    end.

(** The [cd] computed by the first [try] of [record_domain_request] *)
Definition declared_crawl_delay (rp : RobotsParser) : option Z :=
  match crawl_delay rp (USER_AGENT cfg) with
  | None => None                          (* raised *)
  | Some (Some cd) => Some cd
  | Some None =>
      match crawl_delay rp "*" with
      | None => None                      (* raised *)
      | Some cd => cd
      end
  end.

Definition record_domain_request (domain : option string)
    (robots_parser : option RobotsParser) : M unit :=
  fun w =>
    let w1 :=
      match robots_parser with
      | Some rp =>
          match declared_crawl_delay rp with
          | Some cd =>
              match py_float lib cd with
              | Some ms => set_crawl_delay (<[domain := ms]> (domain_crawl_delay w)) w
              | None =>
                  set_crawl_delay
                    (<[domain := DEFAULT_CRAWL_DELAY cfg]> (domain_crawl_delay w)) w
              end
          | None => w
          end
      | None => w
      end in
    (Ok tt, set_last_request (<[domain := clock w1]> (domain_last_request w1)) w1).

(** The dictionary returned by [polite_fetch] *)
Inductive FetchInfo :=
| SkippedByRobots (url : string)
| Fetched (response : Response)
| FetchError (error : string) (url : string).

Definition polite_fetch (url : string) (params : Params) : M FetchInfo :=
  let domain := get_domain url in
  rp <- (if opt_truthy domain then get_robots_parser_for_domain domain else ret None) ;;
  let proceed :=
    wait_for_domain domain ;;;
    try_except_class is_request_exception
      (log INFO "Fetching %s" ;;;
       resp <- session_get env url params ;;
       record_domain_request domain rp ;;;
       ret (Fetched resp))
      (fun e => log WARNING "Request failed for %s: %s" ;;;
                ret (FetchError (exn_str e) url)) in
  match rp with
  | Some p =>
      if negb (can_fetch p (USER_AGENT cfg) url) then
        log INFO "robots.txt disallows fetching %s for %s" ;;;
        ret (SkippedByRobots url)
      else proceed
  | None => proceed
  end.

(** [ensure_local_path], [save_local_bytes], [save_local_text] *)
Definition ensure_local_path (path : string) : M unit := local_call env (MakeDirs path).

Definition save_local_bytes (target_path filename : string) (data : Payload) : M string :=
  ensure_local_path target_path ;;;
  let full := Py.path_join target_path filename in
  local_call env (WriteFile full data) ;;;
  ret full.

Definition save_local_text (target_path filename : string) (text : Payload) : M string :=
  ensure_local_path target_path ;;;
  let full := Py.path_join target_path filename in
  local_call env (WriteFile full text) ;;;
  ret full.

Fixpoint map_chars (f : ascii -> ascii) (s : string) : string :=
  match s with
  | EmptyString => EmptyString
  | String c r => String (f c) (map_chars f r)
  end.

Definition build_output_paths (source_name : string) : M string :=
  let safe_name :=
    Py.strip "_-"
      (map_chars (fun c => if Py.isalnum c || Py.mem_char c "-_" then c else "_"%char)
                 source_name) in
  t <- utcnow ;;
  let date_part := strftime_date lib t in
  ret ("anduril/" +:+ safe_name +:+ "/" +:+ date_part).

(** The loop [for p in api_params.split("&"): if "=" in p: ...] *)
Definition parse_api_params (api_params : string) (params : Params) : Params :=
  fold_left
    (fun params p =>
       match Py.split_once "=" p with
       | Some (k, v) => Py.dict_set (Py.strip_ws k) (Py.strip_ws v) params
       | None => params
       end)
    (Py.split "&" api_params) params.

(** [resp.content] *)
Definition read_content (resp : Response) : M string :=
  match content resp with
  | Some c => ret c
  | None => raise (OtherError "content unreadable")
  end.

(** The block [if adls_writer: upload_bytes; upload_text else: save_local_bytes;
    save_local_text] of the two API branches *)
Definition store_pair (adls_writer : option ADLSWriter) (outdir filename : string)
    (body : string) (meta : Json) : M unit :=
  match adls_writer with
  | Some wr =>
      upload_bytes wr outdir filename (RawBytes body) ;;;
      upload_text wr outdir (filename +:+ ".metadata.json") (JsonText true meta) ;;;
      log INFO "Wrote to ADLS: %s/%s"
  | None =>
      let local_dir := Py.path_join (LOCAL_RAW_BASE cfg) outdir in
      save_local_bytes local_dir filename (RawBytes body) ;;;
      save_local_text local_dir (filename +:+ ".metadata.json") (JsonText true meta) ;;;
      log INFO "Wrote local: %s/%s"
  end.

Definition api_meta (source_name endpoint notes : string) (t : Z) (resp : Response) : Json :=
  JObj [("source_name", JStr source_name);
        ("url", JStr endpoint);
        ("fetched_at", JStr (isoformat lib t));
        ("http_status", JNum (status_code resp));
        ("notes", JStr notes)].

(** Lines 231-273: the USAspending shortcut. The result says whether the
    row is finished ([continue]) or falls through to the code below. *)
Definition usaspending_branch (dry_run : bool) (adls_writer : option ADLSWriter)
    (source_name api_params notes outdir : string) : M bool :=
  let api_base := "https://api.usaspending.gov/api/v2" in
  try_except
    (let params :=
       if Py.truthy api_params then parse_api_params api_params [] else [] in
     if Py.dict_mem "recipient_id" params || Py.dict_mem "recipient_unique_id" params then
       let endpoint := api_base +:+ "/recipient/awards/" in
       log INFO "Querying USAspending awards endpoint for params=%s" ;;;
       if dry_run then
         log INFO "[dry-run] would GET %s with params %s" ;;; ret true
       else
         resp <- session_get env endpoint params ;;
         body <- read_content resp ;;
         t <- utcnow ;;
         let meta := api_meta source_name endpoint notes t resp in
         let filename :=
           source_name +:+ "_usaspending_" +:+ strftime_stamp lib t +:+ ".json" in
         store_pair adls_writer outdir filename body meta ;;;
         ret true
     else ret false)
    (fun e => log WARNING "USAspending helper failed: %s" ;;; ret false).

(** Lines 276-315: the SAM.gov shortcut. *)
Definition sam_branch (dry_run : bool) (adls_writer : option ADLSWriter)
    (source_name api_params notes outdir : string) : M bool :=
  match SAM_API_KEY cfg with
  | Some sam_key =>
      if Py.truthy sam_key then
        try_except
          (let endpoint := "https://api.sam.gov/prod/opportunities/v2/search" in
           let params := parse_api_params api_params [] in
           let params := Py.dict_set "api_key" sam_key params in
           log INFO "Querying SAM.gov opportunities: %s params=%s" ;;;
           if dry_run then
             log INFO "[dry-run] would GET %s with params %s" ;;; ret true
           else
             resp <- session_get env endpoint params ;;
             body <- read_content resp ;;
             t <- utcnow ;;
             let meta := api_meta source_name endpoint notes t resp in
             let filename := source_name +:+ "_sam_" +:+ strftime_stamp lib t +:+ ".json" in
             store_pair adls_writer outdir filename body meta ;;;
             ret true)
          (fun e => log WARNING "SAM.gov helper failed: %s" ;;; ret false)
      else ret false
  | None => ret false
  end.

(** Lines 326-342: the record written when robots.txt disallows the URL *)
Definition robots_skip (adls_writer : option ADLSWriter)
    (source_name url notes outdir : string) : M unit :=
  log INFO "Robots disallow %s -> skipping" ;;;
  t <- utcnow ;;
  let meta := JObj [("source_name", JStr source_name);
                    ("url", JStr url);
                    ("fetched_at", JStr (isoformat lib t));
                    ("skipped_by_robots", JBool true);
                    ("notes", JStr notes)] in
  let filename := source_name +:+ "_robots_skip_" +:+ strftime_stamp lib t +:+ ".json" in
  match adls_writer with
  | Some wr =>
      upload_text wr outdir filename (JsonText true meta) ;;;
      log INFO "Wrote ADLS metadata for robots skip: %s/%s"
  | None =>
      let local_dir := Py.path_join (LOCAL_RAW_BASE cfg) outdir in
      save_local_text local_dir filename (JsonText true meta) ;;;
      log INFO "Wrote local metadata for robots skip: %s/%s"
  end.

(** Lines 369-375 *)
Definition choose_ext (content_type basename : string) : string :=
  if Py.contains "pdf" content_type then ".pdf"
  else if Py.contains "html" content_type || Py.contains "text" content_type then ".html"
  else Py.or_else (splitext_ext lib basename) ".bin".

(** Lines 379-390 *)
Definition generic_meta (source_name url notes content_type body : string) (t : Z)
    (resp : Response) (manifest_meta : Row) : Json :=
  JObj [("source_name", JStr source_name);
        ("url", JStr url);
        ("fetched_at", JStr (isoformat lib t));
        ("http_status", JNum (status_code resp));
        ("content_type", JStr content_type);
        ("content_length", JNum (Z.of_nat (String.length body)));
        ("etag", json_of_opt (header_get "ETag" (headers resp)));
        ("checksum_sha256", JStr (sha256_hex body));
        ("notes", JStr notes);
        ("manifest_row", JObj (map (fun kv => (fst kv, json_of_opt (snd kv))) manifest_meta))].

(** Lines 392-408: commit of the content and its sidecar *)
Definition commit_generic (adls_writer : option ADLSWriter) (outdir filename_ts : string)
    (body : string) (meta : Json) : M unit :=
  let local_dir := Py.path_join (LOCAL_RAW_BASE cfg) outdir in
  match adls_writer with
  | Some wr =>
      try_except
        (upload_bytes wr outdir filename_ts (RawBytes body) ;;;
         upload_text wr outdir (filename_ts +:+ ".metadata.json") (JsonText true meta) ;;;
         log INFO "Wrote to ADLS: %s/%s")
        (fun e =>
           log WARNING "ADLS upload failed for %s: %s" ;;;
           save_local_bytes local_dir filename_ts (RawBytes body) ;;;
           save_local_text local_dir (filename_ts +:+ ".metadata.json") (JsonText true meta) ;;;
           log INFO "Wrote fallback local: %s/%s")
  | None =>
      save_local_bytes local_dir filename_ts (RawBytes body) ;;;
      save_local_text local_dir (filename_ts +:+ ".metadata.json") (JsonText true meta) ;;;
      log INFO "Wrote local: %s/%s"
  end.

(** Lines 410-414; [int(seconds)] of the default truncates towards zero *)
Definition backoff_429 (resp : Response) : M unit :=
  if status_code resp =? 429 then
    backoff <- match header_get "Retry-After" (headers resp) with
               | Some v =>
                   match py_int lib v with
                   | Some n => ret n
                   | None => raise (ValueError "invalid literal for int()")
                   end
               | None => ret (Z.quot (DEFAULT_CRAWL_DELAY cfg) 1000)
               end ;;
    log INFO "Received 429. Backing off %ds" ;;;
    fun w => time_sleep env (backoff * 1000 + random_uniform_0_1 env w) w
  else ret tt.

(** Lines 317-414: the generic fetch path *)
Definition generic_path (dry_run : bool) (adls_writer : option ADLSWriter) (row : Row)
    (source_name url notes outdir basename : string) : M unit :=
  if negb (Py.truthy url) then log WARNING "No URL for row %s - skipping"
  else
    rp <- get_robots_parser_for_domain (get_domain url) ;;
    if match rp with
       | Some p => negb (can_fetch p (USER_AGENT cfg) url)
       | None => false
       end
    then robots_skip adls_writer source_name url notes outdir
    else if dry_run then log INFO "[dry-run] would fetch %s"
    else
      resp_info <- polite_fetch url [] ;;
      match resp_info with
      | SkippedByRobots _ => log INFO "Skipped by robots: %s"
      | FetchError _ _ => log WARNING "Fetch error for %s: %s"
      | Fetched resp =>
          if negb (response_bool lib resp) then log WARNING "No response for %s"
          else
            match content resp with
            | None => log WARNING "Failed to read content for %s: %s"
            | Some body =>
                let content_type :=
                  Py.lower (default "" (header_get "Content-Type" (headers resp))) in
                let ext := choose_ext content_type basename in
                t <- utcnow ;;
                let filename_ts :=
                  Py.rstrip "." basename +:+ "_" +:+ strftime_stamp lib t +:+ ext in
                let meta :=
                  generic_meta source_name url notes content_type body t resp row in
                commit_generic adls_writer outdir filename_ts body meta ;;;
                backoff_429 resp
            end
      end.

(** The body of [for row in rows] *)
Definition process_row (dry_run : bool) (adls_writer : option ADLSWriter) (row : Row)
    : M unit :=
  let source_name :=
    if opt_truthy (row_get "source_name" row) then opt_or (row_get "source_name" row) ""
    else opt_or (row_get "source" row) "unnamed" in
  let url := opt_or (row_get "url" row) "" in
  let fetch_method := Py.lower (opt_or (row_get "fetch_method" row) "") in
  let api_params := opt_or (row_get "api_endpoint_or_params" row) "" in
  let notes := opt_or (row_get "notes" row) "" in
  outdir <- build_output_paths source_name ;;
  parsed <- match urlparse lib url with
            | Some p => ret p
            | None => raise (ValueError "urlparse")
            end ;;
  let basename := Py.or_else (Py.last_item (Py.split "/" (Py.rstrip "/" (snd parsed)))) "index" in
  let basename := if negb (Py.contains "." basename) then basename +:+ ".html" else basename in
  done <- (if Py.contains "usaspending" (Py.lower url)
              || Py.contains "usaspending" (Py.lower api_params)
           then usaspending_branch dry_run adls_writer source_name api_params notes outdir
           else ret false) ;;
  if done : bool then ret tt
  else
    done <- (if Py.contains "sam.gov" (Py.lower url)
                || (Py.contains "sam" (Py.lower api_params) && opt_truthy (SAM_API_KEY cfg))
             then sam_branch dry_run adls_writer source_name api_params notes outdir
             else ret false) ;;
    if done : bool then ret tt
    else generic_path dry_run adls_writer row source_name url notes outdir basename.

(** Lines 205-212 *)
Definition make_adls_writer (local_only : bool) : M (option ADLSWriter) :=
  match ADLS_ACCOUNT cfg, ADLS_FILESYSTEM cfg with
  | Some account, Some fs =>
      if Py.truthy account && Py.truthy fs && AZURE_SDK_AVAILABLE cfg && negb local_only then
        try_except
          (wr <- ADLSWriter_init account fs ;;
           log INFO "ADLS writer initialized for account=%s filesystem=%s" ;;;
           ret (Some wr))
          (fun e =>
             log WARNING "Could not initialize ADLS writer: %s. Falling back to local writes." ;;;
             ret None)
      else ret None
  | _, _ => ret None
  end.

(** [main], from the manifest rows [load_manifest] returned *)
Definition main (rows : list Row) (dry_run local_only : bool) : M unit :=
  log INFO "Loading manifest %s" ;;;
  log INFO "Found %d rows" ;;;
  adls_writer <- make_adls_writer local_only ;;
  for_each (process_row dry_run adls_writer) rows ;;;
  log INFO "Done seeding manifest.".

End FetchSeed.
End FetchSeed.

(** ** Storage helpers of the two stand-alone scripts *)

Definition payload_len (lib : Lib) (p : Payload) : nat :=
  match p with
  | RawBytes b => String.length b
  | JsonText indent j => String.length (json_dumps lib indent j)
  | PlainText s => String.length s
  end.

(** [os.environ["AZURE_STORAGE_ACCOUNT_NAME"]] *)
Definition environ_account (cfg : Config) : M string :=
  match ADLS_ACCOUNT cfg with
  | Some a => ret a
  | None => raise (KeyError "AZURE_STORAGE_ACCOUNT_NAME")
  end.

(** [adls_client], the same in both scripts *)
Definition adls_client (env : Env) (account_name : string) : M unit :=
  adls_call env (OpenService ("https://" +:+ account_name +:+ ".dfs.core.windows.net")).

(** ** [usaspending_fetch.py] *)

Module UsaspendingFetch.
Section UsaspendingFetch.
Context (lib : Lib) (cfg : Config) (env : Env).

(** The flush position is the length of the compact dump, the appended
    data is the indented dump, as in the source. *)
Definition write_json_to_adls (filesystem path_dir filename : string) (data : Json)
    : M unit :=
  try_except (adls_call env (CreateDirectory filesystem path_dir)) (fun _ => ret tt) ;;;
  adls_call env (CreateFile filesystem path_dir filename) ;;;
  adls_call env (AppendData filesystem path_dir filename (JsonText true data) 0) ;;;
  adls_call env (FlushData filesystem path_dir filename
                   (payload_len lib (JsonText false data))).

(** [payload.get(k)]: [AttributeError] unless the payload is an object *)
Definition payload_get (k : string) (payload : Json) : M (option Json) :=
  match payload with
  | JObj fields => ret (Py.dict_get k fields)
  | _ => raise (AttributeError "object has no attribute 'get'")
  end.

(** [len(payload.get("results", []))] *)
Definition hits (payload : Json) : M nat :=
  r <- payload_get "results" payload ;;
  match r with
  | None => ret 0%nat
  | Some v => match json_len v with
              | Some n => ret n
              | None => raise (TypeError "object has no len()")
              end
  end.

Definition base : string := "https://api.usaspending.gov/api/v2/recipient/awards/".
Definition prefix_dir : string := "anduril/USAspending".

Definition page_params (rid rlevel : string) (pagesize page : Z) : Params :=
  [("recipient_id", rid); ("recipient_level", rlevel);
   ("limit", Py.str_of_int pagesize); ("page", Py.str_of_int page)].

(** The [while True] loop, started at [page]. The result is [None] when
    [fuel] iterations did not reach a [break]. *)
Fixpoint page_loop (fuel : nat) (fs recipient_id rid rlevel : string)
    (pagesize sleep_s page : Z) : M (option unit) :=
  match fuel with
  | O => ret None
  | S fuel' =>
      log INFO "GET %s page=%s" ;;;
      r <- session_get env base (page_params rid rlevel pagesize page) ;;
      if negb (status_code r =? 200) then
        log ERROR "USAspending returned %s: %s" ;;; ret (Some tt)
      else
        payload <- match json_body r with
                   | Some j => ret j
                   | None => raise (ValueError "JSONDecodeError")
                   end ;;
        t <- utcnow ;;
        let filename :=
          "usaspending_" +:+ recipient_id +:+ "_page" +:+ Py.str_of_int page
            +:+ "_" +:+ strftime_stamp lib t +:+ ".json" in
        write_json_to_adls fs (prefix_dir +:+ "/" +:+ recipient_id) filename payload ;;;
        n <- hits payload ;;
        log INFO "Wrote page %s (hits=%s)" ;;;
        results <- payload_get "results" payload ;;
        if negb (match results with Some v => json_truthy v | None => false end) then
          ret (Some tt)
        else
          time_sleep env sleep_s ;;;
          page_loop fuel' fs recipient_id rid rlevel pagesize sleep_s (page + 1)
  end.

(** The defaults of the parameters [pagesize] and [sleep_s] (0.2 s) *)
Definition default_pagesize : Z := 50.
Definition default_sleep_s : Z := 200.

Definition fetch_usaspending_for_recipient (fuel : nat) (recipient_id : string)
    (pagesize sleep_s : Z) : M (option unit) :=
  let suffixed := Py.endswith "-C" recipient_id || Py.endswith "-P" recipient_id in
  let rlevel := if suffixed then Py.last_char recipient_id else "C" in
  let rid := if suffixed then Py.drop_last 2 recipient_id else recipient_id in
  account <- environ_account cfg ;;
  adls_client env account ;;;
  let fs := default "raw" (ADLS_FILESYSTEM cfg) in
  done <- page_loop fuel fs recipient_id rid rlevel pagesize sleep_s 1 ;;
  match done with
  | Some _ => log INFO "Done fetching USAspending for %s" ;;; ret (Some tt)
  | None => ret None
  end.

End UsaspendingFetch.
End UsaspendingFetch.

(** ** [news_fetch.py] *)

Module NewsFetch.
Section NewsFetch.
Context (lib : Lib) (cfg : Config) (env : Env).

Definition write_text (filesystem path_dir filename : string) (text : Payload) : M unit :=
  try_except (adls_call env (CreateDirectory filesystem path_dir)) (fun _ => ret tt) ;;;
  adls_call env (CreateFile filesystem path_dir filename) ;;;
  adls_call env (AppendData filesystem path_dir filename text 0) ;;;
  adls_call env (FlushData filesystem path_dir filename (payload_len lib text)).

(** A feed entry ([FeedParserDict]): the fields present in the item *)
Definition Entry := list (string * string).

(** [entry.link]: [AttributeError] when the item has no link *)
Definition entry_link (entry : Entry) : M string :=
  match Py.dict_get "link" entry with
  | Some l => ret l
  | None => raise (AttributeError "object has no attribute 'link'")
  end.

Definition safe_title (entry : Entry) : string :=
  Py.take 140
    (Py.replace_char " " "_"
       (Py.replace_char "/" "_" (default "untitled" (Py.dict_get "title" entry)))).

Definition item_json (entry : Entry) : Json :=
  JObj [("title", json_of_opt (Py.dict_get "title" entry));
        ("link", json_of_opt (Py.dict_get "link" entry));
        ("published", json_of_opt (Py.dict_get "published" entry));
        ("summary", json_of_opt (Py.dict_get "summary" entry))].

(** The body of [for entry in feed.entries[:max_items]] *)
Definition process_entry (fs prefix : string) (entry : Entry) : M unit :=
  t <- utcnow ;;
  let ts := strftime_stamp lib t in
  let filename := safe_title entry +:+ "_" +:+ ts +:+ ".json" in
  write_text fs (prefix +:+ "/rss") filename (JsonText true (item_json entry)) ;;;
  try_except
    (link <- entry_link entry ;;
     r <- session_get env link [] ;;
     if (status_code r =? 200) && (200 <? String.length (text r))%nat then
       let html_name := safe_title entry +:+ "_" +:+ ts +:+ ".html" in
       write_text fs (prefix +:+ "/html") html_name (PlainText (text r))
     else ret tt)
    (fun e =>
       link <- entry_link entry ;;
       log WARNING "Failed to fetch article %s: %s") ;;;
  time_sleep env 200.

(** The default of the parameter [max_items] *)
Definition default_max_items : Z := 10.

Definition fetch_rss_and_store (url source_name : string) (max_items : Z) : M unit :=
  account <- environ_account cfg ;;
  adls_client env account ;;;
  let fs := default "raw" (ADLS_FILESYSTEM cfg) in
  let prefix := "anduril/news/" +:+ source_name in
  log INFO "Parsing RSS: %s" ;;;
  entries <- feedparser_parse env url ;;
  for_each (process_entry fs prefix) (Py.slice_to max_items entries).

End NewsFetch.
End NewsFetch.

(** ** A concrete library and configuration, for closed examples

    [demo_lib] stands in for the Python libraries on plain ASCII inputs:
    [urlparse] splits [scheme://netloc/path?query], time stamps are the
    decimal clock reading, the digest is a tagged copy of its input. *)

Module Demo.

Fixpoint until_any (stops : string) (s : string) : string * string :=
  match s with
  | EmptyString => (EmptyString, EmptyString)
  | String c r =>
      if Py.mem_char c stops then (EmptyString, s)
      else let (a, b) := until_any stops r in (String c a, b)
  end.

Fixpoint after_scheme (s : string) : option string :=
  match s with
  | EmptyString => None
  | String c r =>
      match s with
      | String ":" (String "/" (String "/" rest)) => Some rest
      | _ => after_scheme r
      end
  end.

Definition demo_urlparse (url : string) : option (string * string) :=
  match after_scheme url with
  | Some rest =>
      let (netloc, tail) := until_any "/?#" rest in
      Some (netloc, fst (until_any "?#" tail))
  | None => Some (EmptyString, fst (until_any "?#" url))
  end.

Definition demo_int (s : string) : option Z :=
  match NilZero.int_of_string s with
  | Some n => Some (Z.of_int n)
  | None => None
  end.

Definition demo_splitext (p : string) : string :=
  match Py.split "." p with
  | [] | [_] => EmptyString
  | l => "." +:+ Py.last_item l
  end.

Definition demo_dumps (indent : bool) (j : Json) : string :=
  match j with
  | JObj fields => if indent then "{ ... }" else "{...}"
  | JArr items => if indent then "[ ... ]" else "[...]"
  | JStr s => s
  | JNum n => Py.str_of_int n
  | JBool b => if b then "true" else "false"
  | JNull => "null"
  end.

Definition demo_lib : Lib :=
  mkLib demo_urlparse
        (fun b => "sha256:" +:+ b)
        (fun t => Py.str_of_int t)
        (fun t => "T" +:+ Py.str_of_int t)
        (fun t => Py.str_of_int t)
        demo_splitext
        demo_int
        (fun cd => Some (cd * 1000))
        demo_dumps
        (fun r => (status_code r <? 400) || (600 <=? status_code r)).

(** Local storage only, default crawl delay of five seconds. *)
Definition demo_cfg : Config :=
  mkConfig 5000 "anduril-corpus-bot/0.1" "data/raw/anduril" None None false None.

(** The same with the remote store configured. *)
Definition adls_cfg : Config :=
  mkConfig 5000 "anduril-corpus-bot/0.1" "data/raw/anduril" (Some "acct") (Some "raw") true None.

Definition page_ok (body : string) : Response :=
  mkResponse 200 [("Content-Type", "text/html")] (Some body) body None.

(** What [RobotFileParser.read()] leaves when the server answers the
    request for robots.txt with an HTTP error status: 401 and 403
    disallow everything, any other 4xx allows everything, and any other
    error status leaves the parser unread, which makes [can_fetch]
    answer [False]; no crawl delay is declared in any of these cases. *)
Definition robots_after_error (status : Z) : RobotsParser :=
  mkRobots (fun _ _ => (400 <=? status) && (status <? 500)
                       && negb ((status =? 401) || (status =? 403)))
           (fun _ => Some None).

Definition allow_all : RobotsParser := mkRobots (fun _ _ => true) (fun _ => Some None).
Definition disallow_all : RobotsParser := mkRobots (fun _ _ => false) (fun _ => Some None).
Definition allow_delay (seconds : Z) : RobotsParser :=
  mkRobots (fun _ _ => true) (fun _ => Some (Some seconds)).

(** Every server answers 200 with a short page, robots.txt allows
    everything, every call takes 10 ms, storage works. *)
Definition calm_env : Env :=
  mkEnv (fun _ _ => Some allow_all)
        (fun _ _ _ => inr (page_ok "<html>ok</html>"))
        (fun _ _ => [])
        (fun _ => 10%N)
        (fun _ => 0%N)
        (fun _ _ => true)
        (fun _ _ => true)
        (fun _ => SLEEP_MAX).

Definition with_robots (f : nat -> string -> option RobotsParser) (e : Env) : Env :=
  mkEnv f (http_get e) (feed_parse e) (latency e) (random_ms e) (adls e) (localfs e)
        (sleep_limit e).
Definition with_http (f : nat -> string -> Params -> Exn + Response) (e : Env) : Env :=
  mkEnv (robots_read e) f (feed_parse e) (latency e) (random_ms e) (adls e) (localfs e)
        (sleep_limit e).
Definition with_feed (f : nat -> string -> list (list (string * string))) (e : Env) : Env :=
  mkEnv (robots_read e) (http_get e) f (latency e) (random_ms e) (adls e) (localfs e)
        (sleep_limit e).
Definition with_adls (f : nat -> SdkCall -> bool) (e : Env) : Env :=
  mkEnv (robots_read e) (http_get e) (feed_parse e) (latency e) (random_ms e) f (localfs e)
        (sleep_limit e).
Definition with_localfs (f : nat -> LocalOp -> bool) (e : Env) : Env :=
  mkEnv (robots_read e) (http_get e) (feed_parse e) (latency e) (random_ms e) (adls e) f
        (sleep_limit e).

End Demo.

(** ** Scenarios used by the closed examples *)

Module Scenario.
Import Demo.

Definition report_url : string := "https://example.com/report.pdf".
Definition example_com : option string := Some "example.com".
Definition example_robots : string := "https://example.com/robots.txt".

(** Every request times out. *)
Definition timeout_env : Env :=
  with_http (fun _ _ _ => inl (RequestException "timed out")) calm_env.

(** robots.txt declares a crawl delay of 10 s when first read and cannot
    be read afterwards. *)
Definition flaky_robots_env : Env :=
  with_robots (fun i _ => if (i <? 1)%nat then Some (allow_delay 10) else None) calm_env.

(** robots.txt cannot be read at all. *)
Definition unreadable_env : Env := with_robots (fun _ _ => None) calm_env.

(** robots.txt is answered with the HTTP status 403, or 503: [read()]
    returns without raising. *)
Definition forbidden_env : Env :=
  with_robots (fun _ _ => Some (robots_after_error 403)) calm_env.
Definition unavailable_env : Env :=
  with_robots (fun _ _ => Some (robots_after_error 503)) calm_env.

(** robots.txt declares a crawl delay of 99999999999 s. *)
Definition glacial_env : Env :=
  with_robots (fun _ _ => Some (allow_delay 99999999999)) calm_env.

(** robots.txt disallows every URL. *)
Definition disallow_env : Env := with_robots (fun _ _ => Some disallow_all) calm_env.

Definition report_row : FetchSeed.Row :=
  [("source_name", Some "acme"); ("url", Some report_url)].

End Scenario.

Module PagedApi.
Import Demo.

(** An award API with one page of results: page 1 carries one award,
    every other page carries none. *)
Definition award_page : Response :=
  mkResponse 200 [] (Some "{...}") "{...}"
    (Some (JObj [("results", JArr [JStr "award-1"]); ("page_metadata", JObj [])])).

Definition last_page : Response :=
  mkResponse 200 [] (Some "{...}") "{...}" (Some (JObj [("results", JArr [])])).

Definition one_page_env : Env :=
  with_http (fun _ _ params =>
               match Py.dict_get "page" params with
               | Some "1"%string => inr award_page
               | _ => inr last_page
               end) calm_env.

End PagedApi.

Module Rows.
Import Demo Scenario.

Definition second_row : FetchSeed.Row :=
  [("source_name", Some "other"); ("url", Some "https://example.org/index.html")].

(** A row for the USAspending shortcut *)
Definition awards_row : FetchSeed.Row :=
  [("source_name", Some "awards"); ("url", Some "https://www.usaspending.gov/recipient/x");
   ("api_endpoint_or_params", Some "recipient_id=abc-C")].

(** The local file system refuses every call. *)
Definition readonly_env : Env := with_localfs (fun _ _ => false) calm_env.

(** The local file system fails from the sixth external call on: the
    content of the first row is written, its sidecar is not. *)
Definition disk_full_env : Env := with_localfs (fun i _ => (i <? 6)%nat) calm_env.

(** A feed of two items *)
Definition two_items : list (list (string * string)) :=
  [[("title", "First item"); ("link", "https://news.example/1")];
   [("title", "Second item"); ("link", "https://news.example/2")]].

Definition feed_env : Env := with_feed (fun _ _ => two_items) calm_env.

End Rows.

Module Sam.
Import Demo.

(** The configuration of [Demo.demo_cfg] with a SAM.gov key *)
Definition sam_cfg : Config :=
  mkConfig 5000 "anduril-corpus-bot/0.1" "data/raw/anduril" None None false (Some "k3y").

Definition sam_row : FetchSeed.Row :=
  [("source_name", Some "opps"); ("url", Some "https://sam.gov/search");
   ("api_endpoint_or_params", Some "query=Anduril")].

End Sam.

Module Storm.
Import Demo Scenario.

(** robots.txt is unreachable, only the report can be fetched, and the
    remote store accepts the connection but refuses every file. *)
Definition stormy_env : Env :=
  with_robots (fun _ _ => None)
    (with_http (fun _ u _ => if String.eqb u report_url
                             then inr (page_ok "<html>ok</html>")
                             else inl (RequestException "timed out"))
       (with_adls (fun _ c => match c with
                              | OpenService _ | CreateFileSystem _ => true
                              | _ => false
                              end) calm_env)).

End Storm.

(** ** Vocabulary of the properties *)

(** Events emitted by [m] from [w], oldest first. *)
Definition emitted {A} (m : M A) (w : World) : list Event :=
  rev (firstn (List.length (trace (exec m w)) - List.length (trace w)) (trace (exec m w))).

(** [m] only appends events, and the events it appends satisfy [P]. *)
Definition emits {A} (P : list Event -> Prop) (m : M A) : Prop :=
  forall w, exists new, trace (exec m w) = rev new ++ trace w /\ P new.

(** Properties of event sequences that survive sequencing. *)
Class Closed (P : list Event -> Prop) : Prop := {
  closed_nil : P [];
  closed_app : forall a b, P a -> P b -> P (a ++ b)
}.

Section Vocabulary.
Context (lib : Lib) (cfg : Config) (env : Env).

(** The lookup at the head of [polite_fetch]: none for an empty domain. *)
Definition polite_lookup (url : string) (w : World) : option RobotsParser :=
  if FetchSeed.opt_truthy (FetchSeed.get_domain lib url)
  then robots_read env (call_index w) (FetchSeed.robots_txt_url (FetchSeed.get_domain lib url))
  else None.

Definition polite_lookup_events (url : string) (w : World) : list Event :=
  if FetchSeed.opt_truthy (FetchSeed.get_domain lib url)
  then [EvRobots (FetchSeed.robots_txt_url (FetchSeed.get_domain lib url)) (clock w)
          (bool_decide (is_Some (robots_read env (call_index w)
                                   (FetchSeed.robots_txt_url (FetchSeed.get_domain lib url)))))]
  else [].

Definition disallowed (rp : option RobotsParser) (url : string) : bool :=
  match rp with
  | Some p => negb (can_fetch p (USER_AGENT cfg) url)
  | None => false
  end.

(** The delay [record_domain_request] stores for a parser, if any *)
Definition declared_ms (rp : option RobotsParser) : option Z :=
  match rp with
  | Some p =>
      match FetchSeed.declared_crawl_delay cfg p with
      | Some cd => Some (default (DEFAULT_CRAWL_DELAY cfg) (py_float lib cd))
      | None => None
      end
  | None => None
  end.

(** A run of the rate limiter alone: [polite_fetch] on each URL in turn. *)
Definition polite_run (urls : list string) : M unit :=
  for_each (fun u => FetchSeed.polite_fetch lib cfg env u [] ;;; ret tt) urls.

(** The stamps dominate the requests they stand for: every stamp is a
    positive clock reading of the past, and every request that returned
    a response started no later than the stamp of its domain. *)
Definition stamps_ok (w : World) : Prop :=
  0 < clock w
  /\ (forall d t, domain_last_request w !! d = Some t -> 0 < t <= clock w)
  /\ (forall u p s, In (EvGet u p s true) (trace w) ->
        exists t, domain_last_request w !! FetchSeed.get_domain lib u = Some t /\ s <= t).

(** The longest pause [time.sleep] takes at the [i]-th external call *)
Definition sleep_bound (i : nat) : Z := Z.min SLEEP_MAX (sleep_limit env i).

(** A fixed pause that [time.sleep] takes whenever it is asked *)
Definition pause_accepted (d : Z) : Prop := forall i, d <= sleep_bound i.

(** A delay the rate limiter can always wait for: together with the
    random extra of at most one second, [time.sleep] takes it whenever
    it is asked. *)
Definition sleepable (ms : Z) : Prop := pause_accepted (ms + 1000).

(** The delays of the run are sleepable: the default delay and every
    delay that a robots.txt the run can read makes
    [record_domain_request] store. *)
Definition delays_sleepable : Prop :=
  sleepable (DEFAULT_CRAWL_DELAY cfg)
  /\ forall i u rp ms,
       robots_read env i u = Some rp -> declared_ms (Some rp) = Some ms -> sleepable ms.

(** The tables hold no stamp of the future and no delay that is not
    sleepable. *)
Definition tables_sane (w : World) : Prop :=
  (forall d t, domain_last_request w !! d = Some t -> t <= clock w)
  /\ (forall d ms, domain_crawl_delay w !! d = Some ms -> sleepable ms).

(** The wait for [domain] can be slept through: the delay in force for
    it is sleepable and its stamp, if it has one, is not of the future. *)
Definition wait_in_range (w : World) (domain : option string) : Prop :=
  sleepable (FetchSeed.effective_delay cfg w domain)
  /\ forall t, domain_last_request w !! domain = Some t -> t <= clock w.

Definition is_robots_event (e : Event) : bool :=
  match e with EvRobots _ _ _ => true | _ => false end.

Definition is_get_event (e : Event) : bool :=
  match e with EvGet _ _ _ _ => true | _ => false end.

End Vocabulary.


(** ** Vocabulary of the pagination and storage properties *)

(** A successful write of an artifact: the flush that ends an append, an
    upload, or a local file write. *)
Definition is_commit (e : Event) : bool :=
  match e with
  | EvAdls (FlushData _ _ _ _) true => true
  | EvAdls (UploadData _ _ _ _) true => true
  | EvLocal (WriteFile _ _) true => true
  | _ => false
  end.

Definition commits (l : list Event) : nat := List.length (List.filter is_commit l).

Definition requests (l : list Event) : nat := List.length (List.filter is_get_event l).

(** The value under ["results"] of a page, when the body is a JSON object *)
Definition page_results (r : Response) : option (option Json) :=
  match json_body r with
  | Some (JObj fields) => Some (Py.dict_get "results" fields)
  | _ => None
  end.

Definition has_len (v : Json) : bool :=
  match json_len v with Some _ => true | None => false end.

(** A 200 answer whose result list is not empty *)
Definition nonempty_page (r : Response) : bool :=
  (status_code r =? 200)
  && match page_results r with
     | Some (Some v) => json_truthy v && has_len v
     | _ => false
     end.

(** A 200 answer whose result list is empty or absent *)
Definition empty_page (r : Response) : bool :=
  (status_code r =? 200)
  && match page_results r with
     | Some (Some v) => negb (json_truthy v) && has_len v
     | Some None => true
     | None => false
     end.

(** The API answers pages [1..n] with results and page [n+1] with none,
    whenever it is asked. *)
Definition serves_pages (env : Env) (rid rlevel : string) (pagesize : Z) (n : nat) : Prop :=
  (forall i p, 1 <= p <= Z.of_nat n ->
     exists r, http_get env i UsaspendingFetch.base
                 (UsaspendingFetch.page_params rid rlevel pagesize p) = inr r
               /\ nonempty_page r = true)
  /\ (forall i,
        exists r, http_get env i UsaspendingFetch.base
                    (UsaspendingFetch.page_params rid rlevel pagesize (Z.of_nat n + 1)) = inr r
                  /\ empty_page r = true).

Definition storage_works (env : Env) : Prop := forall i c, adls env i c = true.

(** The [rid] and [rlevel] that [fetch_usaspending_for_recipient] derives *)
Definition recipient_rid (recipient_id : string) : string :=
  if Py.endswith "-C" recipient_id || Py.endswith "-P" recipient_id
  then Py.drop_last 2 recipient_id else recipient_id.

Definition recipient_level (recipient_id : string) : string :=
  if Py.endswith "-C" recipient_id || Py.endswith "-P" recipient_id
  then Py.last_char recipient_id else "C".

(** ** Vocabulary of the structured API paths *)

Definition is_storage_event (e : Event) : bool :=
  match e with
  | EvAdls _ _ | EvLocal _ _ => true
  | _ => false
  end.

(** What the paginated fetch may emit: requests, storage calls and the
    fixed pause between pages; no robots lookup. *)
Definition paging_event (sleep_s : Z) (e : Event) : Prop :=
  match e with
  | EvGet _ _ _ _ | EvAdls _ _ => True
  | EvSleep ms => ms = sleep_s
  | _ => False
  end.

(** The query parameters of the two API shortcuts of [main] *)
Definition usaspending_params (api_params : string) : Params :=
  if Py.truthy api_params then FetchSeed.parse_api_params api_params [] else [].

Definition sam_params (sam_key api_params : string) : Params :=
  Py.dict_set "api_key" sam_key (FetchSeed.parse_api_params api_params []).

Definition usaspending_endpoint : string :=
  "https://api.usaspending.gov/api/v2" +:+ "/recipient/awards/".

Definition sam_endpoint : string := "https://api.sam.gov/prod/opportunities/v2/search".

(** ** Vocabulary of the sidecar property *)

(** The metadata carries no checksum, or the digest of [body]. *)
Definition checksum_ok (lib : Lib) (meta : Json) (body : string) : Prop :=
  match meta with
  | JObj fields =>
      match Py.dict_get "checksum_sha256" fields with
      | Some v => v = JStr (sha256_hexdigest lib body)
      | None => True
      end
  | _ => True
  end.

(** What must come right after the event [e] when [e] is a successful
    write of content bytes: the attempt to write the sidecar, named after
    the content file, into the same directory of the same backend. *)
Definition sidecar_follows (lib : Lib) (e : Event) (post : list Event) : Prop :=
  match e with
  | EvLocal (WriteFile path (RawBytes body)) true =>
      exists dir ok1 post',
        post = EvLocal (MakeDirs dir) ok1 :: post'
        /\ (ok1 = true ->
            exists meta ok2 post'',
              post' = EvLocal (WriteFile (path +:+ ".metadata.json") (JsonText true meta)) ok2
                      :: post''
              /\ checksum_ok lib meta body)
  | EvAdls (UploadData fs dir file (RawBytes body)) true =>
      exists okd ok1 post',
        post = EvAdls (CreateDirectory fs dir) okd
               :: EvAdls (CreateFile fs dir (file +:+ ".metadata.json")) ok1 :: post'
        /\ (ok1 = true ->
            exists meta ok2 post'',
              post' = EvAdls (UploadData fs dir (file +:+ ".metadata.json") (JsonText true meta)) ok2
                      :: post''
              /\ checksum_ok lib meta body)
  | _ => True
  end.

(** Every successful content write of the sequence is followed by its
    sidecar write. *)
Definition paired (lib : Lib) (l : list Event) : Prop :=
  forall pre e post, l = pre ++ e :: post -> sidecar_follows lib e post.

(** Events that are not a write of content bytes *)
Definition is_content_write (e : Event) : bool :=
  match e with
  | EvLocal (WriteFile _ (RawBytes _)) _ => true
  | EvAdls (UploadData _ _ _ (RawBytes _)) _ => true
  | _ => false
  end.

(** ** Vocabulary of the RSS property *)

(** The JSON documents handed to the store, in order *)
Definition rss_items (l : list Event) : list Json :=
  flat_map (fun e => match e with
                     | EvAdls (AppendData _ _ _ (JsonText true j) _) _ => [j]
                     | _ => []
                     end) l.

(** Each text handed to the store is the body, longer than 200 characters,
    of an answer with status 200. *)
Definition html_from_ok_response (env : Env) (e : Event) : Prop :=
  match e with
  | EvAdls (AppendData _ _ _ (PlainText t) _) _ =>
      exists i link r,
        http_get env i link [] = inr r
        /\ status_code r = 200 /\ text r = t /\ (200 < String.length t)%nat
  | _ => True
  end.

(** The JSON document whose bytes the event appends successfully *)
Definition json_appended (e : Event) : option Json :=
  match e with
  | EvAdls (AppendData _ _ _ (JsonText true j) _) true => Some j
  | _ => None
  end.

Definition is_flushed (e : Event) : bool :=
  match e with
  | EvAdls (FlushData _ _ _ _) true => true
  | _ => false
  end.

(** The JSON documents committed, in order: those appended successfully
    and flushed successfully by the call that comes next. *)
Fixpoint committed_json (l : list Event) : list Json :=
  match l with
  | [] => []
  | e :: r =>
      match json_appended e, r with
      | Some j, f :: _ => if is_flushed f then j :: committed_json r else committed_json r
      | _, _ => committed_json r
      end
  end.

(** A sequence that does not begin with a successful flush *)
Definition starts_quiet (l : list Event) : Prop :=
  match l with
  | [] => True
  | e :: _ => is_flushed e = false
  end.

(** Every entry has a link. *)
Definition entries_have_links (l : list NewsFetch.Entry) : Prop :=
  Forall (fun x => is_Some (Py.dict_get "link" x)) l.

(** ** Vocabulary of the error handling property *)

(** Every result [m] can give satisfies [Q]. *)
Definition yields {A} (Q : Res A -> Prop) (m : M A) : Prop := forall w, Q (result m w).

Definition is_ok {A} (r : Res A) : Prop :=
  match r with Ok _ => True | Raise _ => False end.

(** [m] lets the clock advance only and leaves the two tables of the rate
    limiter as they are. *)
Definition frames {A} (m : M A) : Prop :=
  forall w, clock w <= clock (exec m w)
            /\ domain_last_request (exec m w) = domain_last_request w
            /\ domain_crawl_delay (exec m w) = domain_crawl_delay w.

(** From a world where [I] holds, the result of [m] satisfies [Q] and
    [I] holds again. *)
Definition keeps {A} (I : World -> Prop) (Q : Res A -> Prop) (m : M A) : Prop :=
  forall w, I w -> Q (result m w) /\ I (exec m w).

(** [I] is about the clock and the two tables, and is not lost when the
    clock advances. *)
Class Framed (I : World -> Prop) : Prop :=
  framed : forall w w',
    clock w <= clock w' ->
    domain_last_request w' = domain_last_request w ->
    domain_crawl_delay w' = domain_crawl_delay w ->
    I w -> I w'.

(** The fields of a row as [main] reads them *)
Definition row_url (row : FetchSeed.Row) : string :=
  FetchSeed.opt_or (FetchSeed.row_get "url" row) "".

Definition row_api_params (row : FetchSeed.Row) : string :=
  FetchSeed.opt_or (FetchSeed.row_get "api_endpoint_or_params" row) "".

(** The errors the row loop has no handler for do not occur: *)

(** the local file system accepts every call; *)
Definition local_store_works (env : Env) : Prop := forall i op, localfs env i op = true.

(** [urlparse] accepts the URL of every row; *)
Definition urls_parse (lib : Lib) (rows : list FetchSeed.Row) : Prop :=
  Forall (fun row => is_Some (urlparse lib (row_url row))) rows.

(** a request fails with a [requests.RequestException] or not at all; *)
Definition only_request_exceptions (env : Env) : Prop :=
  forall i u ps e, http_get env i u ps = inl e -> is_request_exception e = true.

(** when the 429 backoff is reached, its delay is a non-negative integer
    that, with the random extra, [time.sleep] takes; *)
Definition backoff_usable (lib : Lib) (cfg : Config) (env : Env) : Prop :=
  forall r, response_bool lib r = true -> status_code r = 429 ->
    match header_get "Retry-After" (headers r) with
    | Some v => exists n, py_int lib v = Some n /\ 0 <= n /\ sleepable env (n * 1000)
    | None => 0 <= Z.quot (DEFAULT_CRAWL_DELAY cfg) 1000
              /\ sleepable env (Z.quot (DEFAULT_CRAWL_DELAY cfg) 1000 * 1000)
    end.

(** no robots.txt disallows a URL for the crawler (so that no robots-skip
    record is written to the remote store). *)
Definition robots_never_disallow (cfg : Config) (env : Env) : Prop :=
  forall i u rp url, robots_read env i u = Some rp -> can_fetch rp (USER_AGENT cfg) url = true.

(** The tests by which [main] sends a row to an API shortcut *)
Definition names_usaspending (row : FetchSeed.Row) : bool :=
  Py.contains "usaspending" (Py.lower (row_url row))
  || Py.contains "usaspending" (Py.lower (row_api_params row)).

Definition has_recipient (row : FetchSeed.Row) : bool :=
  Py.dict_mem "recipient_id" (usaspending_params (row_api_params row))
  || Py.dict_mem "recipient_unique_id" (usaspending_params (row_api_params row)).

Definition names_sam (cfg : Config) (row : FetchSeed.Row) : bool :=
  Py.contains "sam.gov" (Py.lower (row_url row))
  || (Py.contains "sam" (Py.lower (row_api_params row))
      && FetchSeed.opt_truthy (SAM_API_KEY cfg)).

(** ** [load_manifest]

    The manifest file is given by its lines ([None] when it cannot be
    opened); [csv.DictReader], which the script does not define, is the
    parameter [DictReader]. *)

Section Manifest.
Context (DictReader : list string -> list FetchSeed.Row).

(** The lambda of the [filter]:
    [r.strip() and not r.strip().startswith("#")] *)
Definition manifest_line (r : string) : bool :=
  Py.truthy (Py.strip_ws r) && negb (Py.startswith "#" (Py.strip_ws r)).

Definition load_manifest (fh : option (list string)) : M (list FetchSeed.Row) :=
  match fh with
  | Some lines => ret (DictReader (List.filter manifest_line lines))
  | None => raise (OSError "No such file or directory")
  end.

End Manifest.

(** ** Vocabulary of the properties of the helpers *)

(** Every character of [s] satisfies [p]. *)
Fixpoint all_chars (p : ascii -> bool) (s : string) : bool :=
  match s with
  | EmptyString => true
  | String c r => p c && all_chars p r
  end.

(** The characters a directory name made by [build_output_paths] may
    hold: those [str.isalnum] accepts, [-] and [_] *)
Definition safe_char (c : ascii) : bool := Py.isalnum c || Py.mem_char c "-_".

(** A line that is blank, or whose first non-blank character is [#] *)
Definition blank_or_comment (r : string) : bool :=
  match Py.lstrip_ws r with
  | EmptyString => true
  | String c _ => Ascii.eqb c "#"
  end.

(** The text [k1=v1&k2=v2&...] of the manifest column
    [api_endpoint_or_params] *)
Fixpoint encode_params (l : Params) : string :=
  match l with
  | [] => EmptyString
  | (k, v) :: r =>
      match r with
      | [] => k +:+ "=" +:+ v
      | _ :: _ => k +:+ "=" +:+ v +:+ "&" +:+ encode_params r
      end
  end.

(** A string that [strip()] leaves as it is: no white space at either end *)
Definition trimmed (s : string) : bool :=
  match s with
  | EmptyString => true
  | String c _ => negb (Py.isspace c)
  end
  && match Py.rev_string s with
     | EmptyString => true
     | String c _ => negb (Py.isspace c)
     end.

(** A key and a value that the text form can carry: the key holds neither
    [&] nor [=], the value no [&], and neither has white space at its ends. *)
Definition plain_pair (kv : string * string) : bool :=
  all_chars (fun c => negb (Ascii.eqb c "&") && negb (Ascii.eqb c "=")) (fst kv)
  && all_chars (fun c => negb (Ascii.eqb c "&")) (snd kv)
  && trimmed (fst kv) && trimmed (snd kv).

(** The pause [wait_for_domain] makes, if it makes one: what is left of
    the delay since the stamp of the domain, plus the random extra. *)
Definition wait_pause (cfg : Config) (env : Env) (domain : option string) (w : World)
    : option Z :=
  match domain_last_request w !! domain with
  | Some last =>
      if (last =? 0) || (FetchSeed.effective_delay cfg w domain <=? clock w - last) then None
      else Some (FetchSeed.effective_delay cfg w domain - (clock w - last)
                 + random_uniform_0_1 env w)
  | None => None
  end.

(** ** Vocabulary of the properties of whole runs *)

Definition is_sleep_event (e : Event) : bool :=
  match e with EvSleep _ => true | _ => false end.

Definition is_adls_event (e : Event) : bool :=
  match e with EvAdls _ _ => true | _ => false end.

Definition is_local_event (e : Event) : bool :=
  match e with EvLocal _ _ => true | _ => false end.

(** What a dry run may still do: retrieve robots.txt and call the stores,
    but not with content bytes. *)
Definition dry_run_event (e : Event) : bool :=
  match e with
  | EvRobots _ _ _ => true
  | EvAdls _ _ | EvLocal _ _ => negb (is_content_write e)
  | _ => false
  end.

(** [requests.Response.__bool__] is [Response.ok]: false for the statuses
    400 to 599. *)
Definition error_status (r : Response) : bool :=
  (400 <=? status_code r) && (status_code r <? 600).

Definition bool_is_ok (lib : Lib) : Prop :=
  forall r, error_status r = true -> response_bool lib r = false.

(** What the RSS script may emit: the SDK calls, the feed retrieval,
    requests without query parameters and the fixed pause of 0.2 s. *)
Definition rss_event (e : Event) : Prop :=
  match e with
  | EvAdls _ _ | EvFeed _ _ => True
  | EvGet _ params _ _ => params = []
  | EvSleep ms => ms = 200
  | EvRobots _ _ _ | EvLocal _ _ => False
  end.

(** The query parameters of the requests, in order *)
Definition get_params (l : list Event) : list Params :=
  flat_map (fun e => match e with EvGet _ ps _ _ => [ps] | _ => [] end) l.

(** The page numbers [page], [page + 1], ... *)
Fixpoint pages_from (page : Z) (n : nat) : list Z :=
  match n with
  | O => []
  | S k => page :: pages_from (page + 1) k
  end.

(** Every flush of the sequence comes right after a successful append, at
    offset 0 of the same file, of data [a] with [rel a position]. *)
Definition flush_after_append (rel : Payload -> nat -> Prop) (l : list Event) : Prop :=
  forall pre fs dir file position ok post,
    l = pre ++ EvAdls (FlushData fs dir file position) ok :: post ->
    exists pre' a,
      pre = pre' ++ [EvAdls (AppendData fs dir file a 0) true] /\ rel a position.

(** The flush commits the bytes appended. *)
Definition whole_length (lib : Lib) (a : Payload) (position : nat) : Prop :=
  position = payload_len lib a.

(** The flush commits as many bytes as the compact dump of the JSON value
    whose indented dump was appended. *)
Definition compact_length (lib : Lib) (a : Payload) (position : nat) : Prop :=
  exists j, a = JsonText true j /\ position = String.length (json_dumps lib false j).

(** Every request of the sequence goes to the awards endpoint and names
    the recipient [rid] at level [rlevel]; every storage call is inside
    the directory [dir]. *)
Definition recipient_event (rid rlevel dir : string) (e : Event) : Prop :=
  match e with
  | EvGet u ps _ _ =>
      u = UsaspendingFetch.base
      /\ Py.dict_get "recipient_id" ps = Some rid
      /\ Py.dict_get "recipient_level" ps = Some rlevel
  | EvAdls (CreateDirectory _ d) _ | EvAdls (CreateFile _ d _) _
  | EvAdls (AppendData _ d _ _ _) _ | EvAdls (FlushData _ d _ _) _ => d = dir
  | _ => True
  end.

(** ** Further scenarios *)

Module Cases.
Import Demo.

(** A URL without host *)
Definition relative_url : string := "/files/report.pdf".

(** Every request is answered with status 429 and a [Retry-After]
    header. *)
Definition too_many_requests : Response :=
  mkResponse 429 [("Retry-After", "5")] (Some "slow down") "slow down" None.

Definition throttled_env : Env := with_http (fun _ _ _ => inr too_many_requests) calm_env.

(** An award API that never runs out of results *)
Definition endless_env : Env := with_http (fun _ _ _ => inr PagedApi.award_page) calm_env.

(** An API that answers with a JSON list *)
Definition list_page : Response :=
  mkResponse 200 [] (Some "[...]") "[...]" (Some (JArr [JStr "award-1"])).

Definition list_env : Env := with_http (fun _ _ _ => inr list_page) calm_env.

(** The remote store cannot be reached. *)
Definition offline_env : Env := with_adls (fun _ _ => false) calm_env.

(** Feed entries with and without a link *)
Definition linked_entry : NewsFetch.Entry :=
  [("title", "First item"); ("link", "https://news.example/1")].

Definition linkless_entry : NewsFetch.Entry := [("title", "No link")].

End Cases.

(** ** Reasoning about emitted events *)

#[export] Instance Closed_Forall (Q : Event -> Prop) : Closed (Forall Q).
Proof. split; [constructor | intros; apply Forall_app; auto]. Qed.

Lemma emitted_spec {A} (m : M A) (w : World) (new : list Event) :
  trace (exec m w) = rev new ++ trace w -> emitted m w = new.
Proof.
  intros H. unfold emitted. rewrite H, length_app.
  replace (List.length (rev new) + List.length (trace w) - List.length (trace w))%nat
    with (List.length (rev new)) by lia.
  rewrite firstn_app, Nat.sub_diag, firstn_all. simpl.
  rewrite app_nil_r. apply rev_involutive.
Qed.

Lemma emits_emitted {A} (P : list Event -> Prop) (m : M A) (w : World) :
  emits P m -> trace (exec m w) = rev (emitted m w) ++ trace w /\ P (emitted m w).
Proof.
  intros H. destruct (H w) as (new & Ht & HP).
  rewrite (emitted_spec m w new Ht). auto.
Qed.

Lemma emits_weaken {A} (P Q : list Event -> Prop) (m : M A) :
  (forall l, P l -> Q l) -> emits P m -> emits Q m.
Proof. intros HPQ H w. destruct (H w) as (new & Ht & HP). eauto. Qed.

Section Emits.
Context (P : list Event -> Prop) `{!Closed P}.

Lemma emits_ret {A} (a : A) : emits P (ret a).
Proof. intros w. exists []. split; [reflexivity | apply closed_nil]. Qed.

Lemma emits_raise {A} (e : Exn) : emits P (@raise A e).
Proof. intros w. exists []. split; [reflexivity | apply closed_nil]. Qed.

Lemma emits_log (l : Level) (msg : string) : emits P (log l msg).
Proof. intros w. exists []. split; [reflexivity | apply closed_nil]. Qed.

Lemma emits_utcnow : emits P utcnow.
Proof. intros w. exists []. split; [reflexivity | apply closed_nil]. Qed.

Lemma emits_bind {A B} (m : M A) (k : A -> M B) :
  emits P m -> (forall a, emits P (k a)) -> emits P (bind m k).
Proof.
  intros Hm Hk w. destruct (Hm w) as (n1 & Ht1 & HP1).
  unfold exec, bind in *. destruct (m w) as [[a|e] w1]; simpl in *.
  - destruct (Hk a w1) as (n2 & Ht2 & HP2). exists (n1 ++ n2).
    split; [| apply closed_app; auto].
    unfold exec in Ht2. rewrite Ht2, Ht1, rev_app_distr, app_assoc. reflexivity.
  - exists n1. auto.
Qed.

Lemma emits_try_except {A} (m : M A) (h : Exn -> M A) :
  emits P m -> (forall e, emits P (h e)) -> emits P (try_except m h).
Proof.
  intros Hm Hh w. destruct (Hm w) as (n1 & Ht1 & HP1).
  unfold exec, try_except in *. destruct (m w) as [[a|e] w1]; simpl in *.
  - exists n1. auto.
  - destruct (Hh e w1) as (n2 & Ht2 & HP2). exists (n1 ++ n2).
    split; [| apply closed_app; auto].
    unfold exec in Ht2. rewrite Ht2, Ht1, rev_app_distr, app_assoc. reflexivity.
Qed.

Lemma emits_try_except_class {A} (c : Exn -> bool) (m : M A) (h : Exn -> M A) :
  emits P m -> (forall e, emits P (h e)) -> emits P (try_except_class c m h).
Proof.
  intros Hm Hh w. destruct (Hm w) as (n1 & Ht1 & HP1).
  unfold exec, try_except_class in *. destruct (m w) as [[a|e] w1]; simpl in *.
  - exists n1. auto.
  - destruct (c e); [| exists n1; auto].
    destruct (Hh e w1) as (n2 & Ht2 & HP2). exists (n1 ++ n2).
    split; [| apply closed_app; auto].
    unfold exec in Ht2. rewrite Ht2, Ht1, rev_app_distr, app_assoc. reflexivity.
Qed.

Lemma emits_for_each {A} (body : A -> M unit) (l : list A) :
  (forall x, emits P (body x)) -> emits P (for_each body l).
Proof.
  intros Hb. induction l as [|x r IH]; simpl.
  - apply emits_ret.
  - apply emits_bind; auto.
Qed.

Context (env : Env).

Lemma emits_robots_io (u : string) :
  (forall s ok, P [EvRobots u s ok]) -> emits P (robots_io env u).
Proof.
  intros H w. unfold exec, robots_io.
  destruct (robots_read env (call_index w) u); simpl; eexists [_]; split; try reflexivity; apply H.
Qed.

Lemma emits_session_get (u : string) (ps : Params) :
  (forall s ok, P [EvGet u ps s ok]) -> emits P (session_get env u ps).
Proof.
  intros H w. unfold exec, session_get.
  destruct (http_get env (call_index w) u ps); simpl; eexists [_]; split; try reflexivity; apply H.
Qed.

Lemma emits_feedparser_parse (u : string) :
  (forall s, P [EvFeed u s]) -> emits P (feedparser_parse env u).
Proof. intros H w. eexists [_]. split; [reflexivity | apply H]. Qed.

Lemma emits_time_sleep (d : Z) : P [EvSleep d] -> emits P (time_sleep env d).
Proof.
  intros H w. unfold exec, time_sleep. destruct (sleep_error env (call_index w) d); simpl.
  - exists []. split; [reflexivity | apply closed_nil].
  - eexists [_]. split; [reflexivity | apply H].
Qed.

Lemma emits_adls_call (c : SdkCall) : (forall ok, P [EvAdls c ok]) -> emits P (adls_call env c).
Proof. intros H w. eexists [_]. split; [reflexivity | apply H]. Qed.

Lemma emits_local_call (op : LocalOp) : (forall ok, P [EvLocal op ok]) -> emits P (local_call env op).
Proof. intros H w. eexists [_]. split; [reflexivity | apply H]. Qed.

End Emits.

(** ** The rate limiter and the robots lookup, step by step *)

Section RateLimiter.
Context (lib : Lib) (cfg : Config) (env : Env).

#[local] Abbreviation get_domain := (FetchSeed.get_domain lib).
#[local] Abbreviation effective_delay := (FetchSeed.effective_delay cfg).
#[local] Abbreviation wait_for_domain := (FetchSeed.wait_for_domain cfg env).
#[local] Abbreviation record_domain_request := (FetchSeed.record_domain_request lib cfg).
#[local] Abbreviation get_robots_parser_for_domain := (FetchSeed.get_robots_parser_for_domain env).
#[local] Abbreviation polite_fetch := (FetchSeed.polite_fetch lib cfg env).

#[local] Abbreviation robots_url := FetchSeed.robots_txt_url.
(** What one robots lookup does to the world. *)
Lemma lookup_run (domain : option string) (w : World) :
  exists w1,
    get_robots_parser_for_domain domain w
      = (Ok (robots_read env (call_index w) (robots_url domain)), w1)
    /\ clock w <= clock w1
    /\ domain_last_request w1 = domain_last_request w
    /\ domain_crawl_delay w1 = domain_crawl_delay w
    /\ trace w1 = EvRobots (robots_url domain) (clock w)
                    (bool_decide (is_Some (robots_read env (call_index w) (robots_url domain))))
                  :: trace w.
Proof.
  unfold FetchSeed.get_robots_parser_for_domain, try_except, bind, robots_io.
  destruct (robots_read env (call_index w) (robots_url domain)) as [rp|];
    simpl; eexists; (split; [reflexivity|]); simpl; repeat split; lia.
Qed.

Lemma random_uniform_bounds (w : World) : 0 <= random_uniform_0_1 env w <= 1000.
Proof. unfold random_uniform_0_1. lia. Qed.

(** [time.sleep] takes every pause that is not negative and is within
    the bound. *)
Lemma sleep_error_none (i : nat) (d : Z) :
  0 <= d -> d <= sleep_bound env i -> sleep_error env i d = None.
Proof.
  unfold sleep_error, sleep_bound. intros H0 Hb.
  destruct (Z.ltb_spec d 0); [lia|].
  destruct (Z.ltb_spec SLEEP_MAX d); [lia|].
  destruct (Z.ltb_spec (sleep_limit env i) d); [lia | reflexivity].
Qed.

Lemma sleep_error_some (i : nat) (d : Z) (e : Exn) :
  sleep_error env i d = Some e -> d < 0 \/ sleep_bound env i < d.
Proof.
  unfold sleep_error, sleep_bound.
  destruct (Z.ltb_spec d 0); [lia|].
  destruct (Z.ltb_spec SLEEP_MAX d); [lia|].
  destruct (Z.ltb_spec (sleep_limit env i) d); [lia | discriminate].
Qed.

(** The wait is the pause of [wait_pause], if there is one. *)
Lemma wait_for_domain_spec (domain : option string) (w : World) :
  wait_for_domain domain w
  = match wait_pause cfg env domain w with
    | Some ms =>
        time_sleep env ms (push_log DEBUG "Sleeping %.2fs to respect crawl-delay for %s" w)
    | None => (Ok tt, w)
    end
  /\ match wait_pause cfg env domain w with
     | Some ms => 0 < ms
     | None => True
     end.
Proof.
  unfold FetchSeed.wait_for_domain, wait_pause.
  destruct (domain_last_request w !! domain) as [last|]; [|now split].
  destruct (Z.eqb_spec last 0) as [->|Hnz]; [now split|]. cbn [orb]. cbv zeta.
  rewrite Z.ltb_antisym.
  destruct (Z.leb_spec (effective_delay w domain) (clock w - last)) as [Hle|Hlt]; [now split|].
  cbn [negb]. pose proof (random_uniform_bounds w) as Hr.
  split; [reflexivity | lia].
Qed.

(** What the politeness wait does to the world: it returns, after the
    pause if one is due, or [time.sleep] refuses the pause and nothing
    has happened. *)
Lemma wait_cases (domain : option string) (w : World) :
  exists res w2,
    wait_for_domain domain w = (res, w2)
    /\ clock w <= clock w2
    /\ domain_last_request w2 = domain_last_request w
    /\ domain_crawl_delay w2 = domain_crawl_delay w
    /\ ((res = Ok tt
         /\ (trace w2 = trace w \/ exists ms, 0 <= ms /\ trace w2 = EvSleep ms :: trace w)
         /\ (forall t, domain_last_request w !! domain = Some t -> t <> 0 ->
               t + effective_delay w domain <= clock w2))
        \/ (exists e, res = Raise e /\ trace w2 = trace w /\ clock w2 = clock w)).
Proof.
  destruct (wait_for_domain_spec domain w) as (Hrun & Hpos). rewrite Hrun. clear Hrun.
  unfold wait_pause in *.
  destruct (domain_last_request w !! domain) as [last|] eqn:Hlast.
  2:{ exists (Ok tt), w. repeat split; auto; try lia. left. repeat split; auto. discriminate. }
  destruct (Z.eqb_spec last 0) as [->|Hnz].
  { exists (Ok tt), w. repeat split; auto; try lia. left. repeat split; auto.
    intros t [= <-] Ht. congruence. }
  cbn [orb] in *.
  destruct (Z.leb_spec (effective_delay w domain) (clock w - last)) as [Hle|Hlt].
  { exists (Ok tt), w. repeat split; auto; try lia. left. repeat split; auto.
    intros t [= <-] _. lia. }
  pose proof (random_uniform_bounds w) as Hj.
  unfold time_sleep.
  destruct (sleep_error env _ _) as [e|].
  - eexists _, _. split; [reflexivity|]. simpl. repeat split; try lia.
    right. exists e. auto.
  - eexists _, _. split; [reflexivity|]. simpl. repeat split; try lia.
    left. split; [reflexivity|]. split.
    + right. eexists. split; [|reflexivity]. lia.
    + intros t [= <-] _. lia.
Qed.

Lemma wait_run_ok (domain : option string) (w w2 : World) :
  wait_for_domain domain w = (Ok tt, w2) ->
  clock w <= clock w2
  /\ domain_last_request w2 = domain_last_request w
  /\ domain_crawl_delay w2 = domain_crawl_delay w
  /\ (trace w2 = trace w \/ exists ms, 0 <= ms /\ trace w2 = EvSleep ms :: trace w)
  /\ (forall t, domain_last_request w !! domain = Some t -> t <> 0 ->
        t + effective_delay w domain <= clock w2).
Proof.
  intros Hw.
  destruct (wait_cases domain w)
    as (res & w2' & Hw' & Hc & Hl & Hd & [(-> & Ht & Hgap) | (e & -> & _)]);
    rewrite Hw in Hw'; [|discriminate].
  injection Hw' as <-. auto.
Qed.

(** A wait that is in range returns. *)
Lemma wait_total (domain : option string) (w : World) :
  wait_in_range cfg env w domain -> exists w2, wait_for_domain domain w = (Ok tt, w2).
Proof.
  intros (Hsl & Hpast).
  destruct (wait_for_domain_spec domain w) as (Hrun & Hpos). rewrite Hrun. clear Hrun.
  unfold wait_pause in *.
  destruct (domain_last_request w !! domain) as [last|] eqn:Hlast; [|eauto].
  destruct ((last =? 0) || (effective_delay w domain <=? clock w - last)); [eauto|].
  unfold time_sleep. rewrite sleep_error_none; [eauto | lia |].
  specialize (Hpast last eq_refl). pose proof (random_uniform_bounds w) as Hj.
  specialize (Hsl (call_index (push_log DEBUG "Sleeping %.2fs to respect crawl-delay for %s" w))).
  lia.
Qed.

Lemma wait_in_range_later (domain : option string) (w w1 : World) :
  wait_in_range cfg env w domain ->
  clock w <= clock w1 ->
  domain_last_request w1 = domain_last_request w ->
  domain_crawl_delay w1 = domain_crawl_delay w ->
  wait_in_range cfg env w1 domain.
Proof.
  intros (Hsl & Hpast) Hc Hl Hd. split.
  - unfold FetchSeed.effective_delay in *. rewrite Hd. exact Hsl.
  - intros t. rewrite Hl. intros Ht. specialize (Hpast t Ht). lia.
Qed.

(** Recording stamps the domain with the current clock and never fails. *)
Lemma record_run (domain : option string) (rp : option RobotsParser) (w : World) :
  exists w3,
    record_domain_request domain rp w = (Ok tt, w3)
    /\ clock w3 = clock w
    /\ trace w3 = trace w
    /\ domain_last_request w3 = <[domain := clock w]> (domain_last_request w)
    /\ (forall d, d <> domain -> domain_crawl_delay w3 !! d = domain_crawl_delay w !! d)
    /\ (rp = None -> domain_crawl_delay w3 = domain_crawl_delay w)
    /\ domain_crawl_delay w3 !! domain
       = match declared_ms lib cfg rp with
         | Some ms => Some ms
         | None => domain_crawl_delay w !! domain
         end.
Proof.
  unfold FetchSeed.record_domain_request, declared_ms. eexists. split; [reflexivity|].
  destruct rp as [rp|]; [destruct (FetchSeed.declared_crawl_delay cfg rp) as [cd|];
    [destruct (py_float lib cd)|]|]; simpl; repeat split; auto;
    try (intros d Hd; rewrite lookup_insert_ne; auto);
    try (rewrite lookup_insert_eq; reflexivity); discriminate.
Qed.

#[local] Abbreviation polite_lookup := (polite_lookup lib env).
#[local] Abbreviation polite_lookup_events := (polite_lookup_events lib env).
#[local] Abbreviation disallowed := (disallowed cfg).

(** One call of [polite_fetch], from lookup to result. *)
Lemma polite_fetch_run (url : string) (params : Params) (w : World) :
  let d := get_domain url in
  let rp := polite_lookup url w in
  exists w1,
    clock w <= clock w1
    /\ domain_last_request w1 = domain_last_request w
    /\ domain_crawl_delay w1 = domain_crawl_delay w
    /\ trace w1 = polite_lookup_events url w ++ trace w
    /\ ((disallowed rp url = true
         /\ exists w', polite_fetch url params w = (Ok (FetchSeed.SkippedByRobots url), w')
              /\ clock w' = clock w1 /\ trace w' = trace w1
              /\ domain_last_request w' = domain_last_request w
              /\ domain_crawl_delay w' = domain_crawl_delay w)
        \/
        (disallowed rp url = false
         /\ exists w2 w3 ok,
              wait_for_domain d w1 = (Ok tt, w2)
              /\ trace w3 = EvGet url params (clock w2) ok :: trace w2
              /\ clock w2 <= clock w3
              /\ ((exists r, ok = true
                     /\ polite_fetch url params w = (Ok (FetchSeed.Fetched r), w3)
                     /\ domain_last_request w3 = <[d := clock w3]> (domain_last_request w)
                     /\ (forall d', d' <> d ->
                           domain_crawl_delay w3 !! d' = domain_crawl_delay w !! d')
                     /\ (rp = None -> domain_crawl_delay w3 = domain_crawl_delay w)
                     /\ domain_crawl_delay w3 !! d
                        = match declared_ms lib cfg rp with
                          | Some ms => Some ms
                          | None => domain_crawl_delay w !! d
                          end)
                  \/
                  (exists e, ok = false
                     /\ http_get env (call_index w2) url params = inl e
                     /\ polite_fetch url params w =
                          (if is_request_exception e
                           then Ok (FetchSeed.FetchError (exn_str e) url) else Raise e, w3)
                     /\ domain_last_request w3 = domain_last_request w
                     /\ domain_crawl_delay w3 = domain_crawl_delay w)))
        \/
        (disallowed rp url = false
         /\ exists e w2,
              wait_for_domain d w1 = (Raise e, w2)
              /\ polite_fetch url params w = (Raise e, w2)
              /\ clock w2 = clock w1 /\ trace w2 = trace w1
              /\ domain_last_request w2 = domain_last_request w
              /\ domain_crawl_delay w2 = domain_crawl_delay w)).
Proof.
  intros d rp.
  assert (Hlk : exists w1,
    (if FetchSeed.opt_truthy d then get_robots_parser_for_domain d else ret None) w = (Ok rp, w1)
    /\ clock w <= clock w1
    /\ domain_last_request w1 = domain_last_request w
    /\ domain_crawl_delay w1 = domain_crawl_delay w
    /\ trace w1 = polite_lookup_events url w ++ trace w).
  { subst rp. unfold polite_lookup, polite_lookup_events. fold d.
    destruct (FetchSeed.opt_truthy d).
    - destruct (lookup_run d w) as (w1 & Hr & Hc & Hl & Hd & Ht). exists w1. auto.
    - exists w. repeat split; auto; lia. }
  destruct Hlk as (w1 & Hr & Hc & Hl & Hd & Ht). clearbody rp.
  exists w1. do 4 (split; [assumption|]).
  remember (polite_fetch url params w) as pf eqn:Hpf.
  unfold FetchSeed.polite_fetch in Hpf. fold d in Hpf. cbv zeta in Hpf.
  unfold bind at 1 in Hpf. rewrite Hr in Hpf.
  destruct (disallowed rp url) eqn:Hdis.
  - left. split; [reflexivity|].
    destruct rp as [p|]; [|discriminate]. simpl in Hdis. rewrite Hdis in Hpf.
    eexists. split; [rewrite Hpf; reflexivity|]. simpl. auto.
  - right.
    assert (Hgo : forall X Y : M FetchSeed.FetchInfo,
      match rp with
      | Some p => if negb (can_fetch p (USER_AGENT cfg) url) then X else Y
      | None => Y
      end = Y).
    { intros X Y. destruct rp as [p|]; [|reflexivity]. simpl in Hdis. rewrite Hdis. reflexivity. }
    rewrite Hgo in Hpf. clear Hgo.
    destruct (wait_cases d w1)
      as (res & w2 & Hw & Hc2 & Hl2 & Hd2 & [(-> & Ht2 & Hgap) | (e & -> & Ht2 & Hc2')]).
    2:{ right. split; [reflexivity|]. exists e, w2.
        unfold bind at 1 in Hpf. rewrite Hw in Hpf.
        split; [exact Hw|]. split; [exact Hpf|]. repeat split; congruence. }
    left. split; [reflexivity|].
    unfold bind at 1 in Hpf. rewrite Hw in Hpf.
    unfold try_except_class, bind, log, session_get in Hpf.
    change (call_index (push_log INFO "Fetching %s" w2)) with (call_index w2) in Hpf.
    destruct (http_get env (call_index w2) url params) as [e|r] eqn:Hget.
    + simpl in Hpf.
      destruct (is_request_exception e) eqn:Hcls; unfold ret in Hpf;
        match type of Hpf with _ = (_, ?W) => exists w2, W, false end;
        (split; [exact Hw|]); (split; [reflexivity|]); (split; [simpl; lia|]);
        right; exists e; rewrite Hcls;
        (split; [reflexivity|]); (split; [exact Hget|]); (split; [exact Hpf|]);
        simpl; split; congruence.
    + destruct (record_run d rp
                  (after_call env (EvGet url params (clock w2) true) (push_log INFO "Fetching %s" w2)))
        as (w3 & Hrec & Hc3 & Ht3 & Hl3 & Hd3 & Hd3' & Hd3'').
      cbv beta iota in Hpf.
      change (clock (push_log INFO "Fetching %s" w2)) with (clock w2) in Hpf.
      rewrite Hrec in Hpf. cbv beta iota in Hpf. unfold ret in Hpf.
      exists w2, w3, true. split; [exact Hw|].
      split; [rewrite Ht3; reflexivity|].
      split; [rewrite Hc3; simpl; lia|].
      left. exists r. split; [reflexivity|].
      split; [assumption|].
      split; [rewrite Hl3, Hc3; simpl; congruence|].
      split; [intros d' Hd'; rewrite Hd3 by assumption; simpl; congruence|].
      split; [intros Hn; rewrite Hd3' by assumption; simpl; congruence|].
      rewrite Hd3''. simpl. rewrite Hd2, Hd. reflexivity.
Qed.

(** One call of [polite_fetch] whose wait is in range: the pause is
    never refused. *)
Lemma polite_fetch_run_in_range (url : string) (params : Params) (w : World) :
  let d := get_domain url in
  let rp := polite_lookup url w in
  wait_in_range cfg env w d ->
  exists w1,
    clock w <= clock w1
    /\ domain_last_request w1 = domain_last_request w
    /\ domain_crawl_delay w1 = domain_crawl_delay w
    /\ trace w1 = polite_lookup_events url w ++ trace w
    /\ ((disallowed rp url = true
         /\ exists w', polite_fetch url params w = (Ok (FetchSeed.SkippedByRobots url), w')
              /\ clock w' = clock w1 /\ trace w' = trace w1
              /\ domain_last_request w' = domain_last_request w
              /\ domain_crawl_delay w' = domain_crawl_delay w)
        \/
        (disallowed rp url = false
         /\ exists w2 w3 ok,
              wait_for_domain d w1 = (Ok tt, w2)
              /\ trace w3 = EvGet url params (clock w2) ok :: trace w2
              /\ clock w2 <= clock w3
              /\ ((exists r, ok = true
                     /\ polite_fetch url params w = (Ok (FetchSeed.Fetched r), w3)
                     /\ domain_last_request w3 = <[d := clock w3]> (domain_last_request w)
                     /\ (forall d', d' <> d ->
                           domain_crawl_delay w3 !! d' = domain_crawl_delay w !! d')
                     /\ (rp = None -> domain_crawl_delay w3 = domain_crawl_delay w)
                     /\ domain_crawl_delay w3 !! d
                        = match declared_ms lib cfg rp with
                          | Some ms => Some ms
                          | None => domain_crawl_delay w !! d
                          end)
                  \/
                  (exists e, ok = false
                     /\ http_get env (call_index w2) url params = inl e
                     /\ polite_fetch url params w =
                          (if is_request_exception e
                           then Ok (FetchSeed.FetchError (exn_str e) url) else Raise e, w3)
                     /\ domain_last_request w3 = domain_last_request w
                     /\ domain_crawl_delay w3 = domain_crawl_delay w)))).
Proof.
  intros d rp Hrange.
  destruct (polite_fetch_run url params w)
    as (w1 & Hc & Hl & Hd & Ht & [Hskip | [Hgo | (_ & e & w2 & Hwait & _)]]);
    exists w1; do 4 (split; [assumption|]); [left; exact Hskip | right; exact Hgo |].
  exfalso.
  destruct (wait_total d w1 (wait_in_range_later d w w1 Hrange Hc Hl Hd)) as (w2' & Hok).
  fold d in Hwait. rewrite Hok in Hwait. discriminate.
Qed.

End RateLimiter.

Section Spacing.
Context (lib : Lib) (cfg : Config) (env : Env).

#[local] Abbreviation get_domain := (FetchSeed.get_domain lib).
#[local] Abbreviation effective_delay := (FetchSeed.effective_delay cfg).
#[local] Abbreviation polite_fetch := (FetchSeed.polite_fetch lib cfg env).

Lemma effective_delay_ext (w w' : World) (d : option string) :
  domain_crawl_delay w' = domain_crawl_delay w -> effective_delay w' d = effective_delay w d.
Proof. unfold FetchSeed.effective_delay. intros ->. reflexivity. Qed.

Lemma In_lookup_events_get (url u : string) (p : Params) (s : Z) (ok : bool) (w : World) :
  ~ In (EvGet u p s ok) (polite_lookup_events lib env url w).
Proof.
  unfold polite_lookup_events. destruct (FetchSeed.opt_truthy _); simpl; [|tauto].
  intros [H|[]]. discriminate.
Qed.

(** The events of one call: the lookup, at most one sleep, at most one GET. *)
Lemma polite_fetch_trace (url : string) (params : Params) (w : World) :
  let w' := exec (polite_fetch url params) w in
  exists new,
    trace w' = rev new ++ trace w
    /\ clock w <= clock w'
    /\ (forall u p s ok, In (EvGet u p s ok) new ->
          u = url /\ p = params /\ clock w <= s <= clock w'
          /\ (forall t, domain_last_request w !! get_domain url = Some t -> t <> 0 ->
                t + effective_delay w (get_domain url) <= s)
          /\ (ok = true ->
                domain_last_request w' !! get_domain url = Some (clock w') /\ s <= clock w'))
    /\ (forall d t, domain_last_request w' !! d = Some t ->
          domain_last_request w !! d = Some t \/ (d = get_domain url /\ t = clock w')).
Proof.
  intros w'. subst w'. unfold exec.
  destruct (polite_fetch_run lib cfg env url params w)
    as (w1 & Hc & Hl & Hd & Ht & [(Hdis & w' & Hpf & Hc' & Ht' & Hl' & Hd') |
         [(Hdis & w2 & w3 & ok & Hw & Ht3 & Hc3 & Hcase) |
          (Hdis & e & w' & Hw & Hpf & Hc' & Ht' & Hl' & Hd')]]).
  - rewrite Hpf. simpl. exists (rev (polite_lookup_events lib env url w)).
    rewrite rev_involutive, Ht', Ht. split; [reflexivity|]. split; [lia|]. split.
    + intros u p s ok Hin. apply in_rev in Hin. exfalso. eapply In_lookup_events_get; eauto.
    + intros d t. rewrite Hl'. auto.
  - destruct (wait_run_ok cfg env (get_domain url) w1 w2 Hw) as (Hc2 & Hl2 & Hd2 & Ht2 & Hgap).
    assert (Hpf : exists res, polite_fetch url params w = (res, w3)
              /\ (ok = true -> domain_last_request w3
                               = <[get_domain url := clock w3]> (domain_last_request w))
              /\ (ok = false -> domain_last_request w3 = domain_last_request w)).
    { destruct Hcase as [(r & -> & Hpf & Hl3 & _) | (e & -> & _ & Hpf & Hl3 & _)];
        eexists; (split; [exact Hpf|]); split; intros; congruence. }
    destruct Hpf as (res & Hpf & Hok & Hko). rewrite Hpf. simpl.
    assert (Hnew : exists mid, trace w3 = EvGet url params (clock w2) ok :: mid ++ trace w
              /\ forall u p s o, ~ In (EvGet u p s o) mid).
    { destruct Ht2 as [Ht2 | (ms & _ & Ht2)].
      - exists (polite_lookup_events lib env url w). rewrite Ht3, Ht2, Ht. split; [reflexivity|].
        intros u p s o. apply In_lookup_events_get.
      - exists (EvSleep ms :: polite_lookup_events lib env url w). rewrite Ht3, Ht2, Ht.
        split; [reflexivity|]. intros u p s o [H|H]; [discriminate|].
        eapply In_lookup_events_get; eauto. }
    destruct Hnew as (mid & Hnew & Hmid).
    exists (rev (EvGet url params (clock w2) ok :: mid)).
    rewrite rev_involutive. split; [rewrite Hnew; reflexivity|]. split; [lia|]. split.
    + intros u p s o Hin. apply in_rev in Hin. destruct Hin as [Hin|Hin].
      2:{ exfalso. eapply Hmid; eauto. }
      injection Hin as <- <- <- <-.
      split; [reflexivity|]. split; [reflexivity|]. split; [lia|]. split.
      * intros t Hlt Hnz. rewrite <- (effective_delay_ext w w1) by assumption.
        apply Hgap; [congruence | assumption].
      * intros ->. rewrite Hok by reflexivity. rewrite lookup_insert_eq. split; [reflexivity | lia].
    + intros d t Hlk. destruct ok.
      * rewrite Hok in Hlk by reflexivity.
        destruct (decide (get_domain url = d)) as [<-|Hne].
        -- rewrite lookup_insert_eq in Hlk. injection Hlk as <-. auto.
        -- rewrite lookup_insert_ne in Hlk by assumption. auto.
      * rewrite Hko in Hlk by reflexivity. auto.
  - rewrite Hpf. simpl. exists (rev (polite_lookup_events lib env url w)).
    rewrite rev_involutive, Ht', Ht. split; [reflexivity|]. split; [lia|]. split.
    + intros u p s ok Hin. apply in_rev in Hin. exfalso. eapply In_lookup_events_get; eauto.
    + intros d t. rewrite Hl'. auto.
Qed.

Lemma rev_lookup_events (url : string) (w : World) :
  rev (polite_lookup_events lib env url w) = polite_lookup_events lib env url w.
Proof. unfold polite_lookup_events. destruct (FetchSeed.opt_truthy _); reflexivity. Qed.

(** The events of one call, oldest first: the lookup, a sleep if the
    wait needs one, and the request unless robots.txt disallows it or
    the pause is refused. *)
Lemma polite_fetch_emitted (url : string) (params : Params) (w : World) :
  (disallowed cfg (polite_lookup lib env url w) url = true
   /\ emitted (polite_fetch url params) w = polite_lookup_events lib env url w)
  \/ (disallowed cfg (polite_lookup lib env url w) url = false
      /\ exists sleeps s ok,
           (sleeps = [] \/ exists ms, 0 <= ms /\ sleeps = [EvSleep ms])
           /\ emitted (polite_fetch url params) w
              = polite_lookup_events lib env url w ++ sleeps ++ [EvGet url params s ok])
  \/ (disallowed cfg (polite_lookup lib env url w) url = false
      /\ (exists e, result (polite_fetch url params) w = Raise e)
      /\ emitted (polite_fetch url params) w = polite_lookup_events lib env url w).
Proof.
  destruct (polite_fetch_run lib cfg env url params w)
    as (w1 & Hc & Hl & Hd & Ht & [(Hdis & w' & Hpf & Hc' & Ht' & Hl' & Hd') |
         [(Hdis & w2 & w3 & ok & Hw & Ht3 & Hc3 & Hcase) |
          (Hdis & e & w' & Hw & Hpf & Hc' & Ht' & Hl' & Hd')]]).
  3:{ right; right. split; [exact Hdis|]. split.
      - exists e. unfold result. rewrite Hpf. reflexivity.
      - apply emitted_spec. unfold exec. rewrite Hpf, rev_lookup_events. simpl. congruence. }
  - left. split; [exact Hdis|].
    apply emitted_spec. unfold exec. rewrite Hpf, rev_lookup_events. simpl. congruence.
  - right; left. split; [exact Hdis|].
    destruct (wait_run_ok cfg env (get_domain url) w1 w2 Hw) as (_ & _ & _ & Ht2 & _).
    assert (Hpf : exists res, polite_fetch url params w = (res, w3)).
    { destruct Hcase as [(r & _ & Hpf & _) | (e & _ & _ & Hpf & _)]; eauto. }
    destruct Hpf as (res & Hpf).
    destruct Ht2 as [Ht2 | (ms & Hms & Ht2)].
    + exists [], (clock w2), ok. split; [auto|].
      apply emitted_spec. unfold exec. rewrite Hpf. simpl.
      rewrite rev_app_distr. simpl. rewrite rev_lookup_events, Ht3, Ht2, Ht. reflexivity.
    + exists [EvSleep ms], (clock w2), ok. split; [eauto|].
      apply emitted_spec. unfold exec. rewrite Hpf. simpl.
      rewrite rev_app_distr. simpl. rewrite rev_lookup_events, Ht3, Ht2, Ht. reflexivity.
Qed.

(** The events of a call whose wait is in range *)
Lemma polite_fetch_emitted_in_range (url : string) (params : Params) (w : World) :
  wait_in_range cfg env w (get_domain url) ->
  (disallowed cfg (polite_lookup lib env url w) url = true
   /\ emitted (polite_fetch url params) w = polite_lookup_events lib env url w)
  \/ (disallowed cfg (polite_lookup lib env url w) url = false
      /\ exists sleeps s ok,
           (sleeps = [] \/ exists ms, 0 <= ms /\ sleeps = [EvSleep ms])
           /\ emitted (polite_fetch url params) w
              = polite_lookup_events lib env url w ++ sleeps ++ [EvGet url params s ok]).
Proof.
  intros Hrange.
  destruct (polite_fetch_run_in_range lib cfg env url params w Hrange)
    as (w1 & Hc & Hl & Hd & Ht & [(Hdis & w' & Hpf & Hc' & Ht' & Hl' & Hd') |
         (Hdis & w2 & w3 & ok & Hw & Ht3 & Hc3 & Hcase)]).
  - left. split; [exact Hdis|].
    apply emitted_spec. unfold exec. rewrite Hpf, rev_lookup_events. simpl. congruence.
  - right. split; [exact Hdis|].
    destruct (wait_run_ok cfg env (get_domain url) w1 w2 Hw) as (_ & _ & _ & Ht2 & _).
    assert (Hpf : exists res, polite_fetch url params w = (res, w3)).
    { destruct Hcase as [(r & _ & Hpf & _) | (e & _ & _ & Hpf & _)]; eauto. }
    destruct Hpf as (res & Hpf).
    destruct Ht2 as [Ht2 | (ms & Hms & Ht2)].
    + exists [], (clock w2), ok. split; [auto|].
      apply emitted_spec. unfold exec. rewrite Hpf. simpl.
      rewrite rev_app_distr. simpl. rewrite rev_lookup_events, Ht3, Ht2, Ht. reflexivity.
    + exists [EvSleep ms], (clock w2), ok. split; [eauto|].
      apply emitted_spec. unfold exec. rewrite Hpf. simpl.
      rewrite rev_app_distr. simpl. rewrite rev_lookup_events, Ht3, Ht2, Ht. reflexivity.
Qed.

(** In a run of the rate limiter no stamp is of the future. *)
Lemma polite_fetch_stamps_past (url : string) (params : Params) (w : World) :
  (forall d t, domain_last_request w !! d = Some t -> t <= clock w) ->
  forall d t, domain_last_request (exec (polite_fetch url params) w) !! d = Some t ->
              t <= clock (exec (polite_fetch url params) w).
Proof.
  intros Hw d t Ht.
  destruct (polite_fetch_trace url params w) as (new & _ & Hc & _ & Hlast).
  destruct (Hlast d t Ht) as [Hold | [_ ->]]; [|lia].
  specialize (Hw d t Hold). lia.
Qed.

Lemma polite_run_stamps_past (urls : list string) (w : World) :
  (forall d t, domain_last_request w !! d = Some t -> t <= clock w) ->
  forall d t, domain_last_request (exec (polite_run lib cfg env urls) w) !! d = Some t ->
              t <= clock (exec (polite_run lib cfg env urls) w).
Proof.
  revert w. induction urls as [|u r IH]; intros w Hw; [exact Hw|].
  unfold polite_run in *. simpl. unfold exec, bind.
  pose proof (polite_fetch_stamps_past u [] w Hw) as H1. unfold exec in H1.
  destruct (polite_fetch u [] w) as [[a|e] w1]; simpl in *; [|exact H1].
  apply (IH w1 H1).
Qed.

Lemma stamps_ok_initial (t0 : Z) : 0 < t0 -> stamps_ok lib (initial_world t0).
Proof.
  intros H. split; [exact H|]. split.
  - intros d t Hl. simpl in Hl. rewrite lookup_empty in Hl. discriminate.
  - intros u p s [].
Qed.

Lemma polite_fetch_preserves (url : string) (params : Params) (w : World) :
  stamps_ok lib w -> stamps_ok lib (exec (polite_fetch url params) w).
Proof.
  intros (Hpos & Hst & Hev).
  destruct (polite_fetch_trace url params w) as (new & Ht & Hc & Hget & Hlast).
  split; [lia|]. split.
  - intros d t Hl. destruct (Hlast d t Hl) as [Hold | [-> ->]]; [|lia].
    specialize (Hst d t Hold). lia.
  - intros u p s Hin. rewrite Ht in Hin. apply in_app_or in Hin. destruct Hin as [Hin|Hin].
    + apply in_rev in Hin. destruct (Hget u p s true Hin) as (-> & -> & Hs & _ & Hstamp).
      destruct (Hstamp eq_refl) as (Hl & Hle). eauto.
    + destruct (Hev u p s Hin) as (t & Hl & Hle).
      destruct (domain_last_request (exec (polite_fetch url params) w) !! get_domain u)
        as [t'|] eqn:Hl'.
      * exists t'. split; [reflexivity|].
        destruct (Hlast _ _ Hl') as [Hold | [_ ->]].
        -- rewrite Hl in Hold. injection Hold as <-. assumption.
        -- specialize (Hst _ _ Hl). lia.
      * exfalso.
        destruct (polite_fetch_run lib cfg env url params w)
          as (w1 & _ & _ & _ & _ & [(_ & w' & Hpf & _ & _ & Hl1 & _) |
               [(_ & w2 & w3 & ok & _ & _ & _ & [(r & _ & Hpf & Hl1 & _) | (e & _ & _ & Hpf & Hl1 & _)]) |
                (_ & e & w' & _ & Hpf & _ & _ & Hl1 & _)]]);
          unfold exec in Hl'; rewrite Hpf in Hl'; simpl in Hl'; rewrite Hl1 in Hl';
          try congruence.
        destruct (decide (get_domain url = get_domain u)) as [Heq|Hne].
        -- rewrite Heq, lookup_insert_eq in Hl'. discriminate.
        -- rewrite lookup_insert_ne in Hl' by assumption. congruence.
Qed.

Lemma polite_run_preserves (urls : list string) (w : World) :
  stamps_ok lib w -> stamps_ok lib (exec (polite_run lib cfg env urls) w).
Proof.
  revert w. induction urls as [|u r IH]; intros w Hw; [exact Hw|].
  unfold polite_run in *. simpl. unfold exec, bind.
  pose proof (polite_fetch_preserves u [] w Hw) as H1. unfold exec in H1.
  destruct (polite_fetch u [] w) as [[a|e] w1]; simpl in *; [|exact H1].
  apply (IH w1 H1).
Qed.

End Spacing.

Section Pagination.
Context (lib : Lib) (cfg : Config) (env : Env).

#[local] Abbreviation page_loop := (UsaspendingFetch.page_loop lib env).
#[local] Abbreviation page_params := UsaspendingFetch.page_params.

Lemma write_json_ok (fs dir file : string) (data : Json) (w : World) :
  storage_works env ->
  exists w', UsaspendingFetch.write_json_to_adls lib env fs dir file data w = (Ok tt, w')
    /\ clock w <= clock w'
    /\ exists new, trace w' = rev new ++ trace w /\ commits new = 1%nat /\ requests new = 0%nat.
Proof.
  intros Hs. unfold UsaspendingFetch.write_json_to_adls, try_except, bind, adls_call.
  repeat (rewrite Hs; simpl).
  eexists. split; [reflexivity|]. split; [simpl; lia|].
  eexists [_; _; _; _]. simpl. split; [reflexivity|]. split; reflexivity.
Qed.

Lemma commits_app (a b : list Event) : commits (a ++ b) = (commits a + commits b)%nat.
Proof. unfold commits. rewrite List.filter_app, length_app. reflexivity. Qed.

Lemma requests_app (a b : list Event) : requests (a ++ b) = (requests a + requests b)%nat.
Proof. unfold requests. rewrite List.filter_app, length_app. reflexivity. Qed.

(** One turn of the loop on a page with results: the page is written,
    the loop sleeps and goes on with the next page. *)
Lemma page_loop_nonempty (fuel : nat) (fs recipient_id rid rlevel : string)
    (pagesize sleep_s page : Z) (r : Response) (w : World) :
  storage_works env -> 0 <= sleep_s -> pause_accepted env sleep_s ->
  http_get env (call_index w) UsaspendingFetch.base (page_params rid rlevel pagesize page) = inr r ->
  nonempty_page r = true ->
  exists w',
    page_loop (S fuel) fs recipient_id rid rlevel pagesize sleep_s page w
    = page_loop fuel fs recipient_id rid rlevel pagesize sleep_s (page + 1) w'
    /\ exists new, trace w' = rev new ++ trace w
                   /\ commits new = 1%nat /\ requests new = 1%nat.
Proof.
  intros Hs Hsl Hpa Hget Hne.
  unfold nonempty_page, page_results in Hne.
  apply andb_true_iff in Hne. destruct Hne as (Hst & Hres).
  destruct (json_body r) as [[| | | | |fields]|] eqn:Hbody; try discriminate.
  destruct (Py.dict_get "results" fields) as [v|] eqn:Hv; try discriminate.
  apply andb_true_iff in Hres. destruct Hres as (Htruthy & Hlen).
  unfold has_len in Hlen. destruct (json_len v) as [n|] eqn:Hn; try discriminate.
  cbn [UsaspendingFetch.page_loop].
  unfold bind at 1. unfold log at 1. cbv beta iota.
  unfold bind at 1. unfold session_get.
  change (call_index (push_log INFO "GET %s page=%s" w)) with (call_index w).
  rewrite Hget. cbv beta iota. rewrite Hst. cbn [negb].
  unfold bind at 1. rewrite Hbody. unfold ret at 1. cbv beta iota.
  unfold bind at 1. unfold utcnow at 1. cbv beta iota.
  unfold bind at 1.
  match goal with
  | |- context [UsaspendingFetch.write_json_to_adls _ _ ?a ?b ?c ?d ?w0] =>
      destruct (write_json_ok a b c d w0 Hs) as (w1 & Hw & Hc1 & new1 & Ht1 & Hcm1 & Hrq1)
  end.
  rewrite Hw. cbv beta iota.
  unfold bind at 1. unfold UsaspendingFetch.hits at 1.
  unfold bind at 1. unfold UsaspendingFetch.payload_get at 1. rewrite Hv.
  unfold ret at 1. cbv beta iota. rewrite Hn. unfold ret at 1. cbv beta iota.
  unfold bind at 1. unfold log at 1. cbv beta iota.
  unfold bind at 1. unfold UsaspendingFetch.payload_get at 1. rewrite Hv.
  unfold ret at 1. cbv beta iota. rewrite Htruthy. cbn [negb].
  unfold bind at 1. unfold time_sleep at 1.
  rewrite (sleep_error_none env _ _ Hsl (Hpa _)). cbv beta iota.
  eexists. split; [reflexivity|].
  exists (EvGet UsaspendingFetch.base (page_params rid rlevel pagesize page) (clock w) true
          :: new1 ++ [EvSleep sleep_s]).
  split.
  - simpl. rewrite Ht1. simpl. rewrite rev_app_distr. simpl.
    rewrite <- app_assoc. reflexivity.
  - change (EvGet UsaspendingFetch.base (page_params rid rlevel pagesize page) (clock w) true
            :: new1 ++ [EvSleep sleep_s])
      with ([EvGet UsaspendingFetch.base (page_params rid rlevel pagesize page) (clock w) true]
            ++ new1 ++ [EvSleep sleep_s]).
    rewrite !commits_app, !requests_app, Hcm1, Hrq1. split; reflexivity.
Qed.

(** The turn on the empty page: the page is written and the loop ends. *)
Lemma page_loop_empty (fuel : nat) (fs recipient_id rid rlevel : string)
    (pagesize sleep_s page : Z) (r : Response) (w : World) :
  storage_works env ->
  http_get env (call_index w) UsaspendingFetch.base (page_params rid rlevel pagesize page) = inr r ->
  empty_page r = true ->
  exists w',
    page_loop (S fuel) fs recipient_id rid rlevel pagesize sleep_s page w = (Ok (Some tt), w')
    /\ exists new, trace w' = rev new ++ trace w
                   /\ commits new = 1%nat /\ requests new = 1%nat.
Proof.
  intros Hs Hget He.
  unfold empty_page, page_results in He.
  apply andb_true_iff in He. destruct He as (Hst & Hres).
  destruct (json_body r) as [[| | | | |fields]|] eqn:Hbody; try discriminate.
  cbn [UsaspendingFetch.page_loop].
  unfold bind at 1. unfold log at 1. cbv beta iota.
  unfold bind at 1. unfold session_get.
  change (call_index (push_log INFO "GET %s page=%s" w)) with (call_index w).
  rewrite Hget. cbv beta iota. rewrite Hst. cbn [negb].
  unfold bind at 1. rewrite Hbody. unfold ret at 1. cbv beta iota.
  unfold bind at 1. unfold utcnow at 1. cbv beta iota.
  unfold bind at 1.
  match goal with
  | |- context [UsaspendingFetch.write_json_to_adls _ _ ?a ?b ?c ?d ?w0] =>
      destruct (write_json_ok a b c d w0 Hs) as (w1 & Hw & Hc1 & new1 & Ht1 & Hcm1 & Hrq1)
  end.
  rewrite Hw. cbv beta iota.
  assert (Hend : exists n,
    UsaspendingFetch.hits (JObj fields) w1 = (Ok n, w1)
    /\ match Py.dict_get "results" fields with
       | Some v => json_truthy v
       | None => false
       end = false).
  { unfold UsaspendingFetch.hits, bind, UsaspendingFetch.payload_get, ret.
    destruct (Py.dict_get "results" fields) as [v|]; [|eauto].
    apply andb_true_iff in Hres. destruct Hres as (Hf & Hlen).
    unfold has_len in Hlen. destruct (json_len v) as [n|]; [|discriminate].
    exists n. split; [reflexivity|]. destruct (json_truthy v); [discriminate | reflexivity]. }
  destruct Hend as (n & Hhits & Hfalse).
  unfold bind at 1. rewrite Hhits. cbv beta iota.
  unfold bind at 1. unfold log at 1. cbv beta iota.
  unfold bind at 1. unfold UsaspendingFetch.payload_get at 1.
  unfold ret at 1. cbv beta iota. rewrite Hfalse. cbn [negb]. unfold ret.
  eexists. split; [reflexivity|].
  exists (EvGet UsaspendingFetch.base (page_params rid rlevel pagesize page) (clock w) true :: new1).
  split.
  - simpl. rewrite Ht1. simpl. rewrite <- app_assoc. reflexivity.
  - change (EvGet UsaspendingFetch.base (page_params rid rlevel pagesize page) (clock w) true :: new1)
      with ([EvGet UsaspendingFetch.base (page_params rid rlevel pagesize page) (clock w) true]
            ++ new1).
    rewrite !commits_app, !requests_app, Hcm1, Hrq1. split; reflexivity.
Qed.

(** A status other than 200 ends the loop before anything is written. *)
Lemma page_loop_error_status (fuel : nat) (fs recipient_id rid rlevel : string)
    (pagesize sleep_s page : Z) (r : Response) (w : World) :
  http_get env (call_index w) UsaspendingFetch.base (page_params rid rlevel pagesize page) = inr r ->
  status_code r <> 200 ->
  result (page_loop (S fuel) fs recipient_id rid rlevel pagesize sleep_s page) w = Ok (Some tt)
  /\ emitted (page_loop (S fuel) fs recipient_id rid rlevel pagesize sleep_s page) w
     = [EvGet UsaspendingFetch.base (page_params rid rlevel pagesize page) (clock w) true].
Proof.
  intros Hget Hst.
  assert (Hrun : exists w', page_loop (S fuel) fs recipient_id rid rlevel pagesize sleep_s page w
                            = (Ok (Some tt), w')
           /\ trace w' = rev [EvGet UsaspendingFetch.base (page_params rid rlevel pagesize page)
                                (clock w) true] ++ trace w).
  { cbn [UsaspendingFetch.page_loop].
    unfold bind at 1. unfold log at 1. cbv beta iota.
    unfold bind at 1. unfold session_get.
    change (call_index (push_log INFO "GET %s page=%s" w)) with (call_index w).
    rewrite Hget. cbv beta iota.
    destruct (Z.eqb_spec (status_code r) 200) as [?|_]; [contradiction|]. cbn [negb].
    unfold bind, log, ret. eexists. split; reflexivity. }
  destruct Hrun as (w' & Hrun & Ht). split.
  - unfold result. rewrite Hrun. reflexivity.
  - apply emitted_spec. unfold exec. rewrite Hrun. exact Ht.
Qed.

Lemma page_loop_pages (n : nat) :
  forall (fuel : nat) (fs recipient_id rid rlevel : string) (pagesize sleep_s page : Z) (w : World),
    storage_works env -> 0 <= sleep_s -> pause_accepted env sleep_s -> (n < fuel)%nat ->
    (forall i p, page <= p < page + Z.of_nat n ->
       exists r, http_get env i UsaspendingFetch.base (page_params rid rlevel pagesize p) = inr r
                 /\ nonempty_page r = true) ->
    (forall i,
       exists r, http_get env i UsaspendingFetch.base
                   (page_params rid rlevel pagesize (page + Z.of_nat n)) = inr r
                 /\ empty_page r = true) ->
    exists w',
      page_loop fuel fs recipient_id rid rlevel pagesize sleep_s page w = (Ok (Some tt), w')
      /\ exists new, trace w' = rev new ++ trace w
                     /\ commits new = S n /\ requests new = S n.
Proof.
  induction n as [|n IH]; intros fuel fs recipient_id rid rlevel pagesize sleep_s page w
                                 Hs Hsl Hpa Hfuel Hfull Hlast.
  - destruct fuel as [|fuel]; [lia|].
    destruct (Hlast (call_index w)) as (r & Hget & He).
    rewrite Z.add_0_r in Hget.
    apply (page_loop_empty fuel fs recipient_id rid rlevel pagesize sleep_s page r w Hs Hget He).
  - destruct fuel as [|fuel]; [lia|].
    destruct (Hfull (call_index w) page ltac:(lia)) as (r & Hget & Hne).
    destruct (page_loop_nonempty fuel fs recipient_id rid rlevel pagesize sleep_s page r w
                Hs Hsl Hpa Hget Hne) as (w1 & Hstep & new1 & Ht1 & Hc1 & Hr1).
    destruct (IH fuel fs recipient_id rid rlevel pagesize sleep_s (page + 1) w1 Hs Hsl Hpa
                ltac:(lia)) as (w' & Hrun & new2 & Ht2 & Hc2 & Hr2).
    + intros i p Hp. apply Hfull. lia.
    + intros i. destruct (Hlast i) as (r' & Hget' & He'). exists r'.
      split; [|exact He']. rewrite <- Hget'. f_equal. f_equal. lia.
    + exists w'. split; [rewrite Hstep; exact Hrun|].
      exists (new1 ++ new2). split.
      * rewrite Ht2, Ht1, rev_app_distr, app_assoc. reflexivity.
      * rewrite commits_app, requests_app, Hc1, Hc2, Hr1, Hr2. split; reflexivity.
Qed.

End Pagination.

(** ** The structured API paths *)

Ltac emits_step :=
  match goal with
  | |- emits _ (bind _ _) => apply emits_bind; try exact _; [| intros ?]
  | |- emits _ (ret _) => apply emits_ret; try exact _
  | |- emits _ (raise _) => apply emits_raise; try exact _
  | |- emits _ (log _ _) => apply emits_log; try exact _
  | |- emits _ utcnow => apply emits_utcnow; try exact _
  | |- emits _ (try_except _ _) => apply emits_try_except; try exact _; [| intros ?]
  | |- emits _ (try_except_class _ _ _) =>
      apply emits_try_except_class; try exact _; [| intros ?]
  | |- emits _ (for_each _ _) => apply emits_for_each; try exact _; intros ?
  | |- emits _ (adls_call _ _) => apply emits_adls_call; try exact _; intros ?
  | |- emits _ (local_call _ _) => apply emits_local_call; try exact _; intros ?
  | |- emits _ (session_get _ _ _) => apply emits_session_get; try exact _; intros ? ?
  | |- emits _ (robots_io _ _) => apply emits_robots_io; try exact _; intros ? ?
  | |- emits _ (feedparser_parse _ _) => apply emits_feedparser_parse; try exact _; intros ?
  | |- emits _ (time_sleep _ _) => apply emits_time_sleep; try exact _
  | |- emits _ (if ?b then _ else _) => destruct b
  | |- emits _ (match ?x with _ => _ end) => destruct x
  end.

Section ApiPaths.
Context (lib : Lib) (cfg : Config) (env : Env).

Lemma Forall_storage_one (e : Event) :
  is_storage_event e = true -> Forall (fun e => is_storage_event e = true) [e].
Proof. intros H. constructor; [exact H | constructor]. Qed.

Lemma store_pair_emits (wr : option FetchSeed.ADLSWriter) (outdir filename body : string)
    (meta : Json) :
  emits (Forall (fun e => is_storage_event e = true))
        (FetchSeed.store_pair cfg env wr outdir filename body meta).
Proof.
  unfold FetchSeed.store_pair, FetchSeed.upload_text, FetchSeed.upload_bytes,
    FetchSeed.save_local_bytes, FetchSeed.save_local_text, FetchSeed.ensure_local_path.
  repeat emits_step; apply Forall_storage_one; reflexivity.
Qed.

Lemma trace_try_except_quiet {A} (m : M A) (h : Exn -> M A) (w : World) :
  (forall e w', trace (exec (h e) w') = trace w') ->
  trace (exec (try_except m h) w) = trace (exec m w).
Proof.
  intros Hq. unfold exec, try_except. destruct (m w) as [[a|e] w']; simpl; [reflexivity|].
  apply (Hq e w').
Qed.

(** A request followed by storage: the request comes first, at the
    clock reading of the entry. *)
Lemma get_then_store {A} (msg : string) (u : string) (ps : Params) (k : Response -> M A)
    (w : World) :
  (forall r, emits (Forall (fun e => is_storage_event e = true)) (k r)) ->
  exists ok rest,
    trace (exec (log INFO msg ;;; r <- session_get env u ps ;; k r) w)
    = rev (EvGet u ps (clock w) ok :: rest) ++ trace w
    /\ Forall (fun e => is_storage_event e = true) rest.
Proof.
  intros Hk. unfold exec, bind at 1, log at 1. cbv beta iota.
  unfold bind at 1, session_get.
  change (call_index (push_log INFO msg w)) with (call_index w).
  change (clock (push_log INFO msg w)) with (clock w).
  destruct (http_get env (call_index w) u ps) as [e|r]; cbv beta iota.
  - exists false, []. split; [reflexivity | constructor].
  - destruct (Hk r (after_call env (EvGet u ps (clock w) true) (push_log INFO msg w)))
      as (new & Ht & Hnew).
    exists true, new. split; [|exact Hnew].
    unfold exec in Ht. rewrite Ht. simpl. rewrite <- app_assoc. reflexivity.
Qed.

Lemma usaspending_branch_first (wr : option FetchSeed.ADLSWriter)
    (source_name api_params notes outdir : string) (w : World) :
  Py.dict_mem "recipient_id" (usaspending_params api_params)
  || Py.dict_mem "recipient_unique_id" (usaspending_params api_params) = true ->
  exists ok rest,
    emitted (FetchSeed.usaspending_branch lib cfg env false wr source_name api_params notes outdir) w
    = EvGet usaspending_endpoint (usaspending_params api_params) (clock w) ok :: rest
    /\ Forall (fun e => is_storage_event e = true) rest.
Proof.
  intros Hkey. unfold FetchSeed.usaspending_branch.
  fold (usaspending_params api_params). cbv zeta. rewrite Hkey.
  fold usaspending_endpoint.
  match goal with
  | |- context [try_except (log INFO ?msg ;;; r <- session_get env ?u ?ps ;; @?k r) ?h] =>
      destruct (get_then_store msg u ps k w) as (ok & rest & Ht & Hrest)
  end.
  { intros r. cbv beta. unfold FetchSeed.read_content.
    repeat first [ apply store_pair_emits | emits_step ]. }
  exists ok, rest. split; [|exact Hrest].
  apply emitted_spec. rewrite trace_try_except_quiet; [exact Ht|].
  intros e w'. reflexivity.
Qed.

Lemma sam_branch_first (wr : option FetchSeed.ADLSWriter) (sam_key : string)
    (source_name api_params notes outdir : string) (w : World) :
  SAM_API_KEY cfg = Some sam_key -> Py.truthy sam_key = true ->
  exists ok rest,
    emitted (FetchSeed.sam_branch lib cfg env false wr source_name api_params notes outdir) w
    = EvGet sam_endpoint (sam_params sam_key api_params) (clock w) ok :: rest
    /\ Forall (fun e => is_storage_event e = true) rest.
Proof.
  intros Hkey Htruthy. unfold FetchSeed.sam_branch. rewrite Hkey, Htruthy.
  fold (sam_params sam_key api_params). cbv zeta. fold sam_endpoint.
  match goal with
  | |- context [try_except (log INFO ?msg ;;; r <- session_get env ?u ?ps ;; @?k r) ?h] =>
      destruct (get_then_store msg u ps k w) as (ok & rest & Ht & Hrest)
  end.
  { intros r. cbv beta. unfold FetchSeed.read_content.
    repeat first [ apply store_pair_emits | emits_step ]. }
  exists ok, rest. split; [|exact Hrest].
  apply emitted_spec. rewrite trace_try_except_quiet; [exact Ht|].
  intros e w'. reflexivity.
Qed.

Lemma page_loop_emits (fuel : nat) (fs recipient_id rid rlevel : string)
    (pagesize sleep_s page : Z) :
  emits (Forall (paging_event sleep_s))
        (UsaspendingFetch.page_loop lib env fuel fs recipient_id rid rlevel pagesize sleep_s page).
Proof.
  revert page. induction fuel as [|fuel IH]; intros page; cbn [UsaspendingFetch.page_loop].
  - apply emits_ret; exact _.
  - unfold UsaspendingFetch.write_json_to_adls, UsaspendingFetch.hits,
      UsaspendingFetch.payload_get.
    repeat first [ apply IH | emits_step ];
      try (constructor; [exact I || reflexivity | constructor]).
Qed.

End ApiPaths.

(** ** Content and sidecar *)

Ltac strip_events l w :=
  match l with
  | trace w => constr:(@nil Event)
  | ?e :: ?r => let r' := strip_events r w in constr:(e :: r')
  end.

(** Name the events of a fully evaluated run. *)
Ltac give_events :=
  match goal with
  | |- exists new, ?l = rev new ++ trace ?w /\ _ =>
      let n := strip_events l w in
      exists (rev n); split; [rewrite rev_involutive; reflexivity | cbn [rev app]]
  end.

(** Evaluate a storage segment under every answer of the backends. *)
Ltac run_storage env :=
  repeat (cbn -[append];
          match goal with
          | |- context [adls env ?i ?c] => destruct (adls env i c) eqn:?
          | |- context [localfs env ?i ?c] => destruct (localfs env i c) eqn:?
          end);
  cbn -[append].

Section Sidecars.
Context (lib : Lib) (cfg : Config) (env : Env).

Lemma sidecar_follows_app (e : Event) (post more : list Event) :
  sidecar_follows lib e post -> sidecar_follows lib e (post ++ more).
Proof.
  destruct e as [| | | |c ok|op ok]; simpl; auto.
  - destruct c; auto. destruct data; auto. destruct ok; auto.
    intros (okd & ok1 & post' & -> & H). exists okd, ok1, (post' ++ more).
    split; [reflexivity|]. intros Hok. destruct (H Hok) as (meta & ok2 & post'' & -> & Hck).
    exists meta, ok2, (post'' ++ more). auto.
  - destruct op; auto. destruct data; auto. destruct ok; auto.
    intros (dir & ok1 & post' & -> & H). exists dir, ok1, (post' ++ more).
    split; [reflexivity|]. intros Hok. destruct (H Hok) as (meta & ok2 & post'' & -> & Hck).
    exists meta, ok2, (post'' ++ more). auto.
Qed.

Lemma paired_nil : paired lib [].
Proof. intros pre e post H. destruct pre; discriminate. Qed.

Lemma paired_cons (e : Event) (l : list Event) :
  sidecar_follows lib e l -> paired lib l -> paired lib (e :: l).
Proof.
  intros He Hl pre e' post Heq. destruct pre as [|x pre]; simpl in Heq.
  - injection Heq as <- <-. exact He.
  - injection Heq as <- Heq. eapply Hl; eauto.
Qed.

Lemma paired_app (a b : list Event) : paired lib a -> paired lib b -> paired lib (a ++ b).
Proof.
  intros Ha Hb pre e post Heq.
  apply app_eq_app in Heq. destruct Heq as (mid & [(-> & Hb') | (-> & ->)]).
  - destruct mid as [|x mid]; simpl in Hb'.
    + apply (Hb [] e post). simpl. congruence.
    + injection Hb' as <- ->. apply sidecar_follows_app. apply (Ha pre e mid). reflexivity.
  - apply (Hb mid e post). reflexivity.
Qed.

#[local] Instance Closed_paired : Closed (paired lib).
Proof. split; [apply paired_nil | apply paired_app]. Qed.

Lemma paired_one (e : Event) : is_content_write e = false -> paired lib [e].
Proof.
  intros H. apply paired_cons; [|apply paired_nil].
  destruct e as [| | | |c ok|op ok]; simpl in *; auto.
  - destruct c; auto. destruct data; auto. discriminate.
  - destruct op; auto. destruct data; auto. discriminate.
Qed.

Lemma append_assoc (a b c : string) : (a +:+ b) +:+ c = a +:+ (b +:+ c).
Proof.
  induction a as [|x a IH]; [reflexivity|].
  change ((String x a +:+ b) +:+ c) with (String x ((a +:+ b) +:+ c)).
  change (String x a +:+ (b +:+ c)) with (String x (a +:+ (b +:+ c))).
  rewrite IH. reflexivity.
Qed.

Lemma path_join_sidecar (dir file : string) :
  Py.path_join dir (file +:+ ".metadata.json") = Py.path_join dir file +:+ ".metadata.json".
Proof.
  unfold Py.path_join, Py.startswith.
  assert (Hp : prefix "/" (file +:+ ".metadata.json") = prefix "/" file).
  { destruct file as [|c r]; [reflexivity|].
    change (String c r +:+ ".metadata.json") with (String c (r +:+ ".metadata.json")).
    cbn [prefix]. destruct (ascii_dec "/" c); [|reflexivity].
    destruct r; reflexivity. }
  rewrite Hp. destruct (prefix "/" file); [reflexivity|].
  destruct (negb (Py.truthy dir) || Py.endswith "/" dir).
  - symmetry. apply append_assoc.
  - rewrite !append_assoc. reflexivity.
Qed.

Ltac sidecar_tac :=
  cbn [sidecar_follows];
  first
    [ exact I
    | do 3 eexists; split;
      [ reflexivity
      | let H := fresh in
        intros H;
        first [ discriminate H
              | do 3 eexists; split; [reflexivity | assumption] ] ] ].

Ltac paired_list :=
  rewrite ?path_join_sidecar;
  repeat (apply paired_cons; [sidecar_tac |]); apply paired_nil.

Lemma store_pair_paired (wr : option FetchSeed.ADLSWriter) (outdir filename body : string)
    (meta : Json) :
  checksum_ok lib meta body ->
  emits (paired lib) (FetchSeed.store_pair cfg env wr outdir filename body meta).
Proof.
  intros Hck w.
  unfold FetchSeed.store_pair, FetchSeed.upload_text, FetchSeed.upload_bytes,
    FetchSeed.save_local_bytes, FetchSeed.save_local_text, FetchSeed.ensure_local_path,
    exec, bind, try_except, adls_call, local_call, log, ret.
  destruct wr as [wr|]; run_storage env; give_events; paired_list.
Qed.

Lemma commit_generic_paired (wr : option FetchSeed.ADLSWriter) (outdir filename body : string)
    (meta : Json) :
  checksum_ok lib meta body ->
  emits (paired lib) (FetchSeed.commit_generic cfg env wr outdir filename body meta).
Proof.
  intros Hck w.
  unfold FetchSeed.commit_generic, FetchSeed.upload_text, FetchSeed.upload_bytes,
    FetchSeed.save_local_bytes, FetchSeed.save_local_text, FetchSeed.ensure_local_path,
    exec, bind, try_except, adls_call, local_call, log, ret.
  destruct wr as [wr|]; run_storage env; give_events; paired_list.
Qed.

End Sidecars.

(** ** Events of a manifest row *)

Section RowEvents.
Context (lib : Lib) (cfg : Config) (env : Env).
Context (P : list Event -> Prop) `{!Closed P}.
Context (P_one : forall e, is_content_write e = false -> P [e]).
Context (P_store : forall wr outdir filename body meta,
            checksum_ok lib meta body ->
            emits P (FetchSeed.store_pair cfg env wr outdir filename body meta)).
Context (P_commit : forall wr outdir filename body meta,
            checksum_ok lib meta body ->
            emits P (FetchSeed.commit_generic cfg env wr outdir filename body meta)).

Lemma emits_wait_for_domain (d : option string) :
  emits P (FetchSeed.wait_for_domain cfg env d).
Proof.
  intros w.
  destruct (wait_cases cfg env d w)
    as (res & w2 & Hw & _ & _ & _ & [(_ & Ht & _) | (e & _ & Ht & _)]);
    unfold exec; rewrite Hw; simpl.
  - destruct Ht as [Ht | (ms & _ & Ht)].
    + exists []. split; [exact Ht | apply closed_nil].
    + exists [EvSleep ms]. split; [exact Ht | apply P_one; reflexivity].
  - exists []. split; [exact Ht | apply closed_nil].
Qed.

Lemma emits_record_domain_request (d : option string) (rp : option RobotsParser) :
  emits P (FetchSeed.record_domain_request lib cfg d rp).
Proof.
  intros w. destruct (record_run lib cfg d rp w) as (w3 & Hr & _ & Ht & _).
  unfold exec. rewrite Hr. exists []. split; [exact Ht | apply closed_nil].
Qed.

Lemma emits_sleep_fun (f : World -> Z) :
  emits P (fun w => time_sleep env (f w) w).
Proof.
  intros w. destruct (emits_time_sleep P env (f w) (P_one (EvSleep (f w)) eq_refl) w) as (new & Ht & Hn).
  exists new. split; assumption.
Qed.

Ltac row_step :=
  first
    [ apply emits_wait_for_domain
    | apply emits_record_domain_request
    | apply emits_sleep_fun
    | apply P_store
    | apply P_commit
    | emits_step ].

Lemma emits_polite_fetch (url : string) (params : Params) :
  emits P (FetchSeed.polite_fetch lib cfg env url params).
Proof.
  unfold FetchSeed.polite_fetch, FetchSeed.get_robots_parser_for_domain. cbv zeta.
  repeat row_step; apply P_one; reflexivity.
Qed.

Lemma emits_usaspending_branch (dry_run : bool) (wr : option FetchSeed.ADLSWriter)
    (source_name api_params notes outdir : string) :
  emits P (FetchSeed.usaspending_branch lib cfg env dry_run wr source_name api_params
             notes outdir).
Proof.
  unfold FetchSeed.usaspending_branch, FetchSeed.read_content. cbv zeta.
  repeat row_step; try (apply P_one; reflexivity); exact I.
Qed.

Lemma emits_sam_branch (dry_run : bool) (wr : option FetchSeed.ADLSWriter)
    (source_name api_params notes outdir : string) :
  emits P (FetchSeed.sam_branch lib cfg env dry_run wr source_name api_params notes outdir).
Proof.
  unfold FetchSeed.sam_branch, FetchSeed.read_content. cbv zeta.
  repeat row_step; try (apply P_one; reflexivity); exact I.
Qed.

Lemma emits_generic_path (dry_run : bool) (wr : option FetchSeed.ADLSWriter)
    (row : FetchSeed.Row) (source_name url notes outdir basename : string) :
  emits P (FetchSeed.generic_path lib cfg env dry_run wr row source_name url notes
             outdir basename).
Proof.
  unfold FetchSeed.generic_path, FetchSeed.robots_skip,
    FetchSeed.get_robots_parser_for_domain, FetchSeed.backoff_429,
    FetchSeed.upload_text, FetchSeed.upload_bytes,
    FetchSeed.save_local_text, FetchSeed.ensure_local_path.
  cbv zeta.
  repeat first [ apply emits_polite_fetch | row_step ];
    try (apply P_one; reflexivity).
  all: unfold FetchSeed.generic_meta;
    cbn [checksum_ok Py.dict_get String.eqb Ascii.eqb Bool.eqb]; reflexivity.
Qed.

(** What a row does once the USAspending shortcut has been tried *)
Lemma emits_after_usaspending (dry_run : bool) (wr : option FetchSeed.ADLSWriter)
    (row : FetchSeed.Row) (source_name url api_params notes outdir basename : string)
    (done : bool) :
  emits P
    (if done then ret tt
     else
       done <- (if Py.contains "sam.gov" (Py.lower url)
                   || (Py.contains "sam" (Py.lower api_params)
                       && FetchSeed.opt_truthy (SAM_API_KEY cfg))
                then FetchSeed.sam_branch lib cfg env dry_run wr source_name api_params notes outdir
                else ret false) ;;
       if done : bool then ret tt
       else FetchSeed.generic_path lib cfg env dry_run wr row source_name url notes
              outdir basename).
Proof.
  repeat first [ apply emits_sam_branch | apply emits_generic_path | row_step ].
Qed.

Lemma emits_process_row (dry_run : bool) (wr : option FetchSeed.ADLSWriter)
    (row : FetchSeed.Row) :
  emits P (FetchSeed.process_row lib cfg env dry_run wr row).
Proof.
  unfold FetchSeed.process_row, FetchSeed.build_output_paths. cbv zeta.
  repeat first [ apply emits_usaspending_branch | apply emits_after_usaspending | row_step ].
Qed.

Lemma emits_main (rows : list FetchSeed.Row) (dry_run local_only : bool) :
  emits P (FetchSeed.main lib cfg env rows dry_run local_only).
Proof.
  unfold FetchSeed.main, FetchSeed.make_adls_writer, FetchSeed.ADLSWriter_init.
  repeat first [ apply emits_process_row | row_step ]; apply P_one; reflexivity.
Qed.

End RowEvents.

(** C4 (amended). In every run of [main], each successful write of
    content bytes (an upload to the remote store or a local file write) is
    followed at once by the attempt to write its sidecar into the same
    directory of the same backend: the file named content filename +
    ".metadata.json", holding JSON metadata whose [checksum_sha256], when
    the field is present, is the SHA-256 hex digest of the content bytes
    written. (The sidecar is there when that write succeeds.) *)
Theorem content_write_followed_by_sidecar (lib : Lib) (cfg : Config) (env : Env)
    (rows : list FetchSeed.Row) (dry_run local_only : bool) (w : World) :
  paired lib (emitted (FetchSeed.main lib cfg env rows dry_run local_only) w).
Proof.
  assert (H : emits (paired lib) (FetchSeed.main lib cfg env rows dry_run local_only)).
  { apply emits_main.
    - apply Closed_paired.
    - apply paired_one.
    - apply store_pair_paired.
    - apply commit_generic_paired. }
  destruct (emits_emitted _ _ w H) as (_ & Hp). exact Hp.
Qed.

(** ** The RSS script *)

Section Rss.
Context (lib : Lib) (cfg : Config) (env : Env).

Lemma rss_items_app (a b : list Event) : rss_items (a ++ b) = rss_items a ++ rss_items b.
Proof. unfold rss_items. apply flat_map_app. Qed.

Lemma committed_json_app (a b : list Event) :
  starts_quiet b -> committed_json (a ++ b) = committed_json a ++ committed_json b.
Proof.
  intros Hb. induction a as [|e a IH]; [reflexivity|].
  cbn [app committed_json]. rewrite IH.
  destruct (json_appended e) as [j|]; [|reflexivity].
  destruct a as [|f a]; cbn [app].
  - destruct b as [|f b]; [reflexivity|]. cbn in Hb. rewrite Hb. reflexivity.
  - destruct (is_flushed f); reflexivity.
Qed.

Ltac run_entry x :=
  repeat (cbn -[append NewsFetch.item_json NewsFetch.safe_title Nat.ltb sleep_error];
          match goal with
          | |- context [adls env ?i ?c] => destruct (adls env i c) eqn:?
          | |- context [http_get env ?i ?u ?p] => destruct (http_get env i u p) eqn:?
          | |- context [Py.dict_get "link" x] => destruct (Py.dict_get "link" x) eqn:?
          | |- context [status_code ?r =? 200] => destruct (Z.eqb_spec (status_code r) 200)
          | |- context [(200 <? ?n)%nat] => destruct (Nat.ltb_spec 200 n)
          | |- context [sleep_error env ?i ?d] => destruct (sleep_error env i d) eqn:?
          end);
  cbn -[append NewsFetch.item_json NewsFetch.safe_title Nat.ltb sleep_error].

(** One turn of the loop: the item is handed to the store first; when
    that write cannot even start, the run ends there.  The item is
    committed, or the turn raises. *)
Lemma process_entry_run (fs pre : string) (x : NewsFetch.Entry) (w : World) :
  exists new,
    trace (exec (NewsFetch.process_entry lib env fs pre x) w) = rev new ++ trace w
    /\ Forall (html_from_ok_response env) new
    /\ starts_quiet new
    /\ (rss_items new = [NewsFetch.item_json x]
        \/ (rss_items new = []
            /\ exists e, result (NewsFetch.process_entry lib env fs pre x) w = Raise e))
    /\ (committed_json new = [NewsFetch.item_json x]
        \/ (committed_json new = []
            /\ exists e, result (NewsFetch.process_entry lib env fs pre x) w = Raise e)).
Proof.
  unfold NewsFetch.process_entry, NewsFetch.write_text, NewsFetch.entry_link,
    exec, result, bind, try_except, adls_call, session_get, time_sleep, utcnow, log, ret, raise.
  run_entry x; give_events;
    (split; [repeat constructor; cbn; eauto 10 |]);
    cbn; (split; [reflexivity|]); split; eauto 6.
Qed.

(** The turn returns when the store takes every call, the entry has a
    link and the pause of 0.2 s is accepted. *)
Lemma process_entry_total (fs pre : string) (x : NewsFetch.Entry) (w : World) :
  storage_works env -> pause_accepted env 200 -> is_Some (Py.dict_get "link" x) ->
  result (NewsFetch.process_entry lib env fs pre x) w = Ok tt.
Proof.
  intros Hs Hpa [link Hlink].
  unfold NewsFetch.process_entry, NewsFetch.write_text, NewsFetch.entry_link,
    exec, result, bind, try_except, adls_call, session_get, time_sleep, utcnow, log, ret, raise.
  rewrite Hlink.
  repeat (cbn -[append NewsFetch.item_json NewsFetch.safe_title Nat.ltb sleep_error];
          match goal with
          | |- context [adls env ?i ?c] => rewrite (Hs i c)
          | |- context [http_get env ?i ?u ?p] => destruct (http_get env i u p) eqn:?
          | |- context [status_code ?r =? 200] => destruct (Z.eqb_spec (status_code r) 200)
          | |- context [(200 <? ?n)%nat] => destruct (Nat.ltb_spec 200 n)
          | |- context [sleep_error env ?i 200] =>
              rewrite (sleep_error_none env i 200 ltac:(lia) (Hpa i))
          end);
    reflexivity.
Qed.

Lemma entries_run (fs pre : string) (l : list NewsFetch.Entry) :
  forall w,
    let run := for_each (NewsFetch.process_entry lib env fs pre) l in
    exists new k k',
      trace (exec run w) = rev new ++ trace w
      /\ Forall (html_from_ok_response env) new
      /\ starts_quiet new
      /\ (k <= List.length l)%nat
      /\ rss_items new = map NewsFetch.item_json (firstn k l)
      /\ (k' <= List.length l)%nat
      /\ committed_json new = map NewsFetch.item_json (firstn k' l)
      /\ (is_ok (result run w) -> k' = List.length l).
Proof.
  induction l as [|x l IH]; intros w run; subst run.
  - exists [], 0%nat, 0%nat. repeat split; auto.
  - destruct (process_entry_run fs pre x w) as (new1 & Ht1 & Hh1 & Hq1 & Hitems & Hdone).
    cbn [for_each]. unfold exec, result, bind in *.
    destruct (NewsFetch.process_entry lib env fs pre x w) as [[[]|e] w1]; simpl in *.
    + destruct Hitems as [Hitems | (_ & e & He)]; [|discriminate].
      destruct Hdone as [Hdone | (_ & e & He)]; [|discriminate].
      destruct (IH w1) as (new2 & k & k' & Ht2 & Hh2 & Hq2 & Hk & Hitems2 & Hk' & Hdone2 & Hall).
      exists (new1 ++ new2), (S k), (S k'). repeat split.
      * rewrite Ht2, Ht1, rev_app_distr, app_assoc. reflexivity.
      * apply Forall_app; auto.
      * destruct new1; [discriminate Hitems | exact Hq1].
      * lia.
      * rewrite rss_items_app, Hitems, Hitems2. reflexivity.
      * lia.
      * rewrite committed_json_app by exact Hq2. rewrite Hdone, Hdone2. reflexivity.
      * intros Hok. rewrite (Hall Hok). reflexivity.
    + assert (Hrss : exists k, (k <= S (List.length l))%nat
                /\ rss_items new1 = map NewsFetch.item_json (firstn k (x :: l))).
      { destruct Hitems as [-> | (-> & _)]; [exists 1%nat | exists 0%nat];
          (split; [lia | reflexivity]). }
      assert (Hcom : exists k, (k <= S (List.length l))%nat
                /\ committed_json new1 = map NewsFetch.item_json (firstn k (x :: l))).
      { destruct Hdone as [-> | (-> & _)]; [exists 1%nat | exists 0%nat];
          (split; [lia | reflexivity]). }
      destruct Hrss as (k & Hk & Hrss). destruct Hcom as (k' & Hk' & Hcom).
      exists new1, k, k'. repeat split; auto. intros [].
Qed.

Lemma entries_total (fs pre : string) (l : list NewsFetch.Entry) :
  storage_works env -> pause_accepted env 200 -> entries_have_links l ->
  forall w, result (for_each (NewsFetch.process_entry lib env fs pre) l) w = Ok tt.
Proof.
  intros Hs Hpa Hl. induction Hl as [|x l Hx Hl IH]; intros w; [reflexivity|].
  pose proof (process_entry_total fs pre x w Hs Hpa Hx) as H1.
  cbn [for_each]. unfold result, bind in *.
  destruct (NewsFetch.process_entry lib env fs pre x w) as [[[]|e] w1]; simpl in H1;
    [apply IH | discriminate].
Qed.

End Rss.

(** The slice [feed.entries[:max_items]] *)
Lemma slice_to_bound {A} (n : Z) (l : list A) :
  (0 <= n -> Py.slice_to n l = firstn (Z.to_nat n) l
             /\ (List.length (Py.slice_to n l) <= Z.to_nat n)%nat)
  /\ (n < 0 -> Py.slice_to n l = firstn (List.length l - Z.to_nat (- n)) l).
Proof.
  unfold Py.slice_to. split; intros H.
  - destruct (Z.leb_spec 0 n); [|lia]. split; [reflexivity|]. rewrite length_firstn. lia.
  - destruct (Z.leb_spec 0 n); [lia | reflexivity].
Qed.

(** The whole run of the RSS script: after the service client and the
    feed, the loop over the slice. *)
Lemma rss_unfold (lib : Lib) (cfg : Config) (env : Env) (url source_name : string)
    (max_items : Z) (account : string) (w : World) :
  ADLS_ACCOUNT cfg = Some account ->
  adls env (call_index w) (OpenService ("https://" +:+ account +:+ ".dfs.core.windows.net")) = true ->
  exists w0,
    NewsFetch.fetch_rss_and_store lib cfg env url source_name max_items w
    = for_each (NewsFetch.process_entry lib env (default "raw" (ADLS_FILESYSTEM cfg))
                  ("anduril/news/" +:+ source_name))
        (Py.slice_to max_items (feed_parse env (S (call_index w)) url)) w0
    /\ trace w0
       = EvFeed url (clock w + Z.of_N (latency env (call_index w)))
         :: EvAdls (OpenService ("https://" +:+ account +:+ ".dfs.core.windows.net")) true
         :: trace w.
Proof.
  intros Hacc Hopen.
  unfold NewsFetch.fetch_rss_and_store, environ_account. rewrite Hacc.
  unfold bind, ret, adls_client, adls_call, log, feedparser_parse. cbv beta iota zeta.
  rewrite Hopen. cbv beta iota.
  eexists. split; reflexivity.
Qed.

Lemma rss_run (lib : Lib) (cfg : Config) (env : Env) (url source_name : string)
    (max_items : Z) (w : World) :
  let run := NewsFetch.fetch_rss_and_store lib cfg env url source_name max_items in
  let entries := Py.slice_to max_items (feed_parse env (S (call_index w)) url) in
  exists new k k',
    trace (exec run w) = rev new ++ trace w
    /\ Forall (html_from_ok_response env) new
    /\ (k <= List.length entries)%nat
    /\ rss_items new = map NewsFetch.item_json (firstn k entries)
    /\ (k' <= List.length entries)%nat
    /\ committed_json new = map NewsFetch.item_json (firstn k' entries)
    /\ (is_ok (result run w) -> k' = List.length entries).
Proof.
  intros run entries.
  destruct (ADLS_ACCOUNT cfg) as [account|] eqn:Hacc.
  2:{ exists [], 0%nat, 0%nat. subst run.
      unfold exec, result, NewsFetch.fetch_rss_and_store, environ_account. rewrite Hacc.
      repeat split; auto; try constructor; try lia. intros []. }
  destruct (adls env (call_index w)
              (OpenService ("https://" +:+ account +:+ ".dfs.core.windows.net"))) eqn:Hopen.
  2:{ exists [EvAdls (OpenService ("https://" +:+ account +:+ ".dfs.core.windows.net")) false],
             0%nat, 0%nat. subst run.
      unfold exec, result, NewsFetch.fetch_rss_and_store, environ_account. rewrite Hacc.
      unfold bind, ret, adls_client, adls_call. cbv beta iota zeta. rewrite Hopen.
      repeat split; auto; try (repeat constructor; fail); try lia. intros []. }
  destruct (rss_unfold lib cfg env url source_name max_items account w Hacc Hopen)
    as (w0 & Hrun & Ht0).
  fold entries in Hrun.
  destruct (entries_run lib env (default "raw" (ADLS_FILESYSTEM cfg))
              ("anduril/news/" +:+ source_name) entries w0)
    as (new & k & k' & Ht & Hh & Hq & Hk & Hitems & Hk' & Hdone & Hall).
  unfold exec, result in *. subst run. rewrite Hrun.
  exists (EvAdls (OpenService ("https://" +:+ account +:+ ".dfs.core.windows.net")) true
          :: EvFeed url (clock w + Z.of_N (latency env (call_index w))) :: new), k, k'.
  split; [|split; [|split; [|split; [|split; [|split]]]]].
  - rewrite Ht, Ht0. simpl. rewrite <- !app_assoc. reflexivity.
  - repeat constructor. exact Hh.
  - exact Hk.
  - exact Hitems.
  - exact Hk'.
  - cbn [committed_json json_appended]. destruct new; exact Hdone.
  - exact Hall.
Qed.

(** The run returns when the account is configured, the store takes
    every call, the entries have links and the pause is accepted. *)
Lemma rss_total (lib : Lib) (cfg : Config) (env : Env) (url source_name : string)
    (max_items : Z) (w : World) :
  is_Some (ADLS_ACCOUNT cfg) -> storage_works env -> pause_accepted env 200 ->
  entries_have_links (Py.slice_to max_items (feed_parse env (S (call_index w)) url)) ->
  result (NewsFetch.fetch_rss_and_store lib cfg env url source_name max_items) w = Ok tt.
Proof.
  intros [account Hacc] Hs Hpa Hl.
  destruct (rss_unfold lib cfg env url source_name max_items account w Hacc (Hs _ _))
    as (w0 & Hrun & _).
  unfold result. rewrite Hrun.
  apply (entries_total lib env _ _ _ Hs Hpa Hl).
Qed.


(** ** Results of a manifest row *)

Section Yields.

Lemma yields_weaken {A} (Q Q' : Res A -> Prop) (m : M A) :
  (forall r, Q r -> Q' r) -> yields Q m -> yields Q' m.
Proof. intros H Hm w. apply H, Hm. Qed.

Lemma yields_ret {A} (Q : Res A -> Prop) (a : A) : Q (Ok a) -> yields Q (ret a).
Proof. intros H w. exact H. Qed.

Lemma yields_raise {A} (Q : Res A -> Prop) (e : Exn) : Q (Raise e) -> yields Q (raise e).
Proof. intros H w. exact H. Qed.

Lemma yields_log (Q : Res unit -> Prop) (l : Level) (msg : string) :
  Q (Ok tt) -> yields Q (log l msg).
Proof. intros H w. exact H. Qed.

Lemma yields_utcnow (Q : Res Z -> Prop) : (forall t, Q (Ok t)) -> yields Q utcnow.
Proof. intros H w. apply H. Qed.

Lemma yields_bind {A B} (Q : Res B -> Prop) (m : M A) (k : A -> M B) :
  yields (fun r => match r with Ok a => yields Q (k a) | Raise e => Q (Raise e) end) m ->
  yields Q (bind m k).
Proof.
  intros Hm w. specialize (Hm w). unfold result, bind in *.
  destruct (m w) as [[a|e] w']; simpl in *; [apply Hm | exact Hm].
Qed.

Lemma yields_try_except {A} (Q : Res A -> Prop) (m : M A) (h : Exn -> M A) :
  yields (fun r => match r with Ok a => Q (Ok a) | Raise e => yields Q (h e) end) m ->
  yields Q (try_except m h).
Proof.
  intros Hm w. specialize (Hm w). unfold result, try_except in *.
  destruct (m w) as [[a|e] w']; simpl in *; [exact Hm | apply Hm].
Qed.

Lemma yields_try_except_class {A} (Q : Res A -> Prop) (c : Exn -> bool) (m : M A)
    (h : Exn -> M A) :
  yields (fun r => match r with
                   | Ok a => Q (Ok a)
                   | Raise e => if c e then yields Q (h e) else Q (Raise e)
                   end) m ->
  yields Q (try_except_class c m h).
Proof.
  intros Hm w. specialize (Hm w). unfold result, try_except_class in *.
  destruct (m w) as [[a|e] w']; simpl in *; [exact Hm|].
  destruct (c e); [apply Hm | exact Hm].
Qed.

Lemma yields_any {A} (m : M A) : yields (fun _ => True) m.
Proof. intros w. exact I. Qed.

(** A handler that cannot fail makes the whole [try] succeed. *)
Lemma yields_try_except_ok {A} (m : M A) (h : Exn -> M A) :
  (forall e, yields is_ok (h e)) -> yields is_ok (try_except m h).
Proof.
  intros Hh. apply yields_try_except. eapply yields_weaken; [|apply yields_any].
  intros [a|e] _; [exact I | apply Hh].
Qed.

Lemma yields_for_each {A} (body : A -> M unit) (l : list A) :
  Forall (fun x => yields is_ok (body x)) l -> yields is_ok (for_each body l).
Proof.
  induction 1 as [|x l Hx Hl IH]; cbn [for_each].
  - apply yields_ret. exact I.
  - apply yields_bind. eapply yields_weaken; [|exact Hx].
    intros [[]|e] H; [exact IH | exact H].
Qed.

Context (env : Env).

Lemma yields_session_get (u : string) (ps : Params) :
  yields (fun r => match r with
                   | Ok resp => exists i, http_get env i u ps = inr resp
                   | Raise e => exists i, http_get env i u ps = inl e
                   end) (session_get env u ps).
Proof.
  intros w. unfold result, session_get.
  destruct (http_get env (call_index w) u ps) eqn:H; simpl; eauto.
Qed.

Lemma yields_robots_io (u : string) :
  yields (fun r => match r with
                   | Ok rp => exists i, robots_read env i u = Some rp
                   | Raise _ => True
                   end) (robots_io env u).
Proof.
  intros w. unfold result, robots_io.
  destruct (robots_read env (call_index w) u) eqn:H; simpl; eauto.
Qed.

Lemma yields_local_call (op : LocalOp) :
  local_store_works env -> yields is_ok (local_call env op).
Proof. intros H w. unfold result, local_call. simpl. rewrite H. exact I. Qed.

Lemma yields_time_sleep (d : Z) :
  0 <= d -> pause_accepted env d -> yields is_ok (time_sleep env d).
Proof.
  intros H Hpa w. unfold result, time_sleep.
  rewrite (sleep_error_none env _ d H (Hpa _)). exact I.
Qed.

End Yields.

(** ** The clock and the tables along a run *)

Section Frames.

Lemma frames_ret {A} (a : A) : frames (ret a).
Proof. intros w. cbn. repeat split; lia. Qed.

Lemma frames_raise {A} (e : Exn) : frames (@raise A e).
Proof. intros w. cbn. repeat split; lia. Qed.

Lemma frames_log (l : Level) (msg : string) : frames (log l msg).
Proof. intros w. cbn. repeat split; lia. Qed.

Lemma frames_utcnow : frames utcnow.
Proof. intros w. cbn. repeat split; lia. Qed.

Lemma frames_bind {A B} (m : M A) (k : A -> M B) :
  frames m -> (forall a, frames (k a)) -> frames (bind m k).
Proof.
  intros Hm Hk w. destruct (Hm w) as (Hc & Hl & Hd).
  unfold exec, bind in *. destruct (m w) as [[a|e] w1]; simpl in *; [|auto].
  destruct (Hk a w1) as (Hc' & Hl' & Hd'). unfold exec in *.
  repeat split; [lia | congruence | congruence].
Qed.

Lemma frames_try_except {A} (m : M A) (h : Exn -> M A) :
  frames m -> (forall e, frames (h e)) -> frames (try_except m h).
Proof.
  intros Hm Hh w. destruct (Hm w) as (Hc & Hl & Hd).
  unfold exec, try_except in *. destruct (m w) as [[a|e] w1]; simpl in *; [auto|].
  destruct (Hh e w1) as (Hc' & Hl' & Hd'). unfold exec in *.
  repeat split; [lia | congruence | congruence].
Qed.

Lemma frames_try_except_class {A} (c : Exn -> bool) (m : M A) (h : Exn -> M A) :
  frames m -> (forall e, frames (h e)) -> frames (try_except_class c m h).
Proof.
  intros Hm Hh w. destruct (Hm w) as (Hc & Hl & Hd).
  unfold exec, try_except_class in *. destruct (m w) as [[a|e] w1]; simpl in *; [auto|].
  destruct (c e); [|auto].
  destruct (Hh e w1) as (Hc' & Hl' & Hd'). unfold exec in *.
  repeat split; [lia | congruence | congruence].
Qed.

Lemma frames_for_each {A} (body : A -> M unit) (l : list A) :
  (forall x, frames (body x)) -> frames (for_each body l).
Proof.
  intros Hb. induction l as [|x r IH]; cbn [for_each].
  - apply frames_ret.
  - apply frames_bind; auto.
Qed.

Context (env : Env).

Lemma frames_after_call (e : Event) (w : World) :
  clock w <= clock (after_call env e w)
  /\ domain_last_request (after_call env e w) = domain_last_request w
  /\ domain_crawl_delay (after_call env e w) = domain_crawl_delay w.
Proof. cbn. repeat split; lia. Qed.

Lemma frames_robots_io (u : string) : frames (robots_io env u).
Proof.
  intros w. unfold exec, robots_io.
  destruct (robots_read env (call_index w) u); apply frames_after_call.
Qed.

Lemma frames_session_get (u : string) (ps : Params) : frames (session_get env u ps).
Proof.
  intros w. unfold exec, session_get.
  destruct (http_get env (call_index w) u ps); apply frames_after_call.
Qed.

Lemma frames_adls_call (c : SdkCall) : frames (adls_call env c).
Proof. intros w. apply frames_after_call. Qed.

Lemma frames_local_call (op : LocalOp) : frames (local_call env op).
Proof. intros w. apply frames_after_call. Qed.

Lemma frames_sleep_fun (f : World -> Z) : frames (fun w => time_sleep env (f w) w).
Proof.
  intros w. unfold exec, time_sleep.
  destruct (sleep_error env (call_index w) (f w)) as [e|] eqn:He; cbn; [repeat split; lia|].
  assert (0 <= f w).
  { unfold sleep_error in He. destruct (Z.ltb_spec (f w) 0); [discriminate | assumption]. }
  repeat split; lia.
Qed.

Lemma frames_time_sleep (d : Z) : frames (time_sleep env d).
Proof. exact (frames_sleep_fun (fun _ => d)). Qed.

End Frames.

Ltac frames_step :=
  match goal with
  | |- frames (bind _ _) => apply frames_bind; [| intros ?]
  | |- frames (ret _) => apply frames_ret
  | |- frames (raise _) => apply frames_raise
  | |- frames (log _ _) => apply frames_log
  | |- frames utcnow => apply frames_utcnow
  | |- frames (try_except _ _) => apply frames_try_except; [| intros ?]
  | |- frames (try_except_class _ _ _) => apply frames_try_except_class; [| intros ?]
  | |- frames (for_each _ _) => apply frames_for_each; intros ?
  | |- frames (adls_call _ _) => apply frames_adls_call
  | |- frames (local_call _ _) => apply frames_local_call
  | |- frames (session_get _ _ _) => apply frames_session_get
  | |- frames (robots_io _ _) => apply frames_robots_io
  | |- frames (time_sleep _ _) => apply frames_time_sleep
  | |- frames (fun w => time_sleep _ _ w) => apply frames_sleep_fun
  | |- frames (if ?b then _ else _) => destruct b
  | |- frames (match ?x with _ => _ end) => destruct x
  end.

Section Keeps.
Context (Inv : World -> Prop) `{!Framed Inv}.

Lemma keeps_weaken {A} (Q Q' : Res A -> Prop) (m : M A) :
  (forall r, Q r -> Q' r) -> keeps Inv Q m -> keeps Inv Q' m.
Proof. intros H Hm w Hw. destruct (Hm w Hw). auto. Qed.

(** A result that holds in every world, of a run that touches neither
    table *)
Lemma keeps_of {A} (Q : Res A -> Prop) (m : M A) :
  yields Q m -> frames m -> keeps Inv Q m.
Proof.
  intros Hy Hf w Hw. split; [apply Hy|].
  destruct (Hf w) as (Hc & Hl & Hd). exact (framed w _ Hc Hl Hd Hw).
Qed.

Lemma keeps_bind {A B} (Q : Res B -> Prop) (m : M A) (k : A -> M B) :
  keeps Inv (fun r => match r with Ok a => keeps Inv Q (k a) | Raise e => Q (Raise e) end) m ->
  keeps Inv Q (bind m k).
Proof.
  intros Hm w Hw. destruct (Hm w Hw) as (Hr & Hi). unfold result, exec, bind in *.
  destruct (m w) as [[a|e] w']; simpl in *; [apply Hr, Hi | auto].
Qed.

Lemma keeps_ok_then {A B} (Q : Res B -> Prop) (m : M A) (k : A -> M B) :
  keeps Inv is_ok m -> (forall a, keeps Inv Q (k a)) -> keeps Inv Q (bind m k).
Proof.
  intros Hm Hk. apply keeps_bind. eapply keeps_weaken; [|exact Hm].
  intros [a|e] H; [apply Hk | destruct H].
Qed.

Lemma keeps_for_each {A} (body : A -> M unit) (l : list A) :
  Forall (fun x => keeps Inv is_ok (body x)) l -> keeps Inv is_ok (for_each body l).
Proof.
  induction 1 as [|x l Hx Hl IH]; cbn [for_each].
  - intros w Hw. split; [exact I | exact Hw].
  - apply keeps_ok_then; [exact Hx | intros _; exact IH].
Qed.

End Keeps.

#[export] Instance Framed_tables_sane (env : Env) : Framed (tables_sane env).
Proof.
  intros w w' Hc Hl Hd (Hst & Hdl). split.
  - intros d t. rewrite Hl. intros H. specialize (Hst d t H). lia.
  - intros d ms. rewrite Hd. apply Hdl.
Qed.

Section RowResults.
Context (lib : Lib) (cfg : Config) (env : Env).
Context (Hlocal : local_store_works env).
Context (Hreq : only_request_exceptions env).
Context (Hback : backoff_usable lib cfg env).
Context (Hdelays : delays_sleepable lib cfg env).

#[local] Abbreviation sane := (tables_sane env).

(** Sequencing after a step that cannot fail *)
Lemma yields_ok_then {A B} (Q : Res B -> Prop) (m : M A) (k : A -> M B) :
  yields is_ok m -> (forall a, yields Q (k a)) -> yields Q (bind m k).
Proof.
  intros Hm Hk. apply yields_bind. eapply yields_weaken; [|exact Hm].
  intros [a|e] H; [apply Hk | destruct H].
Qed.

Lemma yields_is_ok_log (l : Level) (msg : string) : yields is_ok (log l msg).
Proof. apply yields_log. exact I. Qed.

Lemma save_local_bytes_ok (dir file : string) (data : Payload) :
  yields is_ok (FetchSeed.save_local_bytes env dir file data).
Proof.
  unfold FetchSeed.save_local_bytes, FetchSeed.ensure_local_path.
  apply yields_ok_then; [apply yields_local_call, Hlocal | intros _].
  apply yields_ok_then; [apply yields_local_call, Hlocal | intros _].
  apply yields_ret. exact I.
Qed.

Lemma save_local_text_ok (dir file : string) (data : Payload) :
  yields is_ok (FetchSeed.save_local_text env dir file data).
Proof. apply save_local_bytes_ok. Qed.

Lemma commit_generic_ok (wr : option FetchSeed.ADLSWriter) (outdir filename body : string)
    (meta : Json) :
  yields is_ok (FetchSeed.commit_generic cfg env wr outdir filename body meta).
Proof.
  unfold FetchSeed.commit_generic. cbv zeta.
  destruct wr as [wr|]; [apply yields_try_except_ok; intros e|];
    repeat first
      [ apply yields_ok_then;
        [ first [ apply yields_is_ok_log | apply save_local_bytes_ok | apply save_local_text_ok ]
        | intros _ ]
      | apply yields_is_ok_log ].
Qed.

Lemma lookup_yields (d : option string) :
  yields (fun r => match r with
                   | Ok o => forall p, o = Some p -> exists i u, robots_read env i u = Some p
                   | Raise _ => False
                   end) (FetchSeed.get_robots_parser_for_domain env d).
Proof.
  intros w. destruct (lookup_run env d w) as (w1 & Hr & _).
  unfold result. rewrite Hr. simpl. intros p Hp. eauto.
Qed.

Lemma frames_lookup (d : option string) :
  frames (FetchSeed.get_robots_parser_for_domain env d).
Proof. unfold FetchSeed.get_robots_parser_for_domain. cbv zeta. repeat frames_step. Qed.

Lemma effective_delay_sleepable (w : World) (d : option string) :
  sane w -> sleepable env (FetchSeed.effective_delay cfg w d).
Proof.
  intros (_ & Hdl). unfold FetchSeed.effective_delay.
  destruct (domain_crawl_delay w !! d) as [ms|] eqn:Hms; cbn [default].
  - exact (Hdl d ms Hms).
  - exact (proj1 Hdelays).
Qed.

(** With sane tables [polite_fetch] returns, and the tables are sane
    again: the stamp it sets is the clock reading and the delay it
    stores is one a robots.txt of the run declares. *)
Lemma polite_fetch_keeps (url : string) (params : Params) :
  keeps sane is_ok (FetchSeed.polite_fetch lib cfg env url params).
Proof.
  intros w Hw. unfold result, exec.
  destruct (polite_fetch_run lib cfg env url params w)
    as (w1 & Hc & Hl & Hd & _ & [(_ & w' & -> & Hc' & _ & Hl' & Hd') |
         [(_ & w2 & w3 & ok & Hwait & _ & Hc3 &
           [(r & _ & -> & Hl3 & Hd3 & _ & Hd3') | (e & _ & Hget & -> & Hl3 & Hd3)]) |
          (_ & e & w2 & Hwait & _)]]).
  - split; [exact I|]. cbn [snd]. apply (framed w w'); [lia | assumption | assumption | exact Hw].
  - split; [exact I|]. cbn [snd].
    destruct (wait_run_ok cfg env _ _ _ Hwait) as (Hc2 & _).
    destruct Hw as (Hst & Hdl). split.
    + intros d t. rewrite Hl3.
      destruct (decide (FetchSeed.get_domain lib url = d)) as [<-|Hne].
      * rewrite lookup_insert_eq. intros [= <-]. lia.
      * rewrite lookup_insert_ne by assumption. intros H. specialize (Hst d t H). lia.
    + intros d ms.
      destruct (decide (d = FetchSeed.get_domain lib url)) as [->|Hne].
      * rewrite Hd3'.
        destruct (declared_ms lib cfg (polite_lookup lib env url w)) as [ms'|] eqn:Hms;
          [|apply Hdl].
        intros [= <-].
        unfold polite_lookup in Hms.
        destruct (FetchSeed.opt_truthy (FetchSeed.get_domain lib url)); [|discriminate Hms].
        destruct (robots_read env (call_index w) _) as [p|] eqn:Hread; [|discriminate Hms].
        exact (proj2 Hdelays _ _ p ms' Hread Hms).
      * rewrite (Hd3 d Hne). apply Hdl.
  - rewrite (Hreq _ _ _ _ Hget). split; [exact I|]. cbn [snd].
    destruct (wait_run_ok cfg env _ _ _ Hwait) as (Hc2 & _).
    apply (framed w w3); [lia | assumption | assumption | exact Hw].
  - exfalso.
    assert (Hw1 : sane w1) by (apply (framed w w1); assumption).
    destruct (wait_total cfg env (FetchSeed.get_domain lib url) w1) as (w2' & Hok).
    + split; [apply effective_delay_sleepable, Hw1 | apply (proj1 Hw1)].
    + rewrite Hok in Hwait. discriminate.
Qed.

Lemma backoff_ok (resp : Response) :
  response_bool lib resp = true -> yields is_ok (FetchSeed.backoff_429 lib cfg env resp).
Proof.
  intros Hb. unfold FetchSeed.backoff_429.
  destruct (Z.eqb_spec (status_code resp) 429) as [H429|_]; [|apply yields_ret; exact I].
  specialize (Hback resp Hb H429).
  assert (Hsleep : forall n, 0 <= n -> sleepable env (n * 1000) ->
            yields is_ok (log INFO "Received 429. Backing off %ds" ;;;
                          (fun w => time_sleep env (n * 1000 + random_uniform_0_1 env w) w))).
  { intros n Hn Hsl. apply yields_ok_then; [apply yields_is_ok_log | intros _].
    intros w. pose proof (random_uniform_bounds env w).
    apply yields_time_sleep; [lia|].
    intros i. specialize (Hsl i). lia. }
  destruct (header_get "Retry-After" (headers resp)) as [v|].
  - destruct Hback as (n & -> & Hn & Hsl). intros w. exact (Hsleep n Hn Hsl w).
  - destruct Hback as (Hn & Hsl). intros w. exact (Hsleep _ Hn Hsl w).
Qed.

Lemma frames_backoff (resp : Response) : frames (FetchSeed.backoff_429 lib cfg env resp).
Proof. unfold FetchSeed.backoff_429. repeat frames_step. Qed.

Lemma frames_commit_generic (wr : option FetchSeed.ADLSWriter)
    (outdir filename body : string) (meta : Json) :
  frames (FetchSeed.commit_generic cfg env wr outdir filename body meta).
Proof.
  unfold FetchSeed.commit_generic, FetchSeed.upload_text, FetchSeed.upload_bytes,
    FetchSeed.save_local_bytes, FetchSeed.save_local_text, FetchSeed.ensure_local_path.
  cbv zeta. repeat frames_step.
Qed.

Lemma frames_robots_skip (wr : option FetchSeed.ADLSWriter)
    (source_name url notes outdir : string) :
  frames (FetchSeed.robots_skip lib cfg env wr source_name url notes outdir).
Proof.
  unfold FetchSeed.robots_skip, FetchSeed.upload_text, FetchSeed.upload_bytes,
    FetchSeed.save_local_bytes, FetchSeed.save_local_text, FetchSeed.ensure_local_path.
  cbv zeta. repeat frames_step.
Qed.

Lemma frames_store_pair (wr : option FetchSeed.ADLSWriter) (outdir filename body : string)
    (meta : Json) :
  frames (FetchSeed.store_pair cfg env wr outdir filename body meta).
Proof.
  unfold FetchSeed.store_pair, FetchSeed.upload_text, FetchSeed.upload_bytes,
    FetchSeed.save_local_bytes, FetchSeed.save_local_text, FetchSeed.ensure_local_path.
  repeat frames_step.
Qed.

Lemma frames_usaspending_branch (dry_run : bool) (wr : option FetchSeed.ADLSWriter)
    (source_name api_params notes outdir : string) :
  frames (FetchSeed.usaspending_branch lib cfg env dry_run wr source_name api_params
            notes outdir).
Proof.
  unfold FetchSeed.usaspending_branch, FetchSeed.read_content. cbv zeta.
  repeat first [ apply frames_store_pair | frames_step ].
Qed.

Lemma frames_sam_branch (dry_run : bool) (wr : option FetchSeed.ADLSWriter)
    (source_name api_params notes outdir : string) :
  frames (FetchSeed.sam_branch lib cfg env dry_run wr source_name api_params notes outdir).
Proof.
  unfold FetchSeed.sam_branch, FetchSeed.read_content. cbv zeta.
  repeat first [ apply frames_store_pair | frames_step ].
Qed.

Lemma frames_make_adls_writer (local_only : bool) :
  frames (FetchSeed.make_adls_writer cfg env local_only).
Proof.
  unfold FetchSeed.make_adls_writer, FetchSeed.ADLSWriter_init. repeat frames_step.
Qed.

Lemma yields_is_ok_utcnow_then {B} (k : Z -> M B) :
  (forall t, yields is_ok (k t)) -> yields is_ok (bind utcnow k).
Proof. intros Hk. apply yields_ok_then; [apply yields_utcnow; intros; exact I | exact Hk]. Qed.

Lemma robots_skip_local_ok (source_name url notes outdir : string) :
  yields is_ok (FetchSeed.robots_skip lib cfg env None source_name url notes outdir).
Proof.
  unfold FetchSeed.robots_skip.
  apply yields_ok_then; [apply yields_is_ok_log | intros _].
  apply yields_is_ok_utcnow_then. intros t. cbv zeta.
  apply yields_ok_then; [apply save_local_text_ok | intros _].
  apply yields_is_ok_log.
Qed.

(** What the generic path does with the answer of [polite_fetch] *)
Lemma after_fetch_ok (wr : option FetchSeed.ADLSWriter) (row : FetchSeed.Row)
    (source_name url notes outdir basename : string) (info : FetchSeed.FetchInfo) :
  keeps sane is_ok
    (match info with
     | FetchSeed.SkippedByRobots _ => log INFO "Skipped by robots: %s"
     | FetchSeed.FetchError _ _ => log WARNING "Fetch error for %s: %s"
     | FetchSeed.Fetched resp =>
         if negb (response_bool lib resp) then log WARNING "No response for %s"
         else
           match content resp with
           | None => log WARNING "Failed to read content for %s: %s"
           | Some body =>
               let content_type :=
                 Py.lower (default "" (header_get "Content-Type" (headers resp))) in
               let ext := FetchSeed.choose_ext lib content_type basename in
               t <- utcnow ;;
               let filename_ts :=
                 Py.rstrip "." basename +:+ "_" +:+ strftime_stamp lib t +:+ ext in
               let meta :=
                 FetchSeed.generic_meta lib source_name url notes content_type body t resp row in
               FetchSeed.commit_generic cfg env wr outdir filename_ts body meta ;;;
               FetchSeed.backoff_429 lib cfg env resp
           end
     end).
Proof.
  apply keeps_of; try exact _.
  - destruct info as [u|resp|err u]; try apply yields_is_ok_log.
    destruct (response_bool lib resp) eqn:Hb; cbn [negb]; [|apply yields_is_ok_log].
    destruct (content resp) as [body|]; [|apply yields_is_ok_log].
    cbv zeta. apply yields_is_ok_utcnow_then. intros t.
    apply yields_ok_then; [apply commit_generic_ok | intros _].
    apply backoff_ok, Hb.
  - cbv zeta.
    repeat first [ apply frames_commit_generic | apply frames_backoff | frames_step ].
Qed.

Lemma generic_path_ok (dry_run : bool) (wr : option FetchSeed.ADLSWriter) (row : FetchSeed.Row)
    (source_name url notes outdir basename : string) :
  wr = None \/ robots_never_disallow cfg env ->
  keeps sane is_ok (FetchSeed.generic_path lib cfg env dry_run wr row source_name url notes
                      outdir basename).
Proof.
  intros Hskip. unfold FetchSeed.generic_path.
  destruct (negb (Py.truthy url));
    [apply keeps_of; try exact _; [apply yields_is_ok_log | apply frames_log]|].
  apply keeps_bind; try exact _.
  eapply keeps_weaken; try exact _; [| apply keeps_of; try exact _; [apply lookup_yields | apply frames_lookup]].
  intros [rp|e] Hrp; [|destruct Hrp].
  assert (Hgo : keeps sane is_ok
    (if dry_run then log INFO "[dry-run] would fetch %s"
     else
       resp_info <- FetchSeed.polite_fetch lib cfg env url [] ;;
       match resp_info with
       | FetchSeed.SkippedByRobots _ => log INFO "Skipped by robots: %s"
       | FetchSeed.FetchError _ _ => log WARNING "Fetch error for %s: %s"
       | FetchSeed.Fetched resp =>
           if negb (response_bool lib resp) then log WARNING "No response for %s"
           else
             match content resp with
             | None => log WARNING "Failed to read content for %s: %s"
             | Some body =>
                 let content_type :=
                   Py.lower (default "" (header_get "Content-Type" (headers resp))) in
                 let ext := FetchSeed.choose_ext lib content_type basename in
                 t <- utcnow ;;
                 let filename_ts :=
                   Py.rstrip "." basename +:+ "_" +:+ strftime_stamp lib t +:+ ext in
                 let meta :=
                   FetchSeed.generic_meta lib source_name url notes content_type body t resp row in
                 FetchSeed.commit_generic cfg env wr outdir filename_ts body meta ;;;
                 FetchSeed.backoff_429 lib cfg env resp
             end
       end)).
  { destruct dry_run; [apply keeps_of; try exact _; [apply yields_is_ok_log | apply frames_log]|].
    apply keeps_ok_then; try exact _; [apply polite_fetch_keeps | intros info].
    apply after_fetch_ok. }
  destruct rp as [p|]; [|exact Hgo].
  destruct (can_fetch p (USER_AGENT cfg) url) eqn:Hcan; cbn [negb]; [exact Hgo|].
  destruct Hskip as [-> | Hnever].
  - apply keeps_of; try exact _; [apply robots_skip_local_ok | apply frames_robots_skip].
  - destruct (Hrp p eq_refl) as (i & u & Hread).
    rewrite (Hnever i u p url Hread) in Hcan. discriminate.
Qed.

Lemma process_row_ok (dry_run : bool) (wr : option FetchSeed.ADLSWriter) (row : FetchSeed.Row) :
  wr = None \/ robots_never_disallow cfg env ->
  is_Some (urlparse lib (row_url row)) ->
  keeps sane is_ok (FetchSeed.process_row lib cfg env dry_run wr row).
Proof.
  intros Hskip [parsed Hparse]. unfold FetchSeed.process_row. cbv zeta.
  fold (row_url row). rewrite Hparse.
  unfold FetchSeed.build_output_paths. cbv zeta.
  apply keeps_ok_then; try exact _.
  { apply keeps_of; try exact _; [| repeat frames_step].
    apply yields_is_ok_utcnow_then. intros t. apply yields_ret. exact I. }
  intros outdir.
  apply keeps_ok_then; try exact _; [apply keeps_of; try exact _; [apply yields_ret; exact I | apply frames_ret] | intros p].
  apply keeps_ok_then; try exact _.
  { apply keeps_of; try exact _.
    - destruct (_ || _); [|apply yields_ret; exact I].
      unfold FetchSeed.usaspending_branch. cbv zeta. apply yields_try_except_ok.
      intros e. apply yields_ok_then; [apply yields_is_ok_log | intros _].
      apply yields_ret. exact I.
    - destruct (_ || _); [apply frames_usaspending_branch | apply frames_ret]. }
  intros [|]; [apply keeps_of; try exact _; [apply yields_ret; exact I | apply frames_ret]|].
  apply keeps_ok_then; try exact _.
  { apply keeps_of; try exact _.
    - destruct (_ || _); [|apply yields_ret; exact I].
      unfold FetchSeed.sam_branch. destruct (SAM_API_KEY cfg) as [key|]; [|apply yields_ret; exact I].
      destruct (Py.truthy key); [|apply yields_ret; exact I].
      apply yields_try_except_ok.
      intros e. apply yields_ok_then; [apply yields_is_ok_log | intros _].
      apply yields_ret. exact I.
    - destruct (_ || _); [apply frames_sam_branch | apply frames_ret]. }
  intros [|]; [apply keeps_of; try exact _; [apply yields_ret; exact I | apply frames_ret]|].
  apply generic_path_ok, Hskip.
Qed.

Lemma make_adls_writer_yields (local_only : bool) :
  yields (fun r => match r with
                   | Ok o => local_only = true -> o = None
                   | Raise _ => False
                   end) (FetchSeed.make_adls_writer cfg env local_only).
Proof.
  unfold FetchSeed.make_adls_writer.
  destruct (ADLS_ACCOUNT cfg) as [account|]; [|intros w; simpl; auto].
  destruct (ADLS_FILESYSTEM cfg) as [fs|]; [|intros w; simpl; auto].
  destruct local_only.
  - cbn [negb]. rewrite Bool.andb_false_r. intros w. simpl. auto.
  - destruct (_ && _); [|intros w; simpl; discriminate].
    apply yields_try_except. eapply yields_weaken; [|apply yields_any].
    intros [o|e] _; [discriminate|]. intros w. simpl. discriminate.
Qed.

End RowResults.


Section RateLimiterClaims.
Context (lib : Lib) (cfg : Config) (env : Env).

#[local] Abbreviation get_domain := (FetchSeed.get_domain lib).
#[local] Abbreviation effective_delay := (FetchSeed.effective_delay cfg).
#[local] Abbreviation polite_fetch := (FetchSeed.polite_fetch lib cfg env).

Lemma polite_fetch_stamp (url : string) (params : Params) (w : World) :
  match result (polite_fetch url params) w with
  | Ok (FetchSeed.Fetched _) =>
      domain_last_request (exec (polite_fetch url params) w) !! get_domain url
      = Some (clock (exec (polite_fetch url params) w))
  | _ => domain_last_request (exec (polite_fetch url params) w) = domain_last_request w
  end.
Proof.
  unfold result, exec.
  destruct (polite_fetch_run lib cfg env url params w)
    as (w1 & _ & _ & _ & _ & [(_ & w' & Hpf & _ & _ & Hl1 & _) |
         [(_ & w2 & w3 & ok & _ & _ & _ & [(r & _ & Hpf & Hl1 & _) | (e & _ & _ & Hpf & Hl1 & _)]) |
          (_ & e & w' & _ & Hpf & _ & _ & Hl1 & _)]]);
    rewrite Hpf; simpl; auto.
  - rewrite Hl1. apply lookup_insert_eq.
  - destruct (is_request_exception e); assumption.
Qed.

(** C1 (amended). In a run of the rate limiter started at a positive
    clock reading, a request that [polite_fetch] issues to a domain
    starts at least the domain's effective delay (as in force when the
    call begins) after the start of every earlier request to that domain
    that returned a response.  The stamp [domain_last_request] of the
    domain is set to the clock when the call returns a response and is
    left as it was otherwise: a robots skip never stamps. *)
Theorem polite_fetch_spacing (t0 : Z) (urls : list string) (url : string) (params : Params) :
  0 < t0 ->
  let w1 := exec (polite_run lib cfg env urls) (initial_world t0) in
  let w2 := exec (polite_fetch url params) w1 in
  (forall u1 p1 s1 s2 ok2,
      In (EvGet u1 p1 s1 true) (trace w1) ->
      get_domain u1 = get_domain url ->
      In (EvGet url params s2 ok2) (emitted (polite_fetch url params) w1) ->
      s1 + effective_delay w1 (get_domain url) <= s2)
  /\ match result (polite_fetch url params) w1 with
     | Ok (FetchSeed.Fetched _) => domain_last_request w2 !! get_domain url = Some (clock w2)
     | _ => domain_last_request w2 = domain_last_request w1
     end.
Proof.
  intros Ht0 w1 w2. split; [|apply polite_fetch_stamp].
  assert (Hinv : stamps_ok lib w1).
  { apply polite_run_preserves, stamps_ok_initial, Ht0. }
  intros u1 p1 s1 s2 ok2 Hin1 Hdom Hin2.
  destruct Hinv as (Hpos & Hst & Hev).
  destruct (Hev u1 p1 s1 Hin1) as (t & Hl & Hle). rewrite Hdom in Hl.
  destruct (polite_fetch_trace lib cfg env url params w1) as (new & Ht & _ & Hget & _).
  rewrite (emitted_spec _ _ _ Ht) in Hin2.
  destruct (Hget _ _ _ _ Hin2) as (_ & _ & _ & Hgap & _).
  specialize (Hgap t Hl). specialize (Hst _ _ Hl). lia.
Qed.

(** The first request to a domain, from any world in which neither a
    stamp nor a delay is stored for it *)
Lemma first_request_from (url : string) (params : Params) (w : World) :
  domain_last_request w !! get_domain url = None ->
  domain_crawl_delay w !! get_domain url = None ->
  FetchSeed.wait_for_domain cfg env (get_domain url) w = (Ok tt, w)
  /\ (forall ms, ~ In (EvSleep ms) (emitted (polite_fetch url params) w))
  /\ effective_delay w (get_domain url) = DEFAULT_CRAWL_DELAY cfg
  /\ domain_crawl_delay
       (exec (FetchSeed.get_robots_parser_for_domain env (get_domain url)) w)
     = domain_crawl_delay w
  /\ match result (polite_fetch url params) w with
     | Ok (FetchSeed.Fetched _) =>
         domain_crawl_delay (exec (polite_fetch url params) w) !! get_domain url
         = declared_ms lib cfg (polite_lookup lib env url w)
     | _ => domain_crawl_delay (exec (polite_fetch url params) w) = domain_crawl_delay w
     end.
Proof.
  intros Hlast Hdelay. split; [|split; [|split; [|split]]].
  - unfold FetchSeed.wait_for_domain. rewrite Hlast. reflexivity.
  - intros ms Hin.
    assert (Hlk : forall e, In e (polite_lookup_events lib env url w) -> e <> EvSleep ms).
    { intros e He. unfold polite_lookup_events in He.
      destruct (FetchSeed.opt_truthy _); simpl in He; [|tauto].
      destruct He as [<-|[]]. discriminate. }
    destruct (polite_fetch_run lib cfg env url params w)
      as (w1 & _ & Hl & _ & Ht & [(_ & w' & Hpf & _ & Ht' & _) |
           [(_ & w2 & w3 & ok & Hw & Ht3 & _ & Hcase) |
            (_ & e & w' & Hw & _)]]).
    3:{ unfold FetchSeed.wait_for_domain in Hw. rewrite Hl, Hlast in Hw. discriminate Hw. }
    + assert (Htr : trace (exec (polite_fetch url params) w)
                    = rev (polite_lookup_events lib env url w) ++ trace w).
      { unfold exec. rewrite Hpf, rev_lookup_events. simpl. congruence. }
      rewrite (emitted_spec _ _ _ Htr) in Hin. eapply Hlk; eauto.
    + unfold FetchSeed.wait_for_domain in Hw. rewrite Hl, Hlast in Hw. injection Hw as <-.
      assert (Htr : trace (exec (polite_fetch url params) w)
                    = rev (polite_lookup_events lib env url w
                           ++ [EvGet url params (clock w1) ok]) ++ trace w).
      { unfold exec. rewrite rev_app_distr, rev_lookup_events. simpl.
        destruct Hcase as [(r & _ & Hpf & _) | (e & _ & _ & Hpf & _)];
          rewrite Hpf; simpl; rewrite Ht3, Ht; reflexivity. }
      rewrite (emitted_spec _ _ _ Htr) in Hin. apply in_app_or in Hin.
      destruct Hin as [Hin|[Hin|[]]]; [|discriminate]. eapply Hlk; eauto.
  - unfold FetchSeed.effective_delay. rewrite Hdelay. reflexivity.
  - destruct (lookup_run env (get_domain url) w) as (w1 & Hr & _ & _ & Hd & _).
    unfold exec. rewrite Hr. exact Hd.
  - unfold result, exec.
    destruct (polite_fetch_run lib cfg env url params w)
      as (w1 & _ & _ & _ & _ & [(_ & w' & Hpf & _ & _ & _ & Hd1) |
           [(_ & w2 & w3 & ok & _ & _ & _ &
             [(r & _ & Hpf & _ & _ & _ & Hd1) | (e & _ & _ & Hpf & _ & Hd1)]) |
            (_ & e & w' & _ & Hpf & _ & _ & _ & Hd1)]]);
      rewrite Hpf; simpl; auto.
    + rewrite Hd1, Hdelay. destruct (declared_ms lib cfg _); reflexivity.
    + destruct (is_request_exception e); assumption.
Qed.

(** A delay is stored for a domain only together with a stamp. *)
Lemma delay_needs_stamp (urls : list string) :
  forall w,
    (forall d, domain_last_request w !! d = None -> domain_crawl_delay w !! d = None) ->
    forall d, domain_last_request (exec (polite_run lib cfg env urls) w) !! d = None ->
              domain_crawl_delay (exec (polite_run lib cfg env urls) w) !! d = None.
Proof.
  induction urls as [|u r IH]; intros w Hw; [exact Hw|].
  unfold polite_run in *. simpl. unfold exec, bind.
  assert (H1 : forall d, domain_last_request (snd (polite_fetch u [] w)) !! d = None ->
                         domain_crawl_delay (snd (polite_fetch u [] w)) !! d = None).
  { destruct (polite_fetch_run lib cfg env u [] w)
      as (w1 & _ & _ & _ & _ & [(_ & w' & -> & _ & _ & Hl & Hd) |
           [(_ & w2 & w3 & ok & _ & _ & _ &
             [(x & _ & -> & Hl & Hd & _) | (e & _ & _ & -> & Hl & Hd)]) |
            (_ & e & w' & _ & -> & _ & _ & Hl & Hd)]]);
      simpl; intros d.
    - rewrite Hl, Hd. apply Hw.
    - rewrite Hl. destruct (decide (get_domain u = d)) as [<-|Hne].
      + rewrite lookup_insert_eq. discriminate.
      + rewrite lookup_insert_ne by assumption. rewrite Hd by auto. apply Hw.
    - rewrite Hl, Hd. apply Hw.
    - rewrite Hl, Hd. apply Hw. }
  destruct (polite_fetch u [] w) as [[a|e] w1]; simpl in *; [|exact H1].
  intros d. apply (IH w1 H1 d).
Qed.

(** C9. In a run of the rate limiter, as long as no request to the
    domain of [url] has been recorded, the politeness wait returns at
    once and leaves the world as it is, and [polite_fetch] sleeps at no
    point; the delay in force for the domain is the default one until
    the call returns, whatever robots.txt declares: the lookup does not
    touch the delay table, and the call stores the declared delay
    exactly when it records the request, that is when it returns a
    response. *)
Theorem first_request_unthrottled (t0 : Z) (urls : list string) (url : string)
    (params : Params) :
  let w := exec (polite_run lib cfg env urls) (initial_world t0) in
  domain_last_request w !! get_domain url = None ->
  FetchSeed.wait_for_domain cfg env (get_domain url) w = (Ok tt, w)
  /\ (forall ms, ~ In (EvSleep ms) (emitted (polite_fetch url params) w))
  /\ effective_delay w (get_domain url) = DEFAULT_CRAWL_DELAY cfg
  /\ domain_crawl_delay
       (exec (FetchSeed.get_robots_parser_for_domain env (get_domain url)) w)
     = domain_crawl_delay w
  /\ match result (polite_fetch url params) w with
     | Ok (FetchSeed.Fetched _) =>
         domain_crawl_delay (exec (polite_fetch url params) w) !! get_domain url
         = declared_ms lib cfg (polite_lookup lib env url w)
     | _ => domain_crawl_delay (exec (polite_fetch url params) w) = domain_crawl_delay w
     end.
Proof.
  intros w Hlast. apply first_request_from; [exact Hlast|].
  apply (delay_needs_stamp urls (initial_world t0)); [|exact Hlast].
  intros d _. apply lookup_empty.
Qed.

(** A call whose own robots.txt retrieval raises *)
Lemma unreadable_lookup_proceeds (url : string) (params : Params) (w : World) :
  robots_read env (call_index w) (FetchSeed.robots_txt_url (get_domain url)) = None ->
  wait_in_range cfg env w (get_domain url) ->
  (exists s ok, In (EvGet url params s ok) (emitted (polite_fetch url params) w))
  /\ result (polite_fetch url params) w <> Ok (FetchSeed.SkippedByRobots url)
  /\ domain_crawl_delay (exec (polite_fetch url params) w) = domain_crawl_delay w
  /\ (forall t s ok,
        domain_last_request w !! get_domain url = Some t -> t <> 0 ->
        In (EvGet url params s ok) (emitted (polite_fetch url params) w) ->
        t + default (DEFAULT_CRAWL_DELAY cfg) (domain_crawl_delay w !! get_domain url) <= s).
Proof.
  intros Hrob Hrange.
  assert (Hlk : polite_lookup lib env url w = None).
  { unfold polite_lookup. rewrite Hrob. destruct (FetchSeed.opt_truthy _); reflexivity. }
  split; [|split; [|split]].
  - destruct (polite_fetch_emitted_in_range lib cfg env url params w Hrange)
      as [(Hdis & _) | (_ & sleeps & s & ok & _ & ->)].
    + rewrite Hlk in Hdis. discriminate.
    + exists s, ok. rewrite !in_app_iff. right. right. left. reflexivity.
  - unfold result.
    destruct (polite_fetch_run_in_range lib cfg env url params w Hrange)
      as (w1 & _ & _ & _ & _ & [(Hdis & _) |
           (_ & w2 & w3 & ok & _ & _ & _ & [(r & _ & -> & _) | (e & _ & _ & -> & _)])]).
    + rewrite Hlk in Hdis. discriminate.
    + discriminate.
    + destruct (is_request_exception e); discriminate.
  - unfold exec.
    destruct (polite_fetch_run_in_range lib cfg env url params w Hrange)
      as (w1 & _ & _ & _ & _ & [(Hdis & _) |
           (_ & w2 & w3 & ok & _ & _ & _ &
            [(r & _ & -> & _ & _ & Hd & _) | (e & _ & _ & -> & _ & Hd)])]).
    + rewrite Hlk in Hdis. discriminate.
    + apply Hd, Hlk.
    + exact Hd.
  - intros t s ok Hl Hnz Hin.
    destruct (polite_fetch_trace lib cfg env url params w) as (new & Htr & _ & Hget & _).
    rewrite (emitted_spec _ _ _ Htr) in Hin.
    destruct (Hget _ _ _ _ Hin) as (_ & _ & _ & Hgap & _).
    apply (Hgap t Hl Hnz).
Qed.

(** While the robots.txt of a domain cannot be read, no delay is stored
    for the domain. *)
Lemma unreadable_stores_no_delay (d : option string) (urls : list string) :
  (forall i, robots_read env i (FetchSeed.robots_txt_url d) = None) ->
  forall w,
    domain_crawl_delay w !! d = None ->
    domain_crawl_delay (exec (polite_run lib cfg env urls) w) !! d = None.
Proof.
  intros Hrob. induction urls as [|u r IH]; intros w Hw; [exact Hw|].
  unfold polite_run in *. simpl. unfold exec, bind.
  assert (H1 : domain_crawl_delay (snd (polite_fetch u [] w)) !! d = None).
  { destruct (polite_fetch_run lib cfg env u [] w)
      as (w1 & _ & _ & _ & _ & [(_ & w' & -> & _ & _ & _ & Hd) |
           [(_ & w2 & w3 & ok & _ & _ & _ &
             [(x & _ & -> & _ & Hd & _ & Hd') | (e & _ & _ & -> & _ & Hd)]) |
            (_ & e & w' & _ & -> & _ & _ & _ & Hd)]]);
      simpl; try (rewrite Hd; exact Hw).
    destruct (decide (d = get_domain u)) as [->|Hne]; [|rewrite Hd by assumption; exact Hw].
    rewrite Hd'. unfold polite_lookup. rewrite Hrob.
    destruct (FetchSeed.opt_truthy _); exact Hw. }
  destruct (polite_fetch u [] w) as [[a|e] w1]; simpl in *; [|exact H1].
  apply (IH w1 H1).
Qed.


End RateLimiterClaims.

Import Demo Scenario.

(** C1, as stated, fails: with every request timing out, two consecutive
    requests to example.com start 20 ms apart although the effective
    delay is 5000 ms; the failed attempts leave no stamp. *)
Lemma spacing_broken_by_failed_request :
  let w := exec (polite_run demo_lib demo_cfg timeout_env [report_url; report_url])
                (initial_world 1000) in
  trace w = [EvGet report_url [] 1030 false; EvRobots example_robots 1020 true;
             EvGet report_url [] 1010 false; EvRobots example_robots 1000 true]
  /\ FetchSeed.effective_delay demo_cfg w example_com = 5000
  /\ domain_last_request w !! example_com = None
  /\ ~ (1010 + FetchSeed.effective_delay demo_cfg w example_com <= 1030).
Proof. vm_compute. repeat split; congruence. Qed.

Lemma polite_fetch_spacing_witness :
  0 < 1000
  /\ (let w1 := exec (polite_run demo_lib demo_cfg calm_env [report_url]) (initial_world 1000) in
      In (EvGet report_url [] 1010 true) (trace w1)
      /\ In (EvGet report_url [] 6020 true)
           (emitted (FetchSeed.polite_fetch demo_lib demo_cfg calm_env report_url []) w1)
      /\ 1010 + FetchSeed.effective_delay demo_cfg w1 example_com <= 6020).
Proof.
  split; [lia|]. intros w1.
  assert (H1 : In (EvGet report_url [] 1010 true) (trace w1)) by (vm_compute; auto).
  assert (H2 : In (EvGet report_url [] 6020 true)
                 (emitted (FetchSeed.polite_fetch demo_lib demo_cfg calm_env report_url []) w1))
    by (vm_compute; auto).
  split; [exact H1|]. split; [exact H2|].
  exact (proj1 (polite_fetch_spacing demo_lib demo_cfg calm_env 1000 [report_url] report_url []
                  ltac:(lia))
           report_url [] 1010 6020 true H1 eq_refl H2).
Defined.

(** A remark on the absence of a cache: robots.txt of example.com declared
    ten seconds when the first request read it; the lookup of the second
    request fails, the request is issued all the same, and it waits for
    the ten seconds the first request stored. *)
Lemma unreadable_robots_keeps_stored_delay :
  let w1 := exec (FetchSeed.polite_fetch demo_lib demo_cfg flaky_robots_env report_url [])
                 (initial_world 1000) in
  robots_read flaky_robots_env (call_index w1) example_robots = None
  /\ emitted (FetchSeed.polite_fetch demo_lib demo_cfg flaky_robots_env report_url []) w1
     = [EvRobots example_robots 1020 false; EvSleep 9990; EvGet report_url [] 11020 true]
  /\ FetchSeed.effective_delay demo_cfg w1 example_com = 10000
  /\ DEFAULT_CRAWL_DELAY demo_cfg = 5000.
Proof. vm_compute. repeat split; congruence. Qed.



Lemma first_request_unthrottled_witness :
  domain_last_request
    (exec (polite_run demo_lib demo_cfg calm_env ["https://example.org/a"]) (initial_world 1000))
    !! FetchSeed.get_domain demo_lib report_url = None
  /\ forall ms,
       ~ In (EvSleep ms)
            (emitted (FetchSeed.polite_fetch demo_lib demo_cfg calm_env report_url [])
               (exec (polite_run demo_lib demo_cfg calm_env ["https://example.org/a"])
                     (initial_world 1000))).
Proof.
  split; [reflexivity|].
  exact (proj1 (proj2 (first_request_unthrottled demo_lib demo_cfg calm_env 1000
                         ["https://example.org/a"] report_url [] eq_refl))).
Defined.




(** ** The API shortcuts inside a row *)

Section ApiRows.
Context (lib : Lib) (cfg : Config) (env : Env).

#[local] Instance Closed_any : Closed (fun _ : list Event => True).
Proof. split; auto. Qed.

(** A row only appends events to the trace. *)
Lemma after_usaspending_extends (dry_run : bool) (wr : option FetchSeed.ADLSWriter)
    (row : FetchSeed.Row) (source_name url api_params notes outdir basename : string)
    (done : bool) :
  emits (fun _ => True)
    (if done then ret tt
     else
       done <- (if Py.contains "sam.gov" (Py.lower url)
                   || (Py.contains "sam" (Py.lower api_params)
                       && FetchSeed.opt_truthy (SAM_API_KEY cfg))
                then FetchSeed.sam_branch lib cfg env dry_run wr source_name api_params notes outdir
                else ret false) ;;
       if done : bool then ret tt
       else FetchSeed.generic_path lib cfg env dry_run wr row source_name url notes
              outdir basename).
Proof.
  apply emits_after_usaspending; auto.
  - apply Closed_any.
  - intros. eapply emits_weaken; [|apply store_pair_emits]. auto.
  - intros. eapply emits_weaken; [|apply (commit_generic_paired lib)]; auto.
Qed.

Lemma generic_path_extends (dry_run : bool) (wr : option FetchSeed.ADLSWriter)
    (row : FetchSeed.Row) (source_name url notes outdir basename : string) :
  emits (fun _ => True)
    (FetchSeed.generic_path lib cfg env dry_run wr row source_name url notes outdir basename).
Proof.
  apply emits_generic_path; auto.
  - apply Closed_any.
  - intros. eapply emits_weaken; [|apply (commit_generic_paired lib)]; auto.
Qed.

(** Sequencing, when the first part begins with a known event *)
Lemma first_event_bind {A B} (m : M A) (k : A -> M B) (e : Event) (w : World) :
  (exists rest, trace (exec m w) = rev (e :: rest) ++ trace w) ->
  (forall a, emits (fun _ => True) (k a)) ->
  exists rest, trace (exec (bind m k) w) = rev (e :: rest) ++ trace w.
Proof.
  intros (rest & Ht) Hk. unfold exec, bind in *.
  destruct (m w) as [[a|x] w1]; simpl in *; [|eauto].
  destruct (Hk a w1) as (new & Ht2 & _). unfold exec in Ht2.
  exists (rest ++ new). rewrite Ht2, Ht. simpl.
  rewrite !rev_app_distr. simpl. rewrite <- !app_assoc. reflexivity.
Qed.

Lemma usaspending_row_first (wr : option FetchSeed.ADLSWriter) (row : FetchSeed.Row)
    (w : World) :
  is_Some (urlparse lib (row_url row)) ->
  Py.contains "usaspending" (Py.lower (row_url row))
  || Py.contains "usaspending" (Py.lower (row_api_params row)) = true ->
  Py.dict_mem "recipient_id" (usaspending_params (row_api_params row))
  || Py.dict_mem "recipient_unique_id" (usaspending_params (row_api_params row)) = true ->
  exists ok rest,
    emitted (FetchSeed.process_row lib cfg env false wr row) w
    = EvGet usaspending_endpoint (usaspending_params (row_api_params row)) (clock w) ok :: rest.
Proof.
  intros [parsed Hparse] Hcond Hkey.
  assert (H : exists ok rest,
            trace (exec (FetchSeed.process_row lib cfg env false wr row) w)
            = rev (EvGet usaspending_endpoint (usaspending_params (row_api_params row))
                     (clock w) ok :: rest) ++ trace w).
  { unfold FetchSeed.process_row. cbv zeta.
    fold (row_url row). fold (row_api_params row). rewrite Hparse, Hcond.
    unfold FetchSeed.build_output_paths. cbv zeta.
    unfold exec at 1. unfold bind at 1, utcnow at 1, bind at 1, ret at 1. cbv beta iota.
    unfold bind at 1, ret at 1. cbv beta iota.
    match goal with
    | |- context [FetchSeed.usaspending_branch lib cfg env false wr ?s ?a ?n ?o] =>
        destruct (usaspending_branch_first lib cfg env wr s a n o w Hkey)
          as (ok & rest & Hb & _);
        destruct (emits_emitted (fun _ => True)
                    (FetchSeed.usaspending_branch lib cfg env false wr s a n o) w) as (Ht & _)
    end.
    { apply emits_usaspending_branch; auto; try apply Closed_any.
      intros. eapply emits_weaken; [|apply store_pair_emits]. auto. }
    exists ok. apply first_event_bind.
    - exists rest. rewrite Ht, Hb. reflexivity.
    - intros done. apply after_usaspending_extends. }
  destruct H as (ok & rest' & H). exists ok, rest'. apply emitted_spec. exact H.
Qed.

Lemma sam_row_first (wr : option FetchSeed.ADLSWriter) (row : FetchSeed.Row)
    (sam_key : string) (w : World) :
  is_Some (urlparse lib (row_url row)) ->
  Py.contains "usaspending" (Py.lower (row_url row))
  || Py.contains "usaspending" (Py.lower (row_api_params row)) = false ->
  Py.contains "sam.gov" (Py.lower (row_url row))
  || (Py.contains "sam" (Py.lower (row_api_params row))
      && FetchSeed.opt_truthy (SAM_API_KEY cfg)) = true ->
  SAM_API_KEY cfg = Some sam_key -> Py.truthy sam_key = true ->
  exists ok rest,
    emitted (FetchSeed.process_row lib cfg env false wr row) w
    = EvGet sam_endpoint (sam_params sam_key (row_api_params row)) (clock w) ok :: rest.
Proof.
  intros [parsed Hparse] Hnot Hcond Hkey Htruthy.
  assert (H : exists ok rest,
            trace (exec (FetchSeed.process_row lib cfg env false wr row) w)
            = rev (EvGet sam_endpoint (sam_params sam_key (row_api_params row))
                     (clock w) ok :: rest) ++ trace w).
  { unfold FetchSeed.process_row. cbv zeta.
    fold (row_url row). fold (row_api_params row). rewrite Hparse, Hnot, Hcond.
    unfold FetchSeed.build_output_paths. cbv zeta.
    unfold exec at 1. unfold bind at 1, utcnow at 1, bind at 1, ret at 1. cbv beta iota.
    unfold bind at 1, ret at 1. cbv beta iota.
    unfold bind at 1, ret at 1. cbv beta iota.
    match goal with
    | |- context [FetchSeed.sam_branch lib cfg env false wr ?s ?a ?n ?o] =>
        destruct (sam_branch_first lib cfg env wr sam_key s a n o w Hkey Htruthy)
          as (ok & rest & Hb & _);
        destruct (emits_emitted (fun _ => True)
                    (FetchSeed.sam_branch lib cfg env false wr s a n o) w) as (Ht & _)
    end.
    { apply emits_sam_branch; auto; try apply Closed_any.
      intros. eapply emits_weaken; [|apply store_pair_emits]. auto. }
    exists ok. apply first_event_bind.
    - exists rest. rewrite Ht, Hb. reflexivity.
    - intros done. destruct done; [apply emits_ret; apply Closed_any|].
      apply generic_path_extends. }
  destruct H as (ok & rest' & H). exists ok, rest'. apply emitted_spec. exact H.
Qed.

(** A generic row that reaches the fetch has retrieved robots.txt twice
    by then: once for the check of [main], once inside [polite_fetch]. *)
Lemma generic_row_two_lookups (wr : option FetchSeed.ADLSWriter) (row : FetchSeed.Row)
    (source_name url notes outdir basename : string) (w : World) :
  Py.truthy url = true ->
  FetchSeed.opt_truthy (FetchSeed.get_domain lib url) = true ->
  disallowed cfg (robots_read env (call_index w)
                    (FetchSeed.robots_txt_url (FetchSeed.get_domain lib url))) url = false ->
  exists ok1 t2 ok2 rest,
    emitted (FetchSeed.generic_path lib cfg env false wr row source_name url notes
               outdir basename) w
    = EvRobots (FetchSeed.robots_txt_url (FetchSeed.get_domain lib url)) (clock w) ok1
      :: EvRobots (FetchSeed.robots_txt_url (FetchSeed.get_domain lib url)) t2 ok2
      :: rest.
Proof.
  intros Hurl Hdom Hallow.
  set (d := FetchSeed.get_domain lib url) in *.
  destruct (lookup_run env d w) as (w1 & Hr & _ & _ & _ & Ht1).
  assert (H : exists t2 ok2 rest,
            trace (exec (FetchSeed.generic_path lib cfg env false wr row source_name url notes
                           outdir basename) w)
            = rev (EvRobots (FetchSeed.robots_txt_url d) t2 ok2 :: rest) ++ trace w1).
  { unfold FetchSeed.generic_path. rewrite Hurl. cbn [negb]. fold d.
    unfold exec at 1. unfold bind at 1. rewrite Hr.
    unfold disallowed in Hallow. rewrite Hallow.
    destruct (polite_fetch_emitted lib cfg env url [] w1)
      as [(_ & He) | [(_ & sl & s & ok & _ & He) | (_ & _ & He)]];
      destruct (emits_emitted (fun _ => True) (FetchSeed.polite_fetch lib cfg env url []) w1)
        as (Htp & _);
      try (apply emits_polite_fetch; auto; apply Closed_any);
      rewrite He in Htp; unfold polite_lookup_events in Htp; fold d in Htp;
      rewrite Hdom in Htp.
    - exists (clock w1), (bool_decide (is_Some (robots_read env (call_index w1)
                                                (FetchSeed.robots_txt_url d)))).
      apply first_event_bind; [exists []; exact Htp|].
      intros info. destruct info; repeat emits_step;
        first [ apply Closed_any | exact I
              | eapply emits_weaken; [|apply (commit_generic_paired lib)]; auto
              | idtac ].
      all: try (unfold FetchSeed.generic_meta;
                cbn [checksum_ok Py.dict_get String.eqb Ascii.eqb Bool.eqb]; reflexivity).
      all: unfold FetchSeed.backoff_429; repeat emits_step; try exact I;
        apply emits_sleep_fun; auto; apply Closed_any.
    - exists (clock w1), (bool_decide (is_Some (robots_read env (call_index w1)
                                                (FetchSeed.robots_txt_url d)))).
      apply first_event_bind.
      { exists (sl ++ [EvGet url [] s ok]). exact Htp. }
      intros info. destruct info; repeat emits_step;
        first [ apply Closed_any | exact I
              | eapply emits_weaken; [|apply (commit_generic_paired lib)]; auto
              | idtac ].
      all: try (unfold FetchSeed.generic_meta;
                cbn [checksum_ok Py.dict_get String.eqb Ascii.eqb Bool.eqb]; reflexivity).
      all: unfold FetchSeed.backoff_429; repeat emits_step; try exact I;
        apply emits_sleep_fun; auto; apply Closed_any.
    - exists (clock w1), (bool_decide (is_Some (robots_read env (call_index w1)
                                                (FetchSeed.robots_txt_url d)))).
      apply first_event_bind; [exists []; exact Htp|].
      intros info. destruct info; repeat emits_step;
        first [ apply Closed_any | exact I
              | eapply emits_weaken; [|apply (commit_generic_paired lib)]; auto
              | idtac ].
      all: try (unfold FetchSeed.generic_meta;
                cbn [checksum_ok Py.dict_get String.eqb Ascii.eqb Bool.eqb]; reflexivity).
      all: unfold FetchSeed.backoff_429; repeat emits_step; try exact I;
        apply emits_sleep_fun; auto; apply Closed_any. }
  destruct H as (t2 & ok2 & rest & H).
  eexists _, t2, ok2, rest. apply emitted_spec. rewrite H, Ht1.
  cbn [rev]. rewrite <- !app_assoc. reflexivity.
Qed.

End ApiRows.




(** ** Closed examples for the orchestrator and the stand-alone scripts *)

Import Rows Sam Storm.



(** C4, as stated, fails twice: an RSS item is committed without any
    sidecar, and so is the content of a generic fetch when the local
    write of its sidecar fails. *)
Lemma content_committed_without_sidecar :
  emitted (NewsFetch.fetch_rss_and_store demo_lib adls_cfg feed_env "https://news.example/feed"
             "news" 1) (initial_world 1000)
  = [EvAdls (OpenService "https://acct.dfs.core.windows.net") true;
     EvFeed "https://news.example/feed" 1010;
     EvAdls (CreateDirectory "raw" "anduril/news/news/rss") true;
     EvAdls (CreateFile "raw" "anduril/news/news/rss" "First_item_T1020.json") true;
     EvAdls (AppendData "raw" "anduril/news/news/rss" "First_item_T1020.json"
               (JsonText true (NewsFetch.item_json
                                 [("title", "First item"); ("link", "https://news.example/1")]))
               0) true;
     EvAdls (FlushData "raw" "anduril/news/news/rss" "First_item_T1020.json" 7) true;
     EvGet "https://news.example/1" [] 1060 true;
     EvSleep 200]
  /\ List.filter is_commit
       (emitted (FetchSeed.main demo_lib demo_cfg disk_full_env [report_row] false false)
                (initial_world 1000))
     = [EvLocal (WriteFile "data/raw/anduril/anduril/acme/1000/report.pdf_T1030.html"
                   (RawBytes "<html>ok</html>")) true].
Proof. vm_compute. split; reflexivity. Qed.

(** C5: the run the claim excludes. With the dry-run flag set and a
    robots.txt that disallows the URL, [main] retrieves robots.txt and
    writes the robots-skip record to the store. *)
Theorem dry_run_reads_robots_and_writes_skip :
  emitted (FetchSeed.main demo_lib demo_cfg disallow_env [report_row] true false)
          (initial_world 1000)
  = [EvRobots example_robots 1000 true;
     EvLocal (MakeDirs "data/raw/anduril/anduril/acme/1000") true;
     EvLocal (WriteFile "data/raw/anduril/anduril/acme/1000/acme_robots_skip_T1010.json"
                (JsonText true
                   (JObj [("source_name", JStr "acme");
                          ("url", JStr report_url);
                          ("fetched_at", JStr "1010");
                          ("skipped_by_robots", JBool true);
                          ("notes", JStr "")]))) true].
Proof. vm_compute. reflexivity. Qed.





(** A remark on the pauses: a robots.txt that declares a crawl delay of
    99999999999 s makes the second request to its domain wait for longer
    than [time.sleep] converts; the [OverflowError] leaves
    [wait_for_domain], [polite_fetch] and [main], and the run ends with
    the second row. *)
Lemma unsleepable_crawl_delay_ends_run :
  result (FetchSeed.main demo_lib demo_cfg glacial_env [report_row; report_row; second_row]
            false false) (initial_world 1000)
  = Raise (OverflowError "timestamp too large to convert to C _PyTime_t")
  /\ List.filter (fun e => negb (is_storage_event e))
       (emitted (FetchSeed.main demo_lib demo_cfg glacial_env
                   [report_row; report_row; second_row] false false) (initial_world 1000))
     = [EvRobots example_robots 1000 true;
        EvRobots example_robots 1010 true;
        EvGet report_url [] 1020 true;
        EvRobots example_robots 1070 true;
        EvRobots example_robots 1080 true].
Proof. vm_compute. split; reflexivity. Qed.



(** ** Facts about the string primitives *)

Section StringFacts.

Lemma append_cons (c : ascii) (a b : string) : String c a +:+ b = String c (a +:+ b).
Proof. reflexivity. Qed.

Lemma append_empty_r (s : string) : s +:+ "" = s.
Proof. induction s as [|c s IH]; [reflexivity|]. rewrite append_cons, IH. reflexivity. Qed.

Lemma length_append (a b : string) :
  String.length (a +:+ b) = (String.length a + String.length b)%nat.
Proof.
  induction a as [|c a IH]; [reflexivity|]. rewrite append_cons. simpl. rewrite IH. reflexivity.
Qed.

Lemma rev_string_append (a b : string) :
  Py.rev_string (a +:+ b) = Py.rev_string b +:+ Py.rev_string a.
Proof.
  induction a as [|c a IH].
  - simpl. change ("" +:+ b) with b. rewrite append_empty_r. reflexivity.
  - rewrite append_cons. simpl. rewrite IH. apply append_assoc.
Qed.

Lemma rev_string_involutive (s : string) : Py.rev_string (Py.rev_string s) = s.
Proof.
  induction s as [|c s IH]; [reflexivity|].
  simpl. rewrite rev_string_append, IH. reflexivity.
Qed.

Lemma rev_string_length (s : string) : String.length (Py.rev_string s) = String.length s.
Proof.
  induction s as [|c s IH]; [reflexivity|].
  simpl. rewrite length_append, IH. simpl. lia.
Qed.

Lemma prefix_append (p s : string) : prefix p (p +:+ s) = true.
Proof.
  induction p as [|c p IH]; [destruct s; reflexivity|].
  rewrite append_cons. cbn [prefix]. destruct (ascii_dec c c); [exact IH | congruence].
Qed.

Lemma endswith_append (p s : string) : Py.endswith p (s +:+ p) = true.
Proof. unfold Py.endswith. rewrite rev_string_append. apply prefix_append. Qed.

Lemma take_append (a b : string) : Py.take (String.length a) (a +:+ b) = a.
Proof.
  induction a as [|c a IH]; [destruct b; reflexivity|].
  rewrite append_cons. simpl. rewrite IH. reflexivity.
Qed.

Lemma drop_last_append (a b : string) : Py.drop_last (String.length b) (a +:+ b) = a.
Proof.
  unfold Py.drop_last. rewrite length_append.
  replace (String.length a + String.length b - String.length b)%nat with (String.length a) by lia.
  apply take_append.
Qed.

Lemma last_char_append (a : string) (c : ascii) :
  Py.last_char (a +:+ String c "") = String c "".
Proof. unfold Py.last_char. rewrite rev_string_append. reflexivity. Qed.

Lemma all_chars_append (p : ascii -> bool) (a b : string) :
  all_chars p (a +:+ b) = all_chars p a && all_chars p b.
Proof.
  induction a as [|c a IH]; [reflexivity|].
  rewrite append_cons. simpl. rewrite IH. apply andb_assoc.
Qed.

Lemma all_chars_rev (p : ascii -> bool) (s : string) :
  all_chars p (Py.rev_string s) = all_chars p s.
Proof.
  induction s as [|c s IH]; [reflexivity|].
  simpl. rewrite all_chars_append, IH. simpl. rewrite andb_true_r. apply andb_comm.
Qed.

Lemma all_chars_impl (p q : ascii -> bool) (s : string) :
  (forall c, p c = true -> q c = true) -> all_chars p s = true -> all_chars q s = true.
Proof.
  intros H. induction s as [|c s IH]; [reflexivity|]. simpl.
  intros Hs. apply andb_true_iff in Hs. destruct Hs as (Hc & Hs).
  rewrite (H c Hc), (IH Hs). reflexivity.
Qed.

(** What [lstrip] removes and what it leaves *)
Lemma lstrip_split (chars s : string) :
  exists p, s = p +:+ Py.lstrip chars s
            /\ all_chars (fun c => Py.mem_char c chars) p = true
            /\ match Py.lstrip chars s with
               | EmptyString => True
               | String c _ => Py.mem_char c chars = false
               end.
Proof.
  induction s as [|c s (p & Hs & Hp & Hhead)].
  - exists EmptyString. simpl. auto.
  - simpl. destruct (Py.mem_char c chars) eqn:Hc.
    + exists (String c p). rewrite append_cons, <- Hs. simpl. rewrite Hc, Hp. auto.
    + exists EmptyString. simpl. auto.
Qed.

Lemma rstrip_split (chars s : string) :
  exists p, s = Py.rstrip chars s +:+ p
            /\ all_chars (fun c => Py.mem_char c chars) p = true
            /\ match Py.rev_string (Py.rstrip chars s) with
               | EmptyString => True
               | String c _ => Py.mem_char c chars = false
               end.
Proof.
  unfold Py.rstrip.
  destruct (lstrip_split chars (Py.rev_string s)) as (p & Hs & Hp & Hhead).
  exists (Py.rev_string p). split; [|split].
  - rewrite <- rev_string_append, <- Hs, rev_string_involutive. reflexivity.
  - rewrite all_chars_rev. exact Hp.
  - rewrite rev_string_involutive. exact Hhead.
Qed.

Lemma all_chars_lstrip (p : ascii -> bool) (chars s : string) :
  all_chars p s = true -> all_chars p (Py.lstrip chars s) = true.
Proof.
  intros H. destruct (lstrip_split chars s) as (q & Hs & _).
  rewrite Hs, all_chars_append in H. apply andb_true_iff in H. tauto.
Qed.

Lemma all_chars_rstrip (p : ascii -> bool) (chars s : string) :
  all_chars p s = true -> all_chars p (Py.rstrip chars s) = true.
Proof.
  intros H. destruct (rstrip_split chars s) as (q & Hs & _).
  rewrite Hs, all_chars_append in H. apply andb_true_iff in H. tauto.
Qed.

Lemma all_chars_map_chars (p : ascii -> bool) (f : ascii -> ascii) (s : string) :
  (forall c, p (f c) = true) -> all_chars p (FetchSeed.map_chars f s) = true.
Proof. intros H. induction s as [|c s IH]; [reflexivity|]. simpl. rewrite H, IH. reflexivity. Qed.

Lemma lower_char_idempotent (c : ascii) : Py.lower_char (Py.lower_char c) = Py.lower_char c.
Proof. destruct c as [[] [] [] [] [] [] [] []]; reflexivity. Qed.

Lemma lower_char_not_upper (c : ascii) : Py.is_upper (Py.lower_char c) = false.
Proof. destruct c as [[] [] [] [] [] [] [] []]; reflexivity. Qed.

End StringFacts.

(** ** Names the scripts derive *)

Lemma all_chars_not_mem (p : ascii -> bool) (c : ascii) (s : string) :
  all_chars p s = true -> p c = false -> Py.mem_char c s = false.
Proof.
  intros Hs Hc. induction s as [|d s IH]; [reflexivity|].
  simpl in *. apply andb_true_iff in Hs. destruct Hs as (Hd & Hs).
  rewrite (IH Hs), orb_false_r.
  destruct (Ascii.eqb_spec c d) as [->|_]; [congruence | reflexivity].
Qed.

Lemma lower_all_lower (s : string) :
  all_chars (fun c => negb (Py.is_upper c)) (Py.lower s) = true.
Proof.
  induction s as [|c s IH]; [reflexivity|].
  simpl. rewrite lower_char_not_upper, IH. reflexivity.
Qed.

Lemma lower_idempotent (s : string) : Py.lower (Py.lower s) = Py.lower s.
Proof.
  induction s as [|c s IH]; [reflexivity|].
  simpl. rewrite lower_char_idempotent, IH. reflexivity.
Qed.

Lemma length_map_chars (f : ascii -> ascii) (s : string) :
  String.length (FetchSeed.map_chars f s) = String.length s.
Proof. induction s as [|c s IH]; [reflexivity|]. simpl. rewrite IH. reflexivity. Qed.

(** X1. The domain under which [get_domain] files a URL is the host part
    that [urlparse] gives, in lower case: it holds no upper-case letter,
    and lower-casing it again changes nothing, so that hosts that differ
    in letter case only share one entry of the rate-limit tables.  There
    is no domain exactly when [urlparse] raises. *)
Theorem get_domain_is_lower_case (lib : Lib) (url : string) :
  match FetchSeed.get_domain lib url with
  | Some d =>
      all_chars (fun c => negb (Py.is_upper c)) d = true
      /\ Py.lower d = d
      /\ exists netloc path, urlparse lib url = Some (netloc, path) /\ d = Py.lower netloc
  | None => urlparse lib url = None
  end.
Proof.
  unfold FetchSeed.get_domain. destruct (urlparse lib url) as [[netloc path]|]; [|reflexivity].
  split; [apply lower_all_lower|]. split; [apply lower_idempotent|]. eauto.
Qed.

(** X2. [build_output_paths] never fails and touches nothing; the
    directory it returns is [anduril/<safe_name>/<date>], where
    [safe_name] is made of characters that are alphanumeric for
    [str.isalnum] (letters and digits, accented letters included), [-]
    and [_] only (so it holds neither [/] nor [.]: the directory stays
    below [anduril/]), neither begins nor ends with [-] or [_], and is
    no longer than the source name. *)
Theorem build_output_paths_is_safe (lib : Lib) (source_name : string) (w : World) :
  exists safe_name,
    FetchSeed.build_output_paths lib source_name w
    = (Ok ("anduril/" +:+ safe_name +:+ "/" +:+ strftime_date lib (clock w)), w)
    /\ all_chars safe_char safe_name = true
    /\ Py.mem_char "/" safe_name = false
    /\ Py.mem_char "." safe_name = false
    /\ match safe_name with
       | String c _ => Py.mem_char c "_-" = false
       | EmptyString => True
       end
    /\ match Py.rev_string safe_name with
       | String c _ => Py.mem_char c "_-" = false
       | EmptyString => True
       end
    /\ (String.length safe_name <= String.length source_name)%nat.
Proof.
  set (mapped := FetchSeed.map_chars
                   (fun c => if Py.isalnum c || Py.mem_char c "-_" then c else "_"%char)
                   source_name).
  exists (Py.strip "_-" mapped).
  assert (Hmapped : all_chars safe_char mapped = true).
  { apply all_chars_map_chars. intros c. unfold safe_char.
    destruct (Py.isalnum c || Py.mem_char c "-_") eqn:Hc; [exact Hc | reflexivity]. }
  assert (Hlen : String.length mapped = String.length source_name).
  { apply length_map_chars. }
  assert (Hsafe : all_chars safe_char (Py.strip "_-" mapped) = true).
  { unfold Py.strip. apply all_chars_rstrip, all_chars_lstrip, Hmapped. }
  unfold Py.strip in *.
  destruct (lstrip_split "_-" mapped) as (p & Hp & _ & Hhead).
  destruct (rstrip_split "_-" (Py.lstrip "_-" mapped)) as (q & Hq & _ & Hlast).
  split; [reflexivity|]. split; [exact Hsafe|].
  split; [apply (all_chars_not_mem _ _ _ Hsafe); reflexivity|].
  split; [apply (all_chars_not_mem _ _ _ Hsafe); reflexivity|].
  split; [|split; [exact Hlast|]].
  - destruct (Py.rstrip "_-" (Py.lstrip "_-" mapped)) as [|c r]; [exact I|].
    rewrite Hq in Hhead. exact Hhead.
  - rewrite <- Hlen. rewrite Hp at 2. rewrite Hq at 2. rewrite !length_append. lia.
Qed.

Lemma take_length (n : nat) (s : string) : (String.length (Py.take n s) <= n)%nat.
Proof.
  revert s. induction n as [|n IH]; intros [|c s]; simpl; try lia.
  specialize (IH s). lia.
Qed.

Lemma mem_char_take (c : ascii) (n : nat) (s : string) :
  Py.mem_char c s = false -> Py.mem_char c (Py.take n s) = false.
Proof.
  revert s. induction n as [|n IH]; intros [|d s]; simpl; auto.
  intros H. apply orb_false_iff in H. destruct H as (-> & H). rewrite (IH s H). reflexivity.
Qed.

Lemma mem_char_replace_char (a b : ascii) (s : string) :
  a <> b -> Py.mem_char a (Py.replace_char a b s) = false.
Proof.
  intros Hab. induction s as [|d s IH]; [reflexivity|]. simpl. rewrite IH, orb_false_r.
  destruct (Ascii.eqb_spec d a) as [->|Hda].
  - apply Ascii.eqb_neq. exact Hab.
  - apply Ascii.eqb_neq. congruence.
Qed.

Lemma mem_char_replace_other (a b c : ascii) (s : string) :
  c <> b -> Py.mem_char c s = false -> Py.mem_char c (Py.replace_char a b s) = false.
Proof.
  intros Hcb. induction s as [|d s IH]; [reflexivity|]. simpl.
  intros H. apply orb_false_iff in H. destruct H as (Hcd & H). rewrite (IH H), orb_false_r.
  destruct (Ascii.eqb d a); [apply Ascii.eqb_neq; exact Hcb | exact Hcd].
Qed.

(** X3. The title [fetch_rss_and_store] puts into its file names is at
    most 140 characters long and holds neither [/] nor a space, so the
    file stays in the directory it is written to; an entry without title
    is filed as [untitled]. *)
Theorem safe_title_is_a_file_name (entry : NewsFetch.Entry) :
  (String.length (NewsFetch.safe_title entry) <= 140)%nat
  /\ Py.mem_char "/" (NewsFetch.safe_title entry) = false
  /\ Py.mem_char " " (NewsFetch.safe_title entry) = false
  /\ match Py.dict_get "title" entry with
     | Some _ => True
     | None => NewsFetch.safe_title entry = "untitled"
     end.
Proof.
  unfold NewsFetch.safe_title. split; [apply take_length|]. split; [|split].
  - apply mem_char_take, mem_char_replace_other; [discriminate|].
    apply mem_char_replace_char. discriminate.
  - apply mem_char_take, mem_char_replace_char. discriminate.
  - destruct (Py.dict_get "title" entry); [exact I | reflexivity].
Qed.

(** ** The query parameters read from the manifest *)

Section ApiParams.

Lemma split_no_sep (sep : ascii) (a : string) :
  all_chars (fun c => negb (Ascii.eqb c sep)) a = true -> Py.split sep a = [a].
Proof.
  induction a as [|c a IH]; [reflexivity|]. simpl.
  intros H. apply andb_true_iff in H. destruct H as (Hc & Ha).
  apply negb_true_iff in Hc. rewrite Hc, (IH Ha). reflexivity.
Qed.

Lemma split_append (sep : ascii) (a b : string) :
  all_chars (fun c => negb (Ascii.eqb c sep)) a = true ->
  Py.split sep (a +:+ String sep b) = a :: Py.split sep b.
Proof.
  induction a as [|c a IH]; intros H.
  - change ("" +:+ String sep b) with (String sep b). simpl.
    rewrite Ascii.eqb_refl. reflexivity.
  - rewrite append_cons. simpl in *. apply andb_true_iff in H. destruct H as (Hc & Ha).
    apply negb_true_iff in Hc. rewrite Hc, (IH Ha). reflexivity.
Qed.

Lemma split_once_append (sep : ascii) (a b : string) :
  all_chars (fun c => negb (Ascii.eqb c sep)) a = true ->
  Py.split_once sep (a +:+ String sep b) = Some (a, b).
Proof.
  induction a as [|c a IH]; intros H.
  - change ("" +:+ String sep b) with (String sep b). simpl.
    rewrite Ascii.eqb_refl. reflexivity.
  - rewrite append_cons. simpl in *. apply andb_true_iff in H. destruct H as (Hc & Ha).
    apply negb_true_iff in Hc. rewrite Hc, (IH Ha). reflexivity.
Qed.

Lemma split_once_none (sep : ascii) (a : string) :
  all_chars (fun c => negb (Ascii.eqb c sep)) a = true -> Py.split_once sep a = None.
Proof.
  induction a as [|c a IH]; [reflexivity|]. simpl.
  intros H. apply andb_true_iff in H. destruct H as (Hc & Ha).
  apply negb_true_iff in Hc. rewrite Hc, (IH Ha). reflexivity.
Qed.

Lemma strip_ws_trimmed (s : string) : trimmed s = true -> Py.strip_ws s = s.
Proof.
  unfold trimmed, Py.strip_ws. intros H. apply andb_true_iff in H. destruct H as (Hhead & Hlast).
  assert (H1 : Py.lstrip_ws s = s).
  { destruct s as [|c s]; [reflexivity|]. simpl. apply negb_true_iff in Hhead.
    rewrite Hhead. reflexivity. }
  rewrite H1.
  assert (H2 : Py.lstrip_ws (Py.rev_string s) = Py.rev_string s).
  { destruct (Py.rev_string s) as [|c r]; [reflexivity|]. simpl. apply negb_true_iff in Hlast.
    rewrite Hlast. reflexivity. }
  rewrite H2. apply rev_string_involutive.
Qed.

Lemma dict_set_fresh (k v : string) (d : Params) :
  ~ In k (map fst d) -> Py.dict_set k v d = d ++ [(k, v)].
Proof.
  induction d as [|[k' v'] d IH]; [reflexivity|]. simpl. intros H.
  destruct (String.eqb_spec k k') as [->|_]; [tauto|].
  rewrite IH by tauto. reflexivity.
Qed.

Lemma dict_get_set_same {V} (k : string) (d : list (string * V)) (v : V) :
  forall d', Py.dict_get k (d ++ (k, v) :: d') = match Py.dict_get k d with
                                                 | Some x => Some x
                                                 | None => Some v
                                                 end.
Proof.
  intros d'. induction d as [|[k' v'] d IH]; simpl.
  - rewrite String.eqb_refl. reflexivity.
  - destruct (String.eqb k k'); [reflexivity | exact IH].
Qed.

(** One piece [k=v] of the text *)
Lemma parse_piece (k v : string) (params : Params) :
  plain_pair (k, v) = true ->
  match Py.split_once "=" (k +:+ "=" +:+ v) with
  | Some (k', v') => Py.dict_set (Py.strip_ws k') (Py.strip_ws v') params
  | None => params
  end = Py.dict_set k v params.
Proof.
  unfold plain_pair. cbn [fst snd]. intros H.
  apply andb_true_iff in H. destruct H as (H & Htv).
  apply andb_true_iff in H. destruct H as (H & Htk).
  apply andb_true_iff in H. destruct H as (Hk & Hv).
  change (k +:+ "=" +:+ v) with (k +:+ String "=" v).
  rewrite split_once_append.
  - rewrite (strip_ws_trimmed _ Htk), (strip_ws_trimmed _ Htv). reflexivity.
  - eapply all_chars_impl; [|exact Hk]. intros c Hc. apply andb_true_iff in Hc. tauto.
Qed.

Lemma piece_no_amp (k v : string) :
  plain_pair (k, v) = true ->
  all_chars (fun c => negb (Ascii.eqb c "&")) (k +:+ "=" +:+ v) = true.
Proof.
  unfold plain_pair. cbn [fst snd]. intros H.
  apply andb_true_iff in H. destruct H as (H & _).
  apply andb_true_iff in H. destruct H as (H & _).
  apply andb_true_iff in H. destruct H as (Hk & Hv).
  rewrite !all_chars_append, Hv. simpl. rewrite andb_true_r.
  eapply all_chars_impl; [|exact Hk]. intros c Hc. apply andb_true_iff in Hc. tauto.
Qed.

Lemma encode_params_cons (k v : string) (kv : string * string) (l : Params) :
  encode_params ((k, v) :: kv :: l)
  = (k +:+ "=" +:+ v) +:+ String "&" (encode_params (kv :: l)).
Proof.
  change (encode_params ((k, v) :: kv :: l))
    with (k +:+ ("=" +:+ (v +:+ ("&" +:+ encode_params (kv :: l))))).
  change ("&" +:+ encode_params (kv :: l)) with (String "&" (encode_params (kv :: l))).
  rewrite <- (append_assoc "=" v), <- (append_assoc k). reflexivity.
Qed.

Lemma parse_encoded (l : Params) :
  forall acc,
    Forall (fun kv => plain_pair kv = true) l ->
    List.NoDup (map fst (acc ++ l)) ->
    FetchSeed.parse_api_params (encode_params l) acc = acc ++ l.
Proof.
  unfold FetchSeed.parse_api_params.
  induction l as [|[k v] l IH]; intros acc Hplain Hnd.
  - simpl. rewrite app_nil_r. reflexivity.
  - inversion Hplain as [|kv l' Hkv Hl]; subst.
    assert (Hfresh : ~ In k (map fst acc)).
    { rewrite map_app in Hnd. simpl in Hnd. apply NoDup_remove_2 in Hnd.
      intros Hin. apply Hnd. apply in_or_app. left. exact Hin. }
    destruct l as [|kv2 l].
    + cbn [encode_params]. rewrite (split_no_sep _ _ (piece_no_amp _ _ Hkv)).
      cbn [fold_left]. rewrite (parse_piece k v acc Hkv). apply dict_set_fresh, Hfresh.
    + rewrite encode_params_cons.
      rewrite (split_append _ _ _ (piece_no_amp _ _ Hkv)).
      cbn [fold_left]. rewrite (parse_piece k v acc Hkv).
      rewrite (dict_set_fresh _ _ _ Hfresh).
      rewrite (IH (acc ++ [(k, v)]) Hl).
      * rewrite <- app_assoc. reflexivity.
      * rewrite <- app_assoc. exact Hnd.
Qed.

End ApiParams.

(** X4. Reading back what was written: for distinct keys, each free of
    [&] and [=], with values free of [&] and no white space at the ends of
    either, the text [k1=v1&k2=v2&...] of the manifest column is parsed by
    the API shortcuts of [main] into exactly these parameters, in this
    order.  (A value may hold [=]: a piece is split at its first [=].) *)
Theorem parse_api_params_reads_back (l : Params) :
  Forall (fun kv => plain_pair kv = true) l ->
  List.NoDup (map fst l) ->
  FetchSeed.parse_api_params (encode_params l) [] = l.
Proof. intros Hplain Hnd. apply (parse_encoded l [] Hplain Hnd). Qed.

Lemma parse_api_params_reads_back_witness :
  FetchSeed.parse_api_params "recipient_id=abc-123&filter=a=b" []
  = [("recipient_id", "abc-123"); ("filter", "a=b")].
Proof.
  apply (parse_api_params_reads_back [("recipient_id", "abc-123"); ("filter", "a=b")]).
  - repeat constructor.
  - repeat constructor; simpl; intuition discriminate.
Defined.
Lemma split_nonempty (sep : ascii) (s : string) : Py.split sep s <> [].
Proof.
  induction s as [|c s IH]; simpl; [discriminate|].
  destruct (Ascii.eqb c sep); [discriminate|]. destruct (Py.split sep s); discriminate.
Qed.

Lemma split_join (sep : ascii) (a b : string) :
  Py.split sep (a +:+ String sep b) = Py.split sep a ++ Py.split sep b.
Proof.
  induction a as [|c a IH].
  - change ("" +:+ String sep b) with (String sep b). simpl.
    rewrite Ascii.eqb_refl. reflexivity.
  - rewrite append_cons. simpl. rewrite IH.
    destruct (Ascii.eqb c sep); [reflexivity|].
    pose proof (split_nonempty sep a) as Hne.
    destruct (Py.split sep a) as [|h t]; [congruence | reflexivity].
Qed.

Lemma dict_get_set (k v : string) (d : Params) : Py.dict_get k (Py.dict_set k v d) = Some v.
Proof.
  induction d as [|[k' v'] d IH]; simpl.
  - rewrite String.eqb_refl. reflexivity.
  - destruct (String.eqb k k') eqn:Hk; simpl; rewrite ?String.eqb_refl, ?Hk; auto.
Qed.

Lemma dict_get_set_other (k k' v : string) (d : Params) :
  k' <> k -> Py.dict_get k' (Py.dict_set k v d) = Py.dict_get k' d.
Proof.
  intros Hne. induction d as [|[k2 v2] d IH]; simpl.
  - destruct (String.eqb_spec k' k); [congruence | reflexivity].
  - destruct (String.eqb_spec k k2) as [->|Hk]; simpl.
    + destruct (String.eqb_spec k' k2); [congruence | reflexivity].
    + destruct (String.eqb k' k2); [reflexivity | exact IH].
Qed.

(** X5. The text of the parameters is read piece by piece, left to
    right: parsing [a&b] is parsing [b] on top of what [a] gave.  A piece
    without [=] adds nothing, and a key assigned again takes the later
    value: after a text that ends in [&k=v], the parameter [k] is [v]. *)
Theorem parse_api_params_composes (a b : string) (params : Params) :
  FetchSeed.parse_api_params (a +:+ "&" +:+ b) params
  = FetchSeed.parse_api_params b (FetchSeed.parse_api_params a params)
  /\ (forall p, all_chars (fun c => negb (Ascii.eqb c "&") && negb (Ascii.eqb c "=")) p = true ->
        FetchSeed.parse_api_params (a +:+ "&" +:+ p) params = FetchSeed.parse_api_params a params)
  /\ (forall k v, plain_pair (k, v) = true ->
        Py.dict_get k (FetchSeed.parse_api_params (a +:+ "&" +:+ k +:+ "=" +:+ v) params) = Some v).
Proof.
  assert (Hcomp : forall x y acc,
            FetchSeed.parse_api_params (x +:+ "&" +:+ y) acc
            = FetchSeed.parse_api_params y (FetchSeed.parse_api_params x acc)).
  { intros x y acc. unfold FetchSeed.parse_api_params.
    change (x +:+ "&" +:+ y) with (x +:+ String "&" y).
    rewrite split_join, fold_left_app. reflexivity. }
  split; [apply Hcomp|]. split.
  - intros p Hp. rewrite Hcomp. unfold FetchSeed.parse_api_params at 1.
    rewrite split_no_sep.
    + cbn [fold_left]. rewrite split_once_none; [reflexivity|].
      eapply all_chars_impl; [|exact Hp]. intros c Hc. apply andb_true_iff in Hc. tauto.
    + eapply all_chars_impl; [|exact Hp]. intros c Hc. apply andb_true_iff in Hc. tauto.
  - intros k v Hkv. rewrite Hcomp. unfold FetchSeed.parse_api_params at 1.
    rewrite (split_no_sep _ _ (piece_no_amp _ _ Hkv)). cbn [fold_left].
    rewrite (parse_piece k v _ Hkv). apply dict_get_set.
Qed.

(** ** The manifest filter *)

Lemma lstrip_ws_head (s : string) :
  match Py.lstrip_ws s with
  | EmptyString => True
  | String c _ => Py.isspace c = false
  end.
Proof.
  induction s as [|c s IH]; [exact I|]. simpl.
  destruct (Py.isspace c) eqn:Hc; [exact IH | exact Hc].
Qed.

Lemma lstrip_ws_snoc (s : string) (c : ascii) :
  Py.isspace c = false -> exists u, Py.lstrip_ws (s +:+ String c "") = u +:+ String c "".
Proof.
  intros Hc. induction s as [|d s (u & IH)].
  - exists EmptyString. change ("" +:+ String c "") with (String c ""). simpl. rewrite Hc. reflexivity.
  - rewrite append_cons. simpl. destruct (Py.isspace d).
    + exists u. exact IH.
    + exists (String d s). reflexivity.
Qed.

Lemma manifest_line_spec (r : string) : manifest_line r = negb (blank_or_comment r).
Proof.
  unfold manifest_line, blank_or_comment, Py.strip_ws.
  pose proof (lstrip_ws_head r) as Hhead.
  destruct (Py.lstrip_ws r) as [|c t]; [reflexivity|].
  cbn [Py.rev_string].
  destruct (lstrip_ws_snoc (Py.rev_string t) c Hhead) as (u & ->).
  rewrite rev_string_append. cbn [Py.rev_string].
  change (("" +:+ String c "") +:+ Py.rev_string u) with (String c (Py.rev_string u)).
  unfold Py.truthy, Py.startswith. cbn [String.eqb prefix negb andb].
  destruct (Ascii.eqb_spec c "#") as [->|Hne].
  - destruct (ascii_dec "#" "#"); [|congruence]. destruct (Py.rev_string u); reflexivity.
  - destruct (ascii_dec "#" c); [congruence | reflexivity].
Qed.

Lemma filter_ext_bool {A} (f g : A -> bool) (l : list A) :
  (forall x, f x = g x) -> List.filter f l = List.filter g l.
Proof. intros H. induction l as [|x l IH]; [reflexivity|]. simpl. rewrite H, IH. reflexivity. Qed.

(** X6. [load_manifest] hands to the CSV reader the lines of the file
    that are not blank and whose first non-blank character is not [#], in
    their order, and returns the rows the reader makes of them.  So a
    blank line or a comment line changes nothing, wherever it stands, be
    it before the header line. *)
Theorem load_manifest_skips_comments (DictReader : list string -> list FetchSeed.Row)
    (lines : list string) (w : World) :
  load_manifest DictReader (Some lines) w
  = (Ok (DictReader (List.filter (fun r => negb (blank_or_comment r)) lines)), w)
  /\ (forall before line after,
        blank_or_comment line = true ->
        load_manifest DictReader (Some (before ++ line :: after)) w
        = load_manifest DictReader (Some (before ++ after)) w).
Proof.
  split.
  - unfold load_manifest, ret. f_equal. f_equal. f_equal.
    apply filter_ext_bool, manifest_line_spec.
  - intros before line after Hline. unfold load_manifest, ret. f_equal. f_equal. f_equal.
    rewrite !List.filter_app. cbn [List.filter].
    rewrite manifest_line_spec, Hline. reflexivity.
Qed.

Section RateLimiterMore.
Context (lib : Lib) (cfg : Config) (env : Env).

#[local] Abbreviation get_domain := (FetchSeed.get_domain lib).
#[local] Abbreviation wait_for_domain := (FetchSeed.wait_for_domain cfg env).
#[local] Abbreviation record_domain_request := (FetchSeed.record_domain_request lib cfg).
#[local] Abbreviation effective_delay := (FetchSeed.effective_delay cfg).
#[local] Abbreviation polite_fetch := (FetchSeed.polite_fetch lib cfg env).

Lemma wait_for_domain_emitted (domain : option string) (w : World) :
  emitted (wait_for_domain domain) w
  = match wait_pause cfg env domain w with
    | Some ms =>
        match sleep_error env (call_index w) ms with
        | None => [EvSleep ms]
        | Some _ => []
        end
    | None => []
    end.
Proof.
  apply emitted_spec. unfold exec.
  rewrite (proj1 (wait_for_domain_spec cfg env domain w)).
  destruct (wait_pause cfg env domain w) as [ms|]; [|reflexivity].
  unfold time_sleep.
  change (call_index (push_log DEBUG "Sleeping %.2fs to respect crawl-delay for %s" w))
    with (call_index w).
  destruct (sleep_error env (call_index w) ms); reflexivity.
Qed.

Lemma wait_for_domain_result (domain : option string) (w : World) :
  result (wait_for_domain domain) w
  = match wait_pause cfg env domain w with
    | Some ms =>
        match sleep_error env (call_index w) ms with
        | None => Ok tt
        | Some e => Raise e
        end
    | None => Ok tt
    end.
Proof.
  unfold result. rewrite (proj1 (wait_for_domain_spec cfg env domain w)).
  destruct (wait_pause cfg env domain w) as [ms|]; [|reflexivity].
  unfold time_sleep.
  change (call_index (push_log DEBUG "Sleeping %.2fs to respect crawl-delay for %s" w))
    with (call_index w).
  destruct (sleep_error env (call_index w) ms); reflexivity.
Qed.

Lemma yields_bind_all {A B} (Q : Res B -> Prop) (m : M A) (k : A -> M B) :
  (forall a, yields Q (k a)) -> (forall e, Q (Raise e)) -> yields Q (bind m k).
Proof.
  intros Hk He. apply yields_bind. eapply yields_weaken; [|apply yields_any].
  intros [a|e] _; [apply Hk | apply He].
Qed.

(** A response that [polite_fetch] returns is an answer to its request. *)
Lemma polite_fetch_fetched (url : string) (params : Params) :
  yields (fun res => match res with
                     | Ok (FetchSeed.Fetched r) => exists i, http_get env i url params = inr r
                     | _ => True
                     end) (polite_fetch url params).
Proof.
  unfold FetchSeed.polite_fetch. cbv zeta.
  apply yields_bind_all; [|auto]. intros rp.
  assert (Hgo : yields (fun res => match res with
                     | Ok (FetchSeed.Fetched r) => exists i, http_get env i url params = inr r
                     | _ => True
                     end)
            (wait_for_domain (get_domain url) ;;;
             try_except_class is_request_exception
               (log INFO "Fetching %s" ;;;
                resp <- session_get env url params ;;
                record_domain_request (get_domain url) rp ;;;
                ret (FetchSeed.Fetched resp))
               (fun e => log WARNING "Request failed for %s: %s" ;;;
                         ret (FetchSeed.FetchError (exn_str e) url)))).
  { apply yields_bind_all; [|auto]. intros _.
    apply yields_try_except_class. apply yields_bind_all.
    - intros _. apply yields_bind. eapply yields_weaken; [|apply yields_session_get].
      intros [resp|e] H.
      + apply yields_bind_all.
        * intros _. apply yields_ret. exact H.
        * intros e. destruct (is_request_exception e); [|exact I].
          apply yields_bind_all; [intros _; apply yields_ret; exact I | auto].
      + destruct (is_request_exception e); [|exact I].
        apply yields_bind_all; [intros _; apply yields_ret; exact I | auto].
    - intros e. destruct (is_request_exception e); [|exact I].
      apply yields_bind_all; [intros _; apply yields_ret; exact I | auto]. }
  destruct rp as [p|]; [|exact Hgo].
  destruct (negb (can_fetch p (USER_AGENT cfg) url)); [|exact Hgo].
  apply yields_bind_all; [intros _; apply yields_ret; exact I | auto].
Qed.

(** X7. The politeness wait leaves the two tables as they are.  It
    pauses only when the domain has a (non-zero) stamp and less than
    the delay in force has passed since; the pause is then what is
    left of the delay plus at most one second.  When [time.sleep]
    takes the pause, the wait returns with the clock advanced by just
    the pause; when it does not (the pause is too long to convert, or
    the platform refuses it), the wait raises the error of
    [time.sleep], having done nothing.  A wait that is in range (the
    delay in force is sleepable, the stamp is not of the future)
    returns. *)
Theorem wait_for_domain_sleeps_the_remainder (domain : option string) (w : World) :
  let run := wait_for_domain domain in
  let delay := effective_delay w domain in
  let idle := result run w = Ok tt /\ emitted run w = [] /\ clock (exec run w) = clock w in
  domain_last_request (exec run w) = domain_last_request w
  /\ domain_crawl_delay (exec run w) = domain_crawl_delay w
  /\ match domain_last_request w !! domain with
     | Some last =>
         if (last =? 0) || (delay <=? clock w - last) then idle
         else exists ms,
                delay - (clock w - last) <= ms <= delay - (clock w - last) + 1000
                /\ match sleep_error env (call_index w) ms with
                   | None =>
                       result run w = Ok tt
                       /\ emitted run w = [EvSleep ms]
                       /\ clock (exec run w) = clock w + ms
                   | Some e =>
                       result run w = Raise e
                       /\ emitted run w = []
                       /\ clock (exec run w) = clock w
                   end
     | None => idle
     end
  /\ (wait_in_range cfg env w domain -> result run w = Ok tt).
Proof.
  intros run delay idle. subst run delay idle.
  pose proof (wait_for_domain_emitted domain w) as Hem.
  pose proof (wait_for_domain_result domain w) as Hres.
  destruct (wait_for_domain_spec cfg env domain w) as (Hrun & _).
  split; [|split; [|split]].
  - destruct (wait_cases cfg env domain w) as (res & w2 & Hw & _ & Hl & _).
    unfold exec. rewrite Hw. exact Hl.
  - destruct (wait_cases cfg env domain w) as (res & w2 & Hw & _ & _ & Hd & _).
    unfold exec. rewrite Hw. exact Hd.
  - rewrite Hem, Hres. unfold exec. rewrite Hrun. clear Hem Hres Hrun.
    unfold wait_pause.
    destruct (domain_last_request w !! domain) as [last|]; [|repeat split; reflexivity].
    destruct ((last =? 0) || (effective_delay w domain <=? clock w - last));
      [repeat split; reflexivity|].
    exists (effective_delay w domain - (clock w - last) + random_uniform_0_1 env w).
    split; [pose proof (random_uniform_bounds env w); lia|].
    unfold time_sleep.
    change (call_index (push_log DEBUG "Sleeping %.2fs to respect crawl-delay for %s" w))
      with (call_index w).
    destruct (sleep_error env (call_index w) _); repeat split; reflexivity.
  - intros Hrange. destruct (wait_total cfg env domain w Hrange) as (w2 & Hok).
    unfold result. rewrite Hok. reflexivity.
Qed.


(** X9. [polite_fetch] obeys robots.txt: when the policy it has just
    read disallows the URL, it returns the skip record and has done
    nothing but the robots.txt retrieval: no pause, no request, and
    both tables are as they were. *)
Theorem polite_fetch_obeys_robots (url : string) (params : Params) (w : World) :
  disallowed cfg (polite_lookup lib env url w) url = true ->
  result (polite_fetch url params) w = Ok (FetchSeed.SkippedByRobots url)
  /\ emitted (polite_fetch url params) w
     = [EvRobots (FetchSeed.robots_txt_url (get_domain url)) (clock w) true]
  /\ domain_last_request (exec (polite_fetch url params) w) = domain_last_request w
  /\ domain_crawl_delay (exec (polite_fetch url params) w) = domain_crawl_delay w.
Proof.
  intros Hdis.
  assert (Hev : polite_lookup_events lib env url w
                = [EvRobots (FetchSeed.robots_txt_url (get_domain url)) (clock w) true]).
  { unfold disallowed, polite_lookup, polite_lookup_events in *.
    destruct (FetchSeed.opt_truthy (get_domain url)); [|discriminate].
    destruct (robots_read env (call_index w) _); [reflexivity | discriminate]. }
  destruct (polite_fetch_emitted lib cfg env url params w)
    as [(_ & Hem) | [(Hno & _) | (Hno & _)]]; [|congruence|congruence].
  destruct (polite_fetch_run lib cfg env url params w)
    as (w1 & _ & _ & _ & _ & [(_ & w' & Hpf & _ & _ & Hl & Hd) | [(Hno & _) | (Hno & _)]]);
    [|congruence|congruence].
  unfold result, exec in *. rewrite Hem, Hev, Hpf. auto.
Qed.

(** X10. A request that fails is reported, not recorded: when the
    wait for the domain is in range (so that the request is reached)
    and the transport raises a [requests.RequestException],
    [polite_fetch] returns the error record with the text of the
    exception; any other exception is raised to the caller.  In both
    cases the request was the last thing done, and neither the stamp
    nor the delay of any domain has changed. *)
Theorem polite_fetch_reports_transport_errors (url : string) (params : Params) (e : Exn)
    (w : World) :
  (forall i, http_get env i url params = inl e) ->
  disallowed cfg (polite_lookup lib env url w) url = false ->
  wait_in_range cfg env w (get_domain url) ->
  result (polite_fetch url params) w
  = (if is_request_exception e then Ok (FetchSeed.FetchError (exn_str e) url) else Raise e)
  /\ (exists before s, emitted (polite_fetch url params) w
                       = before ++ [EvGet url params s false])
  /\ domain_last_request (exec (polite_fetch url params) w) = domain_last_request w
  /\ domain_crawl_delay (exec (polite_fetch url params) w) = domain_crawl_delay w.
Proof.
  intros Hget Hdis Hrange.
  destruct (polite_fetch_run_in_range lib cfg env url params w Hrange)
    as (w1 & _ & _ & _ & Ht1 & [(Hyes & _) |
         (_ & w2 & w3 & ok & Hw & Ht3 & _ &
          [(r & _ & Hpf & _) | (e' & -> & Hget' & Hpf & Hl & Hd)])]); [congruence| |].
  - exfalso. pose proof (polite_fetch_fetched url params w) as Hf.
    unfold result in Hf. rewrite Hpf in Hf. destruct Hf as (i & Hi).
    rewrite Hget in Hi. discriminate.
  - rewrite Hget in Hget'. injection Hget' as <-.
    destruct (wait_run_ok cfg env (get_domain url) w1 w2 Hw) as (_ & _ & _ & Ht2 & _).
    unfold result, exec. rewrite Hpf. split; [destruct (is_request_exception e); reflexivity|].
    split; [|destruct (is_request_exception e); auto].
    assert (Htr : exists before,
              trace (snd (polite_fetch url params w))
              = rev (before ++ [EvGet url params (clock w2) false]) ++ trace w).
    { rewrite Hpf. replace (trace (snd (if is_request_exception e
                 then Ok (FetchSeed.FetchError (exn_str e) url) else Raise e, w3)))
        with (trace w3) by (destruct (is_request_exception e); reflexivity).
      rewrite Ht3.
      destruct Ht2 as [Ht2 | (ms & _ & Ht2)]; rewrite Ht2, Ht1.
      - exists (rev (polite_lookup_events lib env url w)).
        rewrite rev_app_distr, rev_involutive. reflexivity.
      - exists (rev (EvSleep ms :: polite_lookup_events lib env url w)).
        rewrite rev_app_distr, rev_involutive. reflexivity. }
    destruct Htr as (before & Htr). exists before, (clock w2).
    apply emitted_spec. exact Htr.
Qed.

End RateLimiterMore.

Section RateLimiterFrame.
Context (lib : Lib) (cfg : Config) (env : Env).

#[local] Abbreviation get_domain := (FetchSeed.get_domain lib).
#[local] Abbreviation effective_delay := (FetchSeed.effective_delay cfg).
#[local] Abbreviation polite_fetch := (FetchSeed.polite_fetch lib cfg env).

(** X11. The tables are kept per domain: whatever a call of
    [polite_fetch] does, the stamp and the delay of every domain other
    than that of its URL are what they were. *)
Theorem polite_fetch_touches_one_domain (url : string) (params : Params) (w : World)
    (d : option string) :
  d <> get_domain url ->
  domain_last_request (exec (polite_fetch url params) w) !! d = domain_last_request w !! d
  /\ domain_crawl_delay (exec (polite_fetch url params) w) !! d = domain_crawl_delay w !! d
  /\ effective_delay (exec (polite_fetch url params) w) d = effective_delay w d.
Proof.
  intros Hne.
  assert (H : domain_last_request (exec (polite_fetch url params) w) !! d
              = domain_last_request w !! d
              /\ domain_crawl_delay (exec (polite_fetch url params) w) !! d
                 = domain_crawl_delay w !! d).
  { unfold exec.
    destruct (polite_fetch_run lib cfg env url params w)
      as (w1 & _ & _ & _ & _ & [(_ & w' & -> & _ & _ & Hl & Hd) |
           [(_ & w2 & w3 & ok & _ & _ & _ &
             [(r & _ & -> & Hl & Hd & _) | (e & _ & _ & -> & Hl & Hd)]) |
            (_ & e & w' & _ & -> & _ & _ & Hl & Hd)]]); simpl.
    4:{ rewrite Hl, Hd. auto. }
    - rewrite Hl, Hd. auto.
    - rewrite Hl, lookup_insert_ne by congruence. rewrite (Hd d Hne). auto.
    - replace (snd (if is_request_exception e
                    then Ok (FetchSeed.FetchError (exn_str e) url) else Raise e, w3))
        with w3 by (destruct (is_request_exception e); reflexivity).
      rewrite Hl, Hd. auto. }
  destruct H as (H1 & H2). split; [exact H1|]. split; [exact H2|].
  unfold FetchSeed.effective_delay. rewrite H2. reflexivity.
Qed.

(** X12. A URL without host is fetched without consulting any
    robots.txt: [polite_fetch] makes no retrieval for it and never skips
    it; all it does is the wait for the empty domain, with a pause if
    one is due, and then the request; or, when [time.sleep] refuses
    the pause, nothing at all: the error of [time.sleep] is raised.
    With the wait in range it is the request. *)
Theorem polite_fetch_without_host (url : string) (params : Params) (w : World) :
  FetchSeed.opt_truthy (get_domain url) = false ->
  let fetched :=
    exists pause s ok,
      (pause = [] \/ exists ms, 0 <= ms /\ pause = [EvSleep ms])
      /\ emitted (polite_fetch url params) w = pause ++ [EvGet url params s ok] in
  result (polite_fetch url params) w <> Ok (FetchSeed.SkippedByRobots url)
  /\ (fetched
      \/ (emitted (polite_fetch url params) w = []
          /\ exists e, result (polite_fetch url params) w = Raise e))
  /\ (wait_in_range cfg env w (get_domain url) -> fetched).
Proof.
  intros Hhost fetched. subst fetched.
  assert (Hlk : polite_lookup lib env url w = None).
  { unfold polite_lookup. rewrite Hhost. reflexivity. }
  assert (Hev : polite_lookup_events lib env url w = []).
  { unfold polite_lookup_events. rewrite Hhost. reflexivity. }
  split; [|split].
  - unfold result.
    destruct (polite_fetch_run lib cfg env url params w)
      as (w1 & _ & _ & _ & _ & [(Hdis & _) |
           [(_ & w2 & w3 & ok & _ & _ & _ & [(r & _ & -> & _) | (e & _ & _ & -> & _)]) |
            (_ & e & w' & _ & -> & _)]]).
    + rewrite Hlk in Hdis. discriminate.
    + discriminate.
    + destruct (is_request_exception e); discriminate.
    + discriminate.
  - destruct (polite_fetch_emitted lib cfg env url params w)
      as [(Hdis & _) | [(_ & sleeps & s & ok & Hsl & Hem) | (_ & He & Hem)]].
    + rewrite Hlk in Hdis. discriminate.
    + left. exists sleeps, s, ok. split; [exact Hsl|]. rewrite Hem, Hev. reflexivity.
    + right. rewrite Hem, Hev. auto.
  - intros Hrange.
    destruct (polite_fetch_emitted_in_range lib cfg env url params w Hrange)
      as [(Hdis & _) | (_ & sleeps & s & ok & Hsl & Hem)].
    + rewrite Hlk in Hdis. discriminate.
    + exists sleeps, s, ok. split; [exact Hsl|]. rewrite Hem, Hev. reflexivity.
Qed.

End RateLimiterFrame.

(** ** Whole runs of [main] *)

Ltac unfold_row :=
  unfold FetchSeed.process_row, FetchSeed.build_output_paths, FetchSeed.usaspending_branch,
    FetchSeed.sam_branch, FetchSeed.generic_path, FetchSeed.robots_skip,
    FetchSeed.get_robots_parser_for_domain, FetchSeed.store_pair, FetchSeed.commit_generic,
    FetchSeed.read_content, FetchSeed.upload_text, FetchSeed.upload_bytes,
    FetchSeed.save_local_text, FetchSeed.save_local_bytes, FetchSeed.ensure_local_path.

Section RunEvents.
Context (lib : Lib) (cfg : Config) (env : Env).
Context (Q : Event -> Prop).

Lemma Forall_one (e : Event) : Q e -> Forall Q [e].
Proof. intros H. constructor; [exact H | constructor]. Qed.

(** Sequencing after a step whose outcome is known and which emits
    nothing *)
Lemma emits_bind_known {A B} (m : M A) (k : A -> M B) (a : A) :
  (forall w, m w = (Ok a, w)) -> emits (Forall Q) (k a) -> emits (Forall Q) (bind m k).
Proof.
  intros Hm Hk w. unfold exec, bind. rewrite Hm. apply Hk.
Qed.

(** A call of [polite_fetch] emits robots.txt retrievals, pauses and
    requests, and nothing else. *)
Lemma polite_fetch_kinds (url : string) (params : Params) :
  (forall u s ok, Q (EvRobots u s ok)) ->
  (forall ms, Q (EvSleep ms)) ->
  (forall s ok, Q (EvGet url params s ok)) ->
  emits (Forall Q) (FetchSeed.polite_fetch lib cfg env url params).
Proof.
  intros Hrobots Hsleep Hget w.
  assert (Hany : emits (fun _ => True) (FetchSeed.polite_fetch lib cfg env url params)).
  { apply emits_polite_fetch; [split; auto | auto]. }
  destruct (emits_emitted _ _ w Hany) as (Ht & _).
  exists (emitted (FetchSeed.polite_fetch lib cfg env url params) w). split; [exact Ht|].
  assert (Hlk : Forall Q (polite_lookup_events lib env url w)).
  { unfold polite_lookup_events. destruct (FetchSeed.opt_truthy _); repeat constructor.
    apply Hrobots. }
  destruct (polite_fetch_emitted lib cfg env url params w)
    as [(_ & ->) | [(_ & sleeps & s & ok & Hsl & ->) | (_ & _ & ->)]];
    [exact Hlk| |exact Hlk].
  apply Forall_app. split; [exact Hlk|]. apply Forall_app. split.
  - destruct Hsl as [-> | (ms & _ & ->)]; repeat constructor. apply Hsleep.
  - repeat constructor. apply Hget.
Qed.

Lemma backoff_kinds (resp : Response) :
  (forall ms, Q (EvSleep ms)) -> emits (Forall Q) (FetchSeed.backoff_429 lib cfg env resp).
Proof.
  intros Hsleep. unfold FetchSeed.backoff_429.
  repeat emits_step.
  intros w. unfold exec, time_sleep. destruct (sleep_error env _ _).
  - exists []. split; [reflexivity | constructor].
  - eexists [_]. split; [reflexivity | apply Forall_one, Hsleep].
Qed.

End RunEvents.

Section LocalOnly.
Context (lib : Lib) (cfg : Config) (env : Env).

Lemma make_adls_writer_local_only (w : World) :
  FetchSeed.make_adls_writer cfg env true w = (Ok None, w).
Proof.
  unfold FetchSeed.make_adls_writer.
  destruct (ADLS_ACCOUNT cfg) as [account|]; [|reflexivity].
  destruct (ADLS_FILESYSTEM cfg) as [fs|]; [|reflexivity].
  cbn [negb]. rewrite Bool.andb_false_r. reflexivity.
Qed.

Lemma process_row_local (dry_run : bool) (row : FetchSeed.Row) :
  emits (Forall (fun e => is_adls_event e = false))
        (FetchSeed.process_row lib cfg env dry_run None row).
Proof.
  unfold_row.
  repeat first
    [ progress cbv beta iota zeta
    | apply polite_fetch_kinds; [reflexivity | reflexivity | reflexivity]
    | apply backoff_kinds; reflexivity
    | emits_step ];
    apply Forall_one; reflexivity.
Qed.

(** X13. With [--local-only], [main] never calls the Azure SDK: the
    writer is not even initialised, and every event of the run is a
    robots.txt retrieval, a request, a pause or a call of the local
    file system. *)
Theorem local_only_never_calls_adls (rows : list FetchSeed.Row) (dry_run : bool) (w : World) :
  Forall (fun e => is_adls_event e = false)
         (emitted (FetchSeed.main lib cfg env rows dry_run true) w).
Proof.
  assert (H : emits (Forall (fun e => is_adls_event e = false))
                (FetchSeed.main lib cfg env rows dry_run true)).
  { unfold FetchSeed.main.
    do 2 (apply emits_bind; [exact _ | apply emits_log; exact _ | intros _]).
    apply (emits_bind_known _ _ _ None); [apply make_adls_writer_local_only|].
    apply emits_bind; [exact _ | | intros _; apply emits_log; exact _].
    apply emits_for_each; [exact _|]. intros row. apply process_row_local. }
  destruct (emits_emitted _ _ w H) as (_ & HP). exact HP.
Qed.

End LocalOnly.

Section DryRun.
Context (lib : Lib) (cfg : Config) (env : Env).

Lemma process_row_dry (wr : option FetchSeed.ADLSWriter) (row : FetchSeed.Row) :
  emits (Forall (fun e => dry_run_event e = true))
        (FetchSeed.process_row lib cfg env true wr row).
Proof.
  unfold_row.
  repeat first [ progress cbv beta iota zeta | emits_step ];
    apply Forall_one; reflexivity.
Qed.

(** X14. What the dry-run flag does guarantee: [main] issues no
    request at all, neither to a URL of the manifest nor to an API
    endpoint, never pauses, and writes no content.  All it may still do
    is initialise the remote writer, retrieve robots.txt files and write
    robots-skip records. *)
Theorem dry_run_fetches_nothing (rows : list FetchSeed.Row) (local_only : bool) (w : World) :
  Forall (fun e => dry_run_event e = true)
         (emitted (FetchSeed.main lib cfg env rows true local_only) w).
Proof.
  assert (H : emits (Forall (fun e => dry_run_event e = true))
                (FetchSeed.main lib cfg env rows true local_only)).
  { unfold FetchSeed.main, FetchSeed.make_adls_writer, FetchSeed.ADLSWriter_init.
    repeat first [ apply process_row_dry | emits_step ]; apply Forall_one; reflexivity. }
  destruct (emits_emitted _ _ w H) as (_ & HP). exact HP.
Qed.

End DryRun.

Section Durable.
Context (lib : Lib) (cfg : Config) (env : Env).

Lemma commit_generic_run (wr : option FetchSeed.ADLSWriter) (outdir filename body : string)
    (meta : Json) (w : World) :
  local_store_works env ->
  let run := FetchSeed.commit_generic cfg env wr outdir filename body meta in
  let local_dir := Py.path_join (LOCAL_RAW_BASE cfg) outdir in
  exists new,
    trace (exec run w) = rev new ++ trace w
    /\ result run w = Ok tt
    /\ ((exists fs,
           wr = Some (FetchSeed.mkADLSWriter fs)
           /\ In (EvAdls (UploadData fs outdir filename (RawBytes body)) true) new
           /\ In (EvAdls (UploadData fs outdir (filename +:+ ".metadata.json")
                            (JsonText true meta)) true) new
           /\ Forall (fun e => is_local_event e = false) new)
        \/ (In (EvLocal (WriteFile (Py.path_join local_dir filename) (RawBytes body)) true) new
            /\ In (EvLocal (WriteFile (Py.path_join local_dir (filename +:+ ".metadata.json"))
                              (JsonText true meta)) true) new)).
Proof.
  intros Hlocal run local_dir. subst run local_dir.
  unfold FetchSeed.commit_generic, FetchSeed.upload_text, FetchSeed.upload_bytes,
    FetchSeed.save_local_bytes, FetchSeed.save_local_text, FetchSeed.ensure_local_path,
    exec, result, bind, try_except, adls_call, local_call, log, ret.
  destruct wr as [[fs]|]; run_storage env;
    try match goal with
        | H : localfs env ?i ?op = false |- _ =>
            exfalso; rewrite (Hlocal i op) in H; discriminate H
        end;
    give_events;
    (split; [reflexivity|]);
    first [ right; split; cbn [In]; auto 20; fail
          | left; exists fs; split; [reflexivity|]; split; [cbn [In]; auto 20|];
            split; [cbn [In]; auto 20 | repeat constructor] ].
Qed.

(** X15. A commit of the generic path is durable whenever the local
    file system works: [commit_generic] returns normally, and by then
    either both the content and its sidecar were uploaded to the remote
    store, with no local write at all, or both were written to the
    local directory (the fallback when any call of the upload fails,
    and the only way without a remote writer). *)
Theorem commit_generic_is_durable (wr : option FetchSeed.ADLSWriter)
    (outdir filename body : string) (meta : Json) (w : World) :
  local_store_works env ->
  let run := FetchSeed.commit_generic cfg env wr outdir filename body meta in
  let local_dir := Py.path_join (LOCAL_RAW_BASE cfg) outdir in
  result run w = Ok tt
  /\ ((exists fs,
         wr = Some (FetchSeed.mkADLSWriter fs)
         /\ In (EvAdls (UploadData fs outdir filename (RawBytes body)) true) (emitted run w)
         /\ In (EvAdls (UploadData fs outdir (filename +:+ ".metadata.json")
                          (JsonText true meta)) true) (emitted run w)
         /\ Forall (fun e => is_local_event e = false) (emitted run w))
      \/ (In (EvLocal (WriteFile (Py.path_join local_dir filename) (RawBytes body)) true)
            (emitted run w)
          /\ In (EvLocal (WriteFile (Py.path_join local_dir (filename +:+ ".metadata.json"))
                            (JsonText true meta)) true) (emitted run w))).
Proof.
  intros Hlocal run local_dir.
  destruct (commit_generic_run wr outdir filename body meta w Hlocal) as (new & Ht & Hr & H).
  fold run in Ht, Hr. rewrite (emitted_spec _ _ _ Ht). split; [exact Hr | exact H].
Qed.

End Durable.

Section GenericRows.
Context (lib : Lib) (cfg : Config) (env : Env).

#[local] Abbreviation lookup_url url := (FetchSeed.robots_txt_url (FetchSeed.get_domain lib url)).

Lemma robots_skip_events (wr : option FetchSeed.ADLSWriter)
    (source_name url notes outdir : string) :
  emits (Forall (fun e => is_storage_event e = true /\ is_content_write e = false))
        (FetchSeed.robots_skip lib cfg env wr source_name url notes outdir).
Proof.
  unfold FetchSeed.robots_skip, FetchSeed.upload_text, FetchSeed.upload_bytes,
    FetchSeed.save_local_text, FetchSeed.ensure_local_path.
  repeat first [ progress cbv beta iota zeta | emits_step ];
    apply Forall_one; split; reflexivity.
Qed.

(** X16. A row whose URL the robots.txt just read disallows is not
    fetched, with or without the dry-run flag: after the retrieval of
    robots.txt the row makes no request and no pause; it only calls the
    store, for the robots-skip record, and never with content bytes. *)
Theorem disallowed_row_is_not_fetched (dry_run : bool) (wr : option FetchSeed.ADLSWriter)
    (row : FetchSeed.Row) (source_name url notes outdir basename : string)
    (p : RobotsParser) (w : World) :
  Py.truthy url = true ->
  robots_read env (call_index w) (lookup_url url) = Some p ->
  can_fetch p (USER_AGENT cfg) url = false ->
  exists rest,
    emitted (FetchSeed.generic_path lib cfg env dry_run wr row source_name url notes
               outdir basename) w
    = EvRobots (lookup_url url) (clock w) true :: rest
    /\ Forall (fun e => is_storage_event e = true /\ is_content_write e = false) rest.
Proof.
  intros Hurl Hread Hcan.
  destruct (lookup_run env (FetchSeed.get_domain lib url) w) as (w1 & Hr & _ & _ & _ & Ht1).
  rewrite Hread in Hr, Ht1.
  destruct (robots_skip_events wr source_name url notes outdir w1) as (rest & Ht & Hrest).
  exists rest. split; [|exact Hrest].
  apply emitted_spec. unfold FetchSeed.generic_path. rewrite Hurl. cbn [negb].
  unfold exec, bind at 1. rewrite Hr. cbv beta iota. rewrite Hcan. cbn [negb].
  unfold exec in Ht. rewrite Ht, Ht1. cbn [rev]. rewrite <- app_assoc. reflexivity.
Qed.

(** X17. With [bool(response)] as [requests] defines it (false for the
    statuses 400 to 599), an answer with an error status is dropped as
    if there were no response: the row ends with its request, nothing
    is handed to a store, and the back-off for status 429 is not
    reached.  (Stated for a server that answers every request with an
    error status, a robots.txt that disallows nothing and a wait for
    the domain that is in range, so that the request is made.) *)
Theorem error_answers_are_dropped (wr : option FetchSeed.ADLSWriter) (row : FetchSeed.Row)
    (source_name url notes outdir basename : string) (w : World) :
  bool_is_ok lib ->
  (forall i u ps, exists r, http_get env i u ps = inr r /\ error_status r = true) ->
  robots_never_disallow cfg env ->
  Py.truthy url = true ->
  wait_in_range cfg env w (FetchSeed.get_domain lib url) ->
  let run := FetchSeed.generic_path lib cfg env false wr row source_name url notes
               outdir basename in
  result run w = Ok tt
  /\ Forall (fun e => is_storage_event e = false) (emitted run w)
  /\ exists before s, emitted run w = before ++ [EvGet url [] s true].
Proof.
  intros Hbool Herr Hallow Hurl Hrange run.
  destruct (lookup_run env (FetchSeed.get_domain lib url) w) as (w1 & Hr & Hc1 & Hl1 & Hd1 & Ht1).
  pose proof (wait_in_range_later cfg env _ w w1 Hrange Hc1 Hl1 Hd1) as Hrange1.
  assert (Hnot : forall o i u, o = robots_read env i u -> disallowed cfg o url = false).
  { intros o i u ->. unfold disallowed.
    destruct (robots_read env i u) as [p|] eqn:Hp; [|reflexivity].
    rewrite (Hallow i u p url Hp). reflexivity. }
  (* the call of polite_fetch *)
  assert (Hpf : exists info w3 before s,
            FetchSeed.polite_fetch lib cfg env url [] w1 = (Ok info, w3)
            /\ trace w3 = EvGet url [] s true :: before ++ trace w1
            /\ Forall (fun e => is_storage_event e = false) before
            /\ match info with
               | FetchSeed.Fetched r => error_status r = true
               | _ => True
               end).
  { pose proof (polite_fetch_fetched lib cfg env url [] w1) as Hf. unfold result in Hf.
    destruct (polite_fetch_run_in_range lib cfg env url [] w1 Hrange1)
      as (w1' & _ & _ & _ & Htl & [(Hdis & _) |
           (_ & w2 & w3 & ok & Hw & Ht3 & _ &
            [(r & -> & Hpf & _) | (e & _ & Hget & _)])]).
    - exfalso. unfold polite_lookup in Hdis.
      destruct (FetchSeed.opt_truthy _); [|discriminate].
      rewrite (Hnot _ _ _ eq_refl) in Hdis. discriminate.
    - rewrite Hpf in Hf. destruct Hf as (i & Hi).
      destruct (Herr i url []) as (r' & Hr' & He). rewrite Hi in Hr'. injection Hr' as <-.
      destruct (wait_run_ok cfg env (FetchSeed.get_domain lib url) w1' w2 Hw)
        as (_ & _ & _ & Ht2 & _).
      assert (Hlk : Forall (fun e => is_storage_event e = false)
                      (polite_lookup_events lib env url w1)).
      { unfold polite_lookup_events. destruct (FetchSeed.opt_truthy _); repeat constructor. }
      destruct Ht2 as [Ht2 | (ms & _ & Ht2)].
      + exists (FetchSeed.Fetched r), w3, (polite_lookup_events lib env url w1), (clock w2).
        split; [exact Hpf|]. split; [rewrite Ht3, Ht2, Htl; reflexivity|]. auto.
      + exists (FetchSeed.Fetched r), w3,
          (EvSleep ms :: polite_lookup_events lib env url w1), (clock w2).
        split; [exact Hpf|]. split; [rewrite Ht3, Ht2, Htl; reflexivity|].
        split; [constructor; [reflexivity | exact Hlk] | exact He].
    - exfalso. destruct (Herr (call_index w2) url []) as (r' & Hr' & _). congruence. }
  destruct Hpf as (info & w3 & before & s & Hpf & Ht3 & Hbefore & Hinfo).
  (* the row as a whole *)
  assert (Hrun : exists w4, run w = (Ok tt, w4) /\ trace w4 = trace w3).
  { subst run. unfold FetchSeed.generic_path. rewrite Hurl. cbn [negb].
    unfold bind at 1. rewrite Hr. cbv beta iota.
    pose proof (Hnot _ _ _ eq_refl : disallowed cfg (robots_read env (call_index w)
                  (FetchSeed.robots_txt_url (FetchSeed.get_domain lib url))) url = false) as Hd.
    unfold disallowed in Hd. rewrite Hd.
    unfold bind at 1. rewrite Hpf. cbv beta iota.
    destruct info as [u|r|err u]; try (eexists; split; reflexivity).
    rewrite (Hbool r Hinfo). cbn [negb]. eexists; split; reflexivity. }
  destruct Hrun as (w4 & Hrun & Ht4).
  assert (Htr : trace (exec run w)
                = rev (EvRobots (FetchSeed.robots_txt_url (FetchSeed.get_domain lib url)) (clock w)
                         (bool_decide (is_Some (robots_read env (call_index w)
                            (FetchSeed.robots_txt_url (FetchSeed.get_domain lib url)))))
                       :: rev before ++ [EvGet url [] s true]) ++ trace w).
  { unfold exec. rewrite Hrun. cbn [snd]. rewrite Ht4, Ht3, Ht1.
    cbn [rev]. rewrite rev_app_distr, rev_involutive. cbn [rev app].
    rewrite <- !app_assoc. reflexivity. }
  unfold result. rewrite (emitted_spec _ _ _ Htr), Hrun. split; [reflexivity|]. split.
  - constructor; [reflexivity|]. apply Forall_app. split.
    + apply Forall_rev. exact Hbefore.
    + repeat constructor.
  - eexists (_ :: rev before), s. reflexivity.
Qed.

End GenericRows.

(** ** The paginated fetch *)

Section Recipient.
Context (lib : Lib) (cfg : Config) (env : Env).

Lemma page_loop_recipient (fuel : nat) (fs recipient_id rid rlevel : string)
    (pagesize sleep_s : Z) :
  forall page,
    emits (Forall (recipient_event rid rlevel
                     (UsaspendingFetch.prefix_dir +:+ "/" +:+ recipient_id)))
          (UsaspendingFetch.page_loop lib env fuel fs recipient_id rid rlevel pagesize
             sleep_s page).
Proof.
  induction fuel as [|fuel IH]; intros page; cbn [UsaspendingFetch.page_loop].
  - apply emits_ret; exact _.
  - unfold UsaspendingFetch.write_json_to_adls, UsaspendingFetch.hits,
      UsaspendingFetch.payload_get.
    repeat first [ apply IH | emits_step ];
      apply Forall_one; cbn; auto.
Qed.

Lemma fetch_recipient (fuel : nat) (recipient_id rid rlevel : string) (pagesize sleep_s : Z) :
  (if Py.endswith "-C" recipient_id || Py.endswith "-P" recipient_id
   then Py.drop_last 2 recipient_id else recipient_id) = rid ->
  (if Py.endswith "-C" recipient_id || Py.endswith "-P" recipient_id
   then Py.last_char recipient_id else "C") = rlevel ->
  emits (Forall (recipient_event rid rlevel
                   (UsaspendingFetch.prefix_dir +:+ "/" +:+ recipient_id)))
        (UsaspendingFetch.fetch_usaspending_for_recipient lib cfg env fuel recipient_id
           pagesize sleep_s).
Proof.
  intros Hrid Hlevel. unfold UsaspendingFetch.fetch_usaspending_for_recipient.
  cbv zeta. rewrite Hrid, Hlevel. unfold environ_account, adls_client.
  repeat first [ apply page_loop_recipient | emits_step ]; apply Forall_one; exact I.
Qed.

(** X18. A suffix [-C] or [-P] of the recipient id is split off before
    the API is asked: every request of the run goes to the awards
    endpoint with the id without its suffix as [recipient_id] and the
    letter of the suffix as [recipient_level]; an id without such a
    suffix is sent as it is, at level [C].  The files, however, go to
    the directory named after the id as it was given, suffix included. *)
Theorem recipient_suffix_is_split_off (fuel : nat) (id : string) (pagesize sleep_s : Z)
    (w : World) :
  let run := UsaspendingFetch.fetch_usaspending_for_recipient lib cfg env fuel in
  Forall (recipient_event id "C" ("anduril/USAspending/" +:+ id +:+ "-C"))
         (emitted (run (id +:+ "-C") pagesize sleep_s) w)
  /\ Forall (recipient_event id "P" ("anduril/USAspending/" +:+ id +:+ "-P"))
            (emitted (run (id +:+ "-P") pagesize sleep_s) w)
  /\ (Py.endswith "-C" id = false -> Py.endswith "-P" id = false ->
      Forall (recipient_event id "C" ("anduril/USAspending/" +:+ id))
             (emitted (run id pagesize sleep_s) w)).
Proof.
  intros run. subst run.
  assert (Hsplit : forall c : ascii,
            Py.drop_last 2 (id +:+ String "-" (String c "")) = id
            /\ Py.last_char (id +:+ String "-" (String c "")) = String c "").
  { intros c. split.
    - apply (drop_last_append id (String "-" (String c ""))).
    - change (String "-" (String c "")) with ("-" +:+ String c "").
      rewrite <- append_assoc. apply last_char_append. }
  split; [|split].
  - destruct (emits_emitted _ _ w
                (fetch_recipient fuel (id +:+ "-C") id "C" pagesize sleep_s
                   ltac:(rewrite endswith_append; apply (Hsplit "C"%char))
                   ltac:(rewrite endswith_append; apply (Hsplit "C"%char)))) as (_ & H).
    exact H.
  - destruct (emits_emitted _ _ w
                (fetch_recipient fuel (id +:+ "-P") id "P" pagesize sleep_s
                   ltac:(rewrite (endswith_append "-P"), orb_true_r; apply (Hsplit "P"%char))
                   ltac:(rewrite (endswith_append "-P"), orb_true_r; apply (Hsplit "P"%char))))
      as (_ & H).
    exact H.
  - intros HC HP.
    destruct (emits_emitted _ _ w
                (fetch_recipient fuel id id "C" pagesize sleep_s
                   ltac:(rewrite HC, HP; reflexivity) ltac:(rewrite HC, HP; reflexivity)))
      as (_ & H).
    exact H.
Qed.

End Recipient.

Section PagingMore.
Context (lib : Lib) (cfg : Config) (env : Env).

#[local] Abbreviation page_loop := (UsaspendingFetch.page_loop lib env).
#[local] Abbreviation page_params := UsaspendingFetch.page_params.

Lemma get_params_app (a b : list Event) : get_params (a ++ b) = get_params a ++ get_params b.
Proof. unfold get_params. apply flat_map_app. Qed.

Lemma write_json_run (fs dir file : string) (data : Json) (w : World) :
  storage_works env ->
  exists w1,
    UsaspendingFetch.write_json_to_adls lib env fs dir file data w = (Ok tt, w1)
    /\ trace w1
       = rev [EvAdls (CreateDirectory fs dir) true;
              EvAdls (CreateFile fs dir file) true;
              EvAdls (AppendData fs dir file (JsonText true data) 0) true;
              EvAdls (FlushData fs dir file (String.length (json_dumps lib false data))) true]
         ++ trace w.
Proof.
  intros Hs. unfold UsaspendingFetch.write_json_to_adls, try_except, bind, adls_call.
  repeat (rewrite Hs; cbn -[append]). eexists. split; reflexivity.
Qed.

(** One turn on a page with results, with the events it emits *)
Lemma page_loop_turn (fuel : nat) (fs recipient_id rid rlevel : string)
    (pagesize sleep_s page : Z) (r : Response) (w : World) :
  storage_works env -> 0 <= sleep_s -> pause_accepted env sleep_s ->
  http_get env (call_index w) UsaspendingFetch.base (page_params rid rlevel pagesize page) = inr r ->
  nonempty_page r = true ->
  exists w' new,
    page_loop (S fuel) fs recipient_id rid rlevel pagesize sleep_s page w
    = page_loop fuel fs recipient_id rid rlevel pagesize sleep_s (page + 1) w'
    /\ trace w' = rev new ++ trace w
    /\ commits new = 1%nat /\ requests new = 1%nat
    /\ get_params new = [page_params rid rlevel pagesize page].
Proof.
  intros Hs Hsl Hpa Hget Hne.
  unfold nonempty_page, page_results in Hne.
  apply andb_true_iff in Hne. destruct Hne as (Hst & Hres).
  destruct (json_body r) as [[| | | | |fields]|] eqn:Hbody; try discriminate.
  destruct (Py.dict_get "results" fields) as [v|] eqn:Hv; try discriminate.
  apply andb_true_iff in Hres. destruct Hres as (Htruthy & Hlen).
  unfold has_len in Hlen. destruct (json_len v) as [n|] eqn:Hn; try discriminate.
  cbn [UsaspendingFetch.page_loop].
  unfold bind at 1. unfold log at 1. cbv beta iota.
  unfold bind at 1. unfold session_get.
  change (call_index (push_log INFO "GET %s page=%s" w)) with (call_index w).
  rewrite Hget. cbv beta iota. rewrite Hst. cbn [negb].
  unfold bind at 1. rewrite Hbody. unfold ret at 1. cbv beta iota.
  unfold bind at 1. unfold utcnow at 1. cbv beta iota.
  unfold bind at 1.
  match goal with
  | |- context [UsaspendingFetch.write_json_to_adls _ _ ?a ?b ?c ?d ?w0] =>
      destruct (write_json_run a b c d w0 Hs) as (w1 & Hw & Ht1); rewrite Hw
  end.
  cbv beta iota.
  unfold bind at 1. unfold UsaspendingFetch.hits at 1.
  unfold bind at 1. unfold UsaspendingFetch.payload_get at 1. rewrite Hv.
  unfold ret at 1. cbv beta iota. rewrite Hn. unfold ret at 1. cbv beta iota.
  unfold bind at 1. unfold log at 1. cbv beta iota.
  unfold bind at 1. unfold UsaspendingFetch.payload_get at 1. rewrite Hv.
  unfold ret at 1. cbv beta iota. rewrite Htruthy. cbn [negb].
  unfold bind at 1. unfold time_sleep at 1.
  rewrite (sleep_error_none env _ _ Hsl (Hpa _)). cbv beta iota.
  eexists.
  eexists (EvGet UsaspendingFetch.base (page_params rid rlevel pagesize page) (clock w) true
           :: [_; _; _; _] ++ [EvSleep sleep_s]).
  split; [reflexivity|]. split.
  - cbn [trace set_clock push_event push_log]. rewrite Ht1.
    cbn [trace after_call set_clock push_event push_log rev app]. reflexivity.
  - split; [reflexivity|]. split; reflexivity.
Qed.

Lemma page_loop_endless (fs recipient_id rid rlevel : string) (pagesize sleep_s : Z) :
  storage_works env -> 0 <= sleep_s -> pause_accepted env sleep_s ->
  (forall i p, exists r,
      http_get env i UsaspendingFetch.base (page_params rid rlevel pagesize p) = inr r
      /\ nonempty_page r = true) ->
  forall fuel page w,
    exists w' new,
      page_loop fuel fs recipient_id rid rlevel pagesize sleep_s page w = (Ok None, w')
      /\ trace w' = rev new ++ trace w
      /\ commits new = fuel /\ requests new = fuel
      /\ get_params new = map (page_params rid rlevel pagesize) (pages_from page fuel).
Proof.
  intros Hs Hsl Hpa Hfull. induction fuel as [|fuel IH]; intros page w.
  - exists w, []. repeat split; reflexivity.
  - destruct (Hfull (call_index w) page) as (r & Hget & Hne).
    destruct (page_loop_turn fuel fs recipient_id rid rlevel pagesize sleep_s page r w
                Hs Hsl Hpa Hget Hne) as (w1 & new1 & Hstep & Ht1 & Hc1 & Hr1 & Hp1).
    destruct (IH (page + 1) w1) as (w' & new2 & Hrun & Ht2 & Hc2 & Hr2 & Hp2).
    exists w', (new1 ++ new2). split; [rewrite Hstep; exact Hrun|]. split.
    + rewrite Ht2, Ht1, rev_app_distr, app_assoc. reflexivity.
    + rewrite commits_app, requests_app, get_params_app, Hc1, Hc2, Hr1, Hr2, Hp1, Hp2.
      repeat split; reflexivity.
Qed.

(** X19. The pagination has no bound of its own: against an API that
    answers every page with results (with the store working and a
    pause between the pages that [time.sleep] takes), the
    loop never reaches a [break]; however many turns it is given, it
    uses them all, each with one request and one file written, asking
    for the pages [page], [page + 1], ... in this order. *)
Theorem pagination_has_no_page_limit (fs recipient_id rid rlevel : string)
    (pagesize sleep_s : Z) (fuel : nat) (page : Z) (w : World) :
  storage_works env -> 0 <= sleep_s -> pause_accepted env sleep_s ->
  (forall i p, exists r,
      http_get env i UsaspendingFetch.base (page_params rid rlevel pagesize p) = inr r
      /\ nonempty_page r = true) ->
  let run := page_loop fuel fs recipient_id rid rlevel pagesize sleep_s page in
  result run w = Ok None
  /\ requests (emitted run w) = fuel
  /\ commits (emitted run w) = fuel
  /\ get_params (emitted run w) = map (page_params rid rlevel pagesize) (pages_from page fuel).
Proof.
  intros Hs Hsl Hpa Hfull run.
  destruct (page_loop_endless fs recipient_id rid rlevel pagesize sleep_s Hs Hsl Hpa Hfull
              fuel page w) as (w' & new & Hrun & Ht & Hc & Hr & Hp).
  assert (Htr : trace (exec run w) = rev new ++ trace w).
  { unfold exec. subst run. rewrite Hrun. exact Ht. }
  unfold result. rewrite (emitted_spec _ _ _ Htr). subst run. rewrite Hrun. auto.
Qed.

(** X20. A 200 answer whose body is not a JSON object ends the run
    with an exception.  When the body is no JSON at all, the decoding
    raises and nothing is written.  When it is JSON of another kind (a
    list, say), the page is first written to the store, and only then
    does [payload.get] raise. *)
Theorem page_that_is_no_object_fails (fuel : nat) (fs recipient_id rid rlevel : string)
    (pagesize sleep_s page : Z) (r : Response) (w : World) :
  http_get env (call_index w) UsaspendingFetch.base (page_params rid rlevel pagesize page) = inr r ->
  status_code r = 200 ->
  (forall fields, json_body r <> Some (JObj fields)) ->
  let run := page_loop (S fuel) fs recipient_id rid rlevel pagesize sleep_s page in
  (exists e, result run w = Raise e)
  /\ (json_body r = None ->
      result run w = Raise (ValueError "JSONDecodeError")
      /\ emitted run w
         = [EvGet UsaspendingFetch.base (page_params rid rlevel pagesize page) (clock w) true])
  /\ (forall j, json_body r = Some j -> storage_works env ->
      result run w = Raise (AttributeError "object has no attribute 'get'")
      /\ commits (emitted run w) = 1%nat
      /\ exists file, In (EvAdls (AppendData fs (UsaspendingFetch.prefix_dir +:+ "/" +:+ recipient_id)
                                    file (JsonText true j) 0) true) (emitted run w)).
Proof.
  intros Hget Hst Hobj run.
  assert (Hnone : json_body r = None ->
            result run w = Raise (ValueError "JSONDecodeError")
            /\ emitted run w
               = [EvGet UsaspendingFetch.base (page_params rid rlevel pagesize page) (clock w) true]).
  { intros Hbody.
    assert (Hrun : exists w', run w = (Raise (ValueError "JSONDecodeError"), w')
              /\ trace w' = rev [EvGet UsaspendingFetch.base
                                    (page_params rid rlevel pagesize page) (clock w) true]
                            ++ trace w).
    { subst run. cbn [UsaspendingFetch.page_loop].
      unfold bind at 1. unfold log at 1. cbv beta iota.
      unfold bind at 1. unfold session_get.
      change (call_index (push_log INFO "GET %s page=%s" w)) with (call_index w).
      rewrite Hget. cbv beta iota. rewrite Hst. cbn [Z.eqb Pos.eqb negb].
      unfold bind at 1. rewrite Hbody. unfold raise. eexists. split; reflexivity. }
    destruct Hrun as (w' & Hrun & Ht). unfold result.
    rewrite (emitted_spec run w _ ltac:(unfold exec; rewrite Hrun; exact Ht)), Hrun. auto. }
  assert (Hsome : forall j, json_body r = Some j -> storage_works env ->
            result run w = Raise (AttributeError "object has no attribute 'get'")
            /\ commits (emitted run w) = 1%nat
            /\ exists file, In (EvAdls (AppendData fs
                                          (UsaspendingFetch.prefix_dir +:+ "/" +:+ recipient_id)
                                          file (JsonText true j) 0) true) (emitted run w)).
  { intros j Hbody Hs.
    assert (Hj : UsaspendingFetch.payload_get "results" j
                 = raise (AttributeError "object has no attribute 'get'")).
    { destruct j; try reflexivity. exfalso. eapply Hobj; eauto. }
    assert (Hrun : exists w' file,
              run w = (Raise (AttributeError "object has no attribute 'get'"), w')
              /\ trace w' = rev (EvGet UsaspendingFetch.base
                                   (page_params rid rlevel pagesize page) (clock w) true
                                 :: [EvAdls (CreateDirectory fs
                                       (UsaspendingFetch.prefix_dir +:+ "/" +:+ recipient_id)) true;
                                     EvAdls (CreateFile fs
                                       (UsaspendingFetch.prefix_dir +:+ "/" +:+ recipient_id) file) true;
                                     EvAdls (AppendData fs
                                       (UsaspendingFetch.prefix_dir +:+ "/" +:+ recipient_id) file
                                       (JsonText true j) 0) true;
                                     EvAdls (FlushData fs
                                       (UsaspendingFetch.prefix_dir +:+ "/" +:+ recipient_id) file
                                       (String.length (json_dumps lib false j))) true])
                            ++ trace w).
    { subst run. cbn [UsaspendingFetch.page_loop].
      unfold bind at 1. unfold log at 1. cbv beta iota.
      unfold bind at 1. unfold session_get.
      change (call_index (push_log INFO "GET %s page=%s" w)) with (call_index w).
      rewrite Hget. cbv beta iota. rewrite Hst. cbn [Z.eqb Pos.eqb negb].
      unfold bind at 1. rewrite Hbody. unfold ret at 1. cbv beta iota.
      unfold bind at 1. unfold utcnow at 1. cbv beta iota.
      unfold bind at 1.
      match goal with
      | |- context [UsaspendingFetch.write_json_to_adls _ _ ?a ?b ?c ?d ?w0] =>
          destruct (write_json_run a b c d w0 Hs) as (w1 & Hw & Ht1); rewrite Hw
      end.
      cbv beta iota.
      unfold bind at 1. unfold UsaspendingFetch.hits at 1.
      unfold bind at 1. rewrite Hj. unfold raise.
      eexists _, _. split; [reflexivity|].
      rewrite Ht1. cbn [trace after_call set_clock push_event push_log rev app].
      reflexivity. }
    destruct Hrun as (w' & file & Hrun & Ht). unfold result.
    rewrite (emitted_spec run w _ ltac:(unfold exec; rewrite Hrun; exact Ht)), Hrun.
    split; [reflexivity|]. split; [reflexivity|]. exists file. cbn [In]. auto. }
  split; [|split; [exact Hnone | exact Hsome]].
  destruct (json_body r) as [j|] eqn:Hbody.
  - (* the outcome does not depend on the store *)
    subst run. cbn [UsaspendingFetch.page_loop].
    assert (Hj : UsaspendingFetch.payload_get "results" j
                 = raise (AttributeError "object has no attribute 'get'")).
    { destruct j; try reflexivity. exfalso. eapply Hobj; eauto. }
    unfold result, bind at 1. unfold log at 1. cbv beta iota.
    unfold bind at 1. unfold session_get.
    change (call_index (push_log INFO "GET %s page=%s" w)) with (call_index w).
    rewrite Hget. cbv beta iota. rewrite Hst. cbn [Z.eqb Pos.eqb negb].
    unfold bind at 1. rewrite Hbody. unfold ret at 1. cbv beta iota.
    unfold bind at 1. unfold utcnow at 1. cbv beta iota.
    unfold bind at 1.
    match goal with
    | |- context [UsaspendingFetch.write_json_to_adls _ _ ?a ?b ?c ?d ?w0] =>
        destruct (UsaspendingFetch.write_json_to_adls lib env a b c d w0) as [[[]|e] w1]
    end; cbv beta iota; [|eauto].
    unfold bind at 1. unfold UsaspendingFetch.hits at 1.
    unfold bind at 1. rewrite Hj. unfold raise. cbv beta iota. eauto.
  - destruct (Hnone eq_refl) as (Hres & _). eauto.
Qed.

End PagingMore.

(** ** What the two stand-alone scripts flush *)

Section Flush.
Context (rel : Payload -> nat -> Prop).

Lemma flush_after_append_nil : flush_after_append rel [].
Proof. intros pre fs dir file p ok post H. destruct pre; discriminate. Qed.

Lemma flush_after_append_app (a b : list Event) :
  flush_after_append rel a -> flush_after_append rel b -> flush_after_append rel (a ++ b).
Proof.
  intros Ha Hb pre fs dir file p ok post Heq.
  apply app_eq_app in Heq. destruct Heq as (mid & [(-> & Hmid) | (-> & ->)]).
  - destruct mid as [|x mid]; simpl in Hmid.
    + destruct (Hb [] fs dir file p ok post (eq_sym Hmid)) as (pre' & x & Hnil & _).
      destruct pre'; discriminate.
    + injection Hmid as <- ->.
      apply (Ha pre fs dir file p ok mid). reflexivity.
  - destruct (Hb mid fs dir file p ok post eq_refl) as (pre' & x & -> & Hrel).
    exists (a ++ pre'), x. rewrite app_assoc. auto.
Qed.

#[local] Instance Closed_flush : Closed (flush_after_append rel).
Proof. split; [apply flush_after_append_nil | apply flush_after_append_app]. Qed.

Lemma flush_after_append_one (e : Event) :
  match e with EvAdls (FlushData _ _ _ _) _ => False | _ => True end ->
  flush_after_append rel [e].
Proof.
  intros He pre fs dir file p ok post Heq.
  destruct pre as [|x pre]; [|destruct pre; discriminate].
  injection Heq as Hx _. rewrite Hx in He. destruct He.
Qed.

Lemma flush_after_append_pair (fs dir file : string) (a : Payload) (p : nat) (ok : bool) :
  rel a p ->
  flush_after_append rel
    [EvAdls (AppendData fs dir file a 0) true; EvAdls (FlushData fs dir file p) ok].
Proof.
  intros Hrel pre fs' dir' file' p' ok' post Heq.
  destruct pre as [|x pre]; [discriminate|].
  destruct pre as [|y pre]; [|destruct pre; discriminate].
  inversion Heq; subst. exists [], a. auto.
Qed.

End Flush.

Ltac flush_blocks :=
  repeat first
    [ apply flush_after_append_nil
    | match goal with
      | |- flush_after_append _ (EvAdls (AppendData _ _ _ _ _) true
                                 :: EvAdls (FlushData _ _ _ _) _ :: ?l) =>
          apply (flush_after_append_app _ [_; _] l);
          [apply flush_after_append_pair |]
      | |- flush_after_append _ (?e :: ?l) =>
          apply (flush_after_append_app _ [e] l);
          [apply flush_after_append_one; exact I |]
      end ].

Section FlushScripts.
Context (lib : Lib) (cfg : Config) (env : Env).

#[local] Existing Instance Closed_flush.

Lemma write_text_flushes (fs dir file : string) (text : Payload) :
  emits (flush_after_append (whole_length lib)) (NewsFetch.write_text lib env fs dir file text).
Proof.
  intros w.
  unfold NewsFetch.write_text, exec, bind, try_except, adls_call, ret.
  run_storage env; give_events; flush_blocks; reflexivity.
Qed.

Lemma write_json_flushes (fs dir file : string) (data : Json) :
  emits (flush_after_append (compact_length lib))
        (UsaspendingFetch.write_json_to_adls lib env fs dir file data).
Proof.
  intros w.
  unfold UsaspendingFetch.write_json_to_adls, exec, bind, try_except, adls_call, ret.
  run_storage env; give_events; flush_blocks; eexists; split; reflexivity.
Qed.

Ltac flush_step :=
  first
    [ apply write_text_flushes
    | apply write_json_flushes
    | emits_step ].

(** X21. In every run of the RSS script, each flush follows the
    successful append of the data to the same file, at offset 0, and
    commits exactly as many bytes as were appended. *)
Theorem rss_flushes_what_it_appends (url source_name : string) (max_items : Z) (w : World) :
  flush_after_append (whole_length lib)
    (emitted (NewsFetch.fetch_rss_and_store lib cfg env url source_name max_items) w).
Proof.
  assert (H : emits (flush_after_append (whole_length lib))
                (NewsFetch.fetch_rss_and_store lib cfg env url source_name max_items)).
  { unfold NewsFetch.fetch_rss_and_store, NewsFetch.process_entry, NewsFetch.entry_link,
      environ_account, adls_client.
    repeat first [ progress cbv beta iota zeta | flush_step ];
      apply flush_after_append_one; exact I. }
  destruct (emits_emitted _ _ w H) as (_ & HP). exact HP.
Qed.

Lemma page_loop_flushes (fuel : nat) (fs recipient_id rid rlevel : string)
    (pagesize sleep_s : Z) :
  forall page,
    emits (flush_after_append (compact_length lib))
          (UsaspendingFetch.page_loop lib env fuel fs recipient_id rid rlevel pagesize
             sleep_s page).
Proof.
  induction fuel as [|fuel IH]; intros page; cbn [UsaspendingFetch.page_loop].
  - apply emits_ret; exact _.
  - unfold UsaspendingFetch.hits, UsaspendingFetch.payload_get.
    repeat first [ apply IH | progress cbv beta iota zeta | flush_step ];
      apply flush_after_append_one; exact I.
Qed.

(** X22. In every run of the paginated fetch, each flush follows the
    successful append of the indented dump of a page to the same file,
    at offset 0, and commits as many bytes as the compact dump of that
    page has: the length flushed is not taken from the bytes appended. *)
Theorem usaspending_flushes_compact_length (fuel : nat) (recipient_id : string)
    (pagesize sleep_s : Z) (w : World) :
  flush_after_append (compact_length lib)
    (emitted (UsaspendingFetch.fetch_usaspending_for_recipient lib cfg env fuel recipient_id
                pagesize sleep_s) w).
Proof.
  assert (H : emits (flush_after_append (compact_length lib))
                (UsaspendingFetch.fetch_usaspending_for_recipient lib cfg env fuel
                   recipient_id pagesize sleep_s)).
  { unfold UsaspendingFetch.fetch_usaspending_for_recipient, environ_account, adls_client.
    repeat first [ apply page_loop_flushes | progress cbv beta iota zeta | flush_step ];
      apply flush_after_append_one; exact I. }
  destruct (emits_emitted _ _ w H) as (_ & HP). exact HP.
Qed.

(** X23. Both stand-alone scripts read the storage account from the
    environment before anything else: without
    [AZURE_STORAGE_ACCOUNT_NAME] they raise [KeyError] at once, having
    made no request and no SDK call. *)
Theorem missing_account_fails_first (fuel : nat) (recipient_id url source_name : string)
    (pagesize sleep_s max_items : Z) (w : World) :
  ADLS_ACCOUNT cfg = None ->
  let usaspending := UsaspendingFetch.fetch_usaspending_for_recipient lib cfg env fuel
                       recipient_id pagesize sleep_s in
  let news := NewsFetch.fetch_rss_and_store lib cfg env url source_name max_items in
  usaspending w = (Raise (KeyError "AZURE_STORAGE_ACCOUNT_NAME"), w)
  /\ emitted usaspending w = []
  /\ news w = (Raise (KeyError "AZURE_STORAGE_ACCOUNT_NAME"), w)
  /\ emitted news w = [].
Proof.
  intros Hacc usaspending news.
  assert (H1 : usaspending w = (Raise (KeyError "AZURE_STORAGE_ACCOUNT_NAME"), w)).
  { subst usaspending. unfold UsaspendingFetch.fetch_usaspending_for_recipient, environ_account.
    rewrite Hacc. reflexivity. }
  assert (H2 : news w = (Raise (KeyError "AZURE_STORAGE_ACCOUNT_NAME"), w)).
  { subst news. unfold NewsFetch.fetch_rss_and_store, environ_account.
    rewrite Hacc. reflexivity. }
  split; [exact H1|]. split; [|split; [exact H2|]].
  - apply emitted_spec. unfold exec. rewrite H1. reflexivity.
  - apply emitted_spec. unfold exec. rewrite H2. reflexivity.
Qed.

End FlushScripts.

(** ** The RSS script, entry by entry *)

Section RssMore.
Context (lib : Lib) (cfg : Config) (env : Env).

#[local] Abbreviation process_entry := (NewsFetch.process_entry lib env).

(** The file name of the JSON document of an entry processed at [w] *)
#[local] Abbreviation json_name x w :=
  (NewsFetch.safe_title x +:+ "_" +:+ strftime_stamp lib (clock w) +:+ ".json").

(** X24. The article fetch is best effort: for an entry that has a
    link, once its JSON document is written, neither a failed request
    nor an answer that is not kept nor a failed write of the HTML can
    stop the loop; the turn returns normally, and the last thing it
    does is the pause of 0.2 s (a pause that [time.sleep] is taken to
    accept). *)
Theorem article_fetch_is_best_effort (fs pre : string) (x : NewsFetch.Entry) (link : string)
    (w : World) :
  Py.dict_get "link" x = Some link ->
  pause_accepted env 200 ->
  result (NewsFetch.write_text lib env fs (pre +:+ "/rss") (json_name x w)
            (JsonText true (NewsFetch.item_json x))) w = Ok tt ->
  result (process_entry fs pre x) w = Ok tt
  /\ exists before, emitted (process_entry fs pre x) w = before ++ [EvSleep 200].
Proof.
  intros Hlink Hpa Hjson.
  assert (H : exists w',
            process_entry fs pre x w = (Ok tt, w')
            /\ exists new, trace w' = rev new ++ trace w
                           /\ exists before, new = before ++ [EvSleep 200]).
  { revert Hjson.
    unfold NewsFetch.process_entry, NewsFetch.write_text, NewsFetch.entry_link,
      exec, result, bind, try_except, adls_call, session_get, time_sleep, utcnow, log, ret, raise.
    rewrite Hlink.
    repeat (cbn -[append NewsFetch.item_json NewsFetch.safe_title Nat.ltb sleep_error];
            match goal with
            | |- context [adls env ?i ?c] => destruct (adls env i c) eqn:?
            | |- context [http_get env ?i ?u ?p] => destruct (http_get env i u p) eqn:?
            | |- context [status_code ?r =? 200] => destruct (Z.eqb_spec (status_code r) 200)
            | |- context [(200 <? ?n)%nat] => destruct (Nat.ltb_spec 200 n)
            | |- context [sleep_error env ?i 200] =>
                rewrite (sleep_error_none env i 200 ltac:(lia) (Hpa i))
            end);
      cbn -[append NewsFetch.item_json NewsFetch.safe_title Nat.ltb sleep_error];
      intros Hjson; try discriminate Hjson;
      eexists; (split; [reflexivity|]);
      cbn [trace set_clock push_event push_log after_call];
      give_events;
      first [ eexists [_; _; _; _]; reflexivity
            | eexists [_; _; _; _; _]; reflexivity
            | eexists [_; _; _; _; _; _]; reflexivity
            | eexists [_; _; _; _; _; _; _]; reflexivity
            | eexists [_; _; _; _; _; _; _; _]; reflexivity
            | eexists [_; _; _; _; _; _; _; _; _]; reflexivity ]. }
  destruct H as (w' & Hrun & new & Ht & before & ->). unfold result.
  rewrite Hrun. split; [reflexivity|]. exists before.
  apply emitted_spec. unfold exec. rewrite Hrun. exact Ht.
Qed.

(** X25. An entry without a link stops the whole run: its JSON document
    is written, then reading [entry.link] raises [AttributeError], first
    inside the [try] and again inside the handler that wants to log it.
    The entries after it are not processed. *)
Theorem entry_without_link_stops_the_run (fs pre : string) (x : NewsFetch.Entry)
    (rest : list NewsFetch.Entry) (w : World) :
  Py.dict_get "link" x = None ->
  storage_works env ->
  let run := for_each (process_entry fs pre) (x :: rest) in
  result run w = Raise (AttributeError "object has no attribute 'link'")
  /\ emitted run w
     = [EvAdls (CreateDirectory fs (pre +:+ "/rss")) true;
        EvAdls (CreateFile fs (pre +:+ "/rss") (json_name x w)) true;
        EvAdls (AppendData fs (pre +:+ "/rss") (json_name x w)
                  (JsonText true (NewsFetch.item_json x)) 0) true;
        EvAdls (FlushData fs (pre +:+ "/rss") (json_name x w)
                  (payload_len lib (JsonText true (NewsFetch.item_json x)))) true].
Proof.
  intros Hlink Hs run.
  assert (H : exists w',
            run w = (Raise (AttributeError "object has no attribute 'link'"), w')
            /\ trace w'
               = rev [EvAdls (CreateDirectory fs (pre +:+ "/rss")) true;
                      EvAdls (CreateFile fs (pre +:+ "/rss") (json_name x w)) true;
                      EvAdls (AppendData fs (pre +:+ "/rss") (json_name x w)
                                (JsonText true (NewsFetch.item_json x)) 0) true;
                      EvAdls (FlushData fs (pre +:+ "/rss") (json_name x w)
                                (payload_len lib (JsonText true (NewsFetch.item_json x)))) true]
                 ++ trace w).
  { subst run. cbn [for_each]. unfold bind at 1.
    unfold NewsFetch.process_entry, NewsFetch.write_text, NewsFetch.entry_link,
      bind, try_except, adls_call, utcnow, ret, raise.
    rewrite Hlink.
    repeat (rewrite Hs; cbn -[append NewsFetch.item_json NewsFetch.safe_title payload_len]).
    eexists. split; reflexivity. }
  destruct H as (w' & Hrun & Ht). unfold result. rewrite Hrun. split; [reflexivity|].
  apply emitted_spec. unfold exec. rewrite Hrun. exact Ht.
Qed.

(** X26. The RSS script knows neither robots.txt nor the per-domain
    rate limiter: in every run, all it emits is SDK calls of the remote
    store, the retrieval of the feed, requests without query
    parameters, and pauses of exactly 0.2 s. *)
Theorem rss_script_is_not_polite (url source_name : string) (max_items : Z) (w : World) :
  Forall rss_event
    (emitted (NewsFetch.fetch_rss_and_store lib cfg env url source_name max_items) w).
Proof.
  assert (H : emits (Forall rss_event)
                (NewsFetch.fetch_rss_and_store lib cfg env url source_name max_items)).
  { unfold NewsFetch.fetch_rss_and_store, NewsFetch.process_entry, NewsFetch.write_text,
      NewsFetch.entry_link, environ_account, adls_client.
    repeat first [ progress cbv beta iota zeta | emits_step ];
      apply Forall_one; cbn; auto. }
  destruct (emits_emitted _ _ w H) as (_ & HP). exact HP.
Qed.

End RssMore.

(** ** The API shortcuts and the remote writer, when they fail *)

Section Shortcuts.
Context (lib : Lib) (cfg : Config) (env : Env).

Lemma is_ok_result {A} (m : M A) (w : World) :
  yields is_ok m -> exists a, result m w = Ok a.
Proof. intros H. specialize (H w). destruct (result m w) as [a|e]; [eauto | destruct H]. Qed.

Lemma shortcut_handler_ok (msg : string) :
  yields is_ok (log WARNING msg ;;; ret false).
Proof.
  apply yields_bind. apply yields_log. apply yields_ret. exact I.
Qed.

(** X27. The two API shortcuts of [main] never raise: whatever fails
    inside one (the request, the reading of the body, a write), it logs
    a warning and reports the row as not done, so that the row goes on
    to the generic path.  In particular, when the request fails, the
    shortcut returns [False] having done nothing but the request. *)
Theorem api_shortcut_failure_falls_through (dry_run : bool)
    (wr : option FetchSeed.ADLSWriter) (source_name api_params notes outdir : string)
    (w : World) :
  let usaspending dry :=
    FetchSeed.usaspending_branch lib cfg env dry wr source_name api_params notes outdir in
  let sam dry :=
    FetchSeed.sam_branch lib cfg env dry wr source_name api_params notes outdir in
  (exists done, result (usaspending dry_run) w = Ok done)
  /\ (exists done, result (sam dry_run) w = Ok done)
  /\ ((forall i u ps, exists e, http_get env i u ps = inl e) ->
      result (usaspending false) w = Ok false
      /\ result (sam false) w = Ok false
      /\ Forall (fun e => is_get_event e = true) (emitted (usaspending false) w)
      /\ Forall (fun e => is_get_event e = true) (emitted (sam false) w)).
Proof.
  intros usaspending sam. subst usaspending sam. cbv beta. split; [|split].
  - apply is_ok_result. unfold FetchSeed.usaspending_branch. cbv zeta.
    apply yields_try_except_ok. intros e. apply shortcut_handler_ok.
  - apply is_ok_result. unfold FetchSeed.sam_branch.
    destruct (SAM_API_KEY cfg) as [key|]; [|apply yields_ret; exact I].
    destruct (Py.truthy key); [|apply yields_ret; exact I].
    apply yields_try_except_ok. intros e. apply shortcut_handler_ok.
  - intros Hfail.
    assert (Hu : exists w',
              FetchSeed.usaspending_branch lib cfg env false wr source_name api_params
                notes outdir w = (Ok false, w')
              /\ exists new, trace w' = rev new ++ trace w
                             /\ Forall (fun e => is_get_event e = true) new).
    { unfold FetchSeed.usaspending_branch. cbv zeta.
      destruct (_ || _).
      - unfold try_except, bind, log, session_get, ret.
        cbn [call_index trace push_log].
        match goal with
        | |- context [http_get env ?i ?u ?ps] => destruct (Hfail i u ps) as (e & ->)
        end.
        eexists. split; [reflexivity|]. eexists [_]. split; [reflexivity|].
        repeat constructor.
      - exists w. split; [reflexivity|]. exists []. split; [reflexivity | constructor]. }
    assert (Hs : exists w',
              FetchSeed.sam_branch lib cfg env false wr source_name api_params
                notes outdir w = (Ok false, w')
              /\ exists new, trace w' = rev new ++ trace w
                             /\ Forall (fun e => is_get_event e = true) new).
    { unfold FetchSeed.sam_branch.
      assert (Hnone : exists w',
                @ret bool false w = (Ok false, w')
                /\ exists new, trace w' = rev new ++ trace w
                               /\ Forall (fun e => is_get_event e = true) new).
      { exists w. split; [reflexivity|]. exists []. split; [reflexivity | constructor]. }
      destruct (SAM_API_KEY cfg) as [key|]; [|exact Hnone].
      destruct (Py.truthy key); [|exact Hnone].
      cbv zeta. unfold try_except, bind, log, session_get, ret.
      cbn [call_index trace push_log].
      match goal with
      | |- context [http_get env ?i ?u ?ps] => destruct (Hfail i u ps) as (e & ->)
      end.
      eexists. split; [reflexivity|]. eexists [_]. split; [reflexivity|].
      repeat constructor. }
    destruct Hu as (wu & Hu & newu & Htu & Hfu).
    destruct Hs as (ws & Hs & news & Hts & Hfs).
    unfold result.
    rewrite (emitted_spec _ w newu ltac:(unfold exec; rewrite Hu; exact Htu)).
    rewrite (emitted_spec _ w news ltac:(unfold exec; rewrite Hs; exact Hts)).
    rewrite Hu, Hs. auto.
Qed.

Lemma process_row_no_writer (dry_run : bool) (row : FetchSeed.Row) :
  emits (Forall (fun e => match e with
                          | EvAdls (OpenService _) false => True
                          | EvAdls _ _ => False
                          | _ => True
                          end))
        (FetchSeed.process_row lib cfg env dry_run None row).
Proof.
  eapply emits_weaken; [|apply (process_row_local lib cfg env dry_run row)].
  intros l Hl. eapply Forall_impl; [exact Hl|].
  intros [| | | |c ok|] H; simpl in *; auto. discriminate.
Qed.

(** X28. When the remote store cannot be reached (opening the service
    fails), the writer is given up with a warning and the whole run
    writes locally: the failed attempt to open the service is the only
    SDK call [main] makes, and [main] does not fail for it. *)
Theorem unreachable_store_means_local_writes (rows : list FetchSeed.Row)
    (dry_run local_only : bool) (w : World) :
  (forall i url, adls env i (OpenService url) = false) ->
  Forall (fun e => match e with
                   | EvAdls (OpenService _) false => True
                   | EvAdls _ _ => False
                   | _ => True
                   end)
         (emitted (FetchSeed.main lib cfg env rows dry_run local_only) w)
  /\ result (FetchSeed.make_adls_writer cfg env local_only) w = Ok None.
Proof.
  intros Hdown.
  set (P := Forall (fun e => match e with
                             | EvAdls (OpenService _) false => True
                             | EvAdls _ _ => False
                             | _ => True
                             end)).
  assert (Hmk : forall w0, exists w1 new,
            FetchSeed.make_adls_writer cfg env local_only w0 = (Ok None, w1)
            /\ trace w1 = rev new ++ trace w0 /\ P new).
  { intros w0. unfold FetchSeed.make_adls_writer.
    assert (Hnone : exists w1 new,
              @ret (option FetchSeed.ADLSWriter) None w0 = (Ok None, w1)
              /\ trace w1 = rev new ++ trace w0 /\ P new).
    { exists w0, []. repeat split. constructor. }
    destruct (ADLS_ACCOUNT cfg) as [account|]; [|exact Hnone].
    destruct (ADLS_FILESYSTEM cfg) as [fs|]; [|exact Hnone].
    destruct (_ && _) eqn:Hcond; [|exact Hnone].
    assert (Hsdk : AZURE_SDK_AVAILABLE cfg = true).
    { destruct (AZURE_SDK_AVAILABLE cfg); [reflexivity|].
      rewrite Bool.andb_false_r in Hcond. discriminate. }
    unfold FetchSeed.ADLSWriter_init, try_except, bind, adls_call, log, ret.
    rewrite Hsdk. cbn [negb]. rewrite Hdown.
    eexists _, [_]. split; [reflexivity|]. split; [reflexivity|].
    subst P. repeat constructor. }
  split.
  - assert (H : emits P (FetchSeed.main lib cfg env rows dry_run local_only)).
    { unfold FetchSeed.main.
      do 2 (apply emits_bind; [exact _ | apply emits_log; exact _ | intros _]).
      intros w0. destruct (Hmk w0) as (w1 & new1 & Hrun & Ht1 & HP1).
      assert (Hrest : emits P (for_each (FetchSeed.process_row lib cfg env dry_run None) rows ;;;
                               log INFO "Done seeding manifest.")).
      { apply emits_bind; [exact _ | | intros _; apply emits_log; exact _].
        apply emits_for_each; [exact _|]. intros row. apply process_row_no_writer. }
      destruct (Hrest w1) as (new2 & Ht2 & HP2).
      exists (new1 ++ new2). split; [|apply Forall_app; auto].
      unfold exec, bind in *. rewrite Hrun. cbv beta iota.
      rewrite Ht2, Ht1, rev_app_distr, app_assoc. reflexivity. }
    destruct (emits_emitted _ _ w H) as (_ & HP). exact HP.
  - destruct (Hmk w) as (w1 & new & Hrun & _). unfold result. rewrite Hrun. reflexivity.
Qed.

End Shortcuts.

(** ** The properties above, on concrete runs *)

Import Cases.

Lemma demo_bool_is_ok : bool_is_ok demo_lib.
Proof.
  intros r H. unfold error_status in H. apply andb_true_iff in H. destruct H as (H1 & H2).
  apply Z.leb_le in H1. apply Z.ltb_lt in H2. cbn [response_bool demo_lib].
  apply orb_false_iff. split; [apply Z.ltb_ge | apply Z.leb_gt]; lia.
Qed.

(** At the start of a run nothing is stamped, and the default delay of
    the examples is sleepable. *)
Ltac range_at_start :=
  split; [intros i; vm_compute; discriminate
         | intros t H; vm_compute in H; discriminate H].

Ltac pause_taken := intros i; vm_compute; discriminate.

Lemma polite_fetch_obeys_robots_witness :
  emitted (FetchSeed.polite_fetch demo_lib demo_cfg disallow_env report_url [])
          (initial_world 1000)
  = [EvRobots example_robots 1000 true].
Proof.
  exact (proj1 (proj2 (polite_fetch_obeys_robots demo_lib demo_cfg disallow_env report_url []
                         (initial_world 1000) eq_refl))).
Defined.

Lemma polite_fetch_reports_transport_errors_witness :
  result (FetchSeed.polite_fetch demo_lib demo_cfg timeout_env report_url []) (initial_world 1000)
  = Ok (FetchSeed.FetchError "timed out" report_url).
Proof.
  exact (proj1 (polite_fetch_reports_transport_errors demo_lib demo_cfg timeout_env report_url []
                  (RequestException "timed out") (initial_world 1000)
                  (fun i => eq_refl) eq_refl ltac:(range_at_start))).
Defined.

Lemma polite_fetch_touches_one_domain_witness :
  domain_last_request
    (exec (FetchSeed.polite_fetch demo_lib demo_cfg calm_env report_url []) (initial_world 1000))
    !! Some "example.org"%string
  = None.
Proof.
  exact (proj1 (polite_fetch_touches_one_domain demo_lib demo_cfg calm_env report_url []
                  (initial_world 1000) (Some "example.org"%string)
                  ltac:(vm_compute; discriminate))).
Defined.

Lemma polite_fetch_without_host_witness :
  FetchSeed.opt_truthy (FetchSeed.get_domain demo_lib relative_url) = false
  /\ result (FetchSeed.polite_fetch demo_lib demo_cfg disallow_env relative_url [])
            (initial_world 1000)
     <> Ok (FetchSeed.SkippedByRobots relative_url).
Proof.
  split; [reflexivity|].
  exact (proj1 (polite_fetch_without_host demo_lib demo_cfg disallow_env relative_url []
                  (initial_world 1000) eq_refl)).
Defined.

Lemma commit_generic_is_durable_witness :
  result (FetchSeed.commit_generic adls_cfg offline_env (Some (FetchSeed.mkADLSWriter "raw"))
            "anduril/acme/1000" "report.pdf" "%PDF" JNull) (initial_world 1000)
  = Ok tt.
Proof.
  exact (proj1 (commit_generic_is_durable adls_cfg offline_env
                  (Some (FetchSeed.mkADLSWriter "raw")) "anduril/acme/1000" "report.pdf" "%PDF"
                  JNull (initial_world 1000) (fun i op => eq_refl))).
Defined.

Lemma disallowed_row_is_not_fetched_witness :
  exists rest,
    emitted (FetchSeed.generic_path demo_lib demo_cfg disallow_env false None report_row
               "acme" report_url "" "anduril/acme/1000" "report.pdf") (initial_world 1000)
    = EvRobots example_robots 1000 true :: rest
    /\ Forall (fun e => is_storage_event e = true /\ is_content_write e = false) rest.
Proof.
  exact (disallowed_row_is_not_fetched demo_lib demo_cfg disallow_env false None report_row
           "acme" report_url "" "anduril/acme/1000" "report.pdf" disallow_all
           (initial_world 1000) eq_refl eq_refl eq_refl).
Defined.

Lemma throttled_never_disallows : robots_never_disallow demo_cfg throttled_env.
Proof. intros i u rp url H. injection H as <-. reflexivity. Qed.

Lemma error_answers_are_dropped_witness :
  Forall (fun e => is_storage_event e = false)
    (emitted (FetchSeed.generic_path demo_lib demo_cfg throttled_env false None report_row
                "acme" report_url "" "anduril/acme/1000" "report.pdf") (initial_world 1000)).
Proof.
  exact (proj1 (proj2 (error_answers_are_dropped demo_lib demo_cfg throttled_env None report_row
                         "acme" report_url "" "anduril/acme/1000" "report.pdf"
                         (initial_world 1000) demo_bool_is_ok
                         (fun i u ps => ex_intro _ too_many_requests (conj eq_refl eq_refl))
                         throttled_never_disallows eq_refl ltac:(range_at_start)))).
Defined.

Lemma pagination_has_no_page_limit_witness :
  result (UsaspendingFetch.page_loop demo_lib endless_env 3 "raw" "abc-C" "abc" "C" 50 200 1)
         (initial_world 1000)
  = Ok None.
Proof.
  exact (proj1 (pagination_has_no_page_limit demo_lib endless_env "raw" "abc-C" "abc" "C" 50 200
                  3 1 (initial_world 1000) (fun i c => eq_refl) ltac:(lia) ltac:(pause_taken)
                  (fun i p => ex_intro _ PagedApi.award_page (conj eq_refl eq_refl)))).
Defined.

Lemma page_that_is_no_object_fails_witness :
  exists e,
    result (UsaspendingFetch.page_loop demo_lib list_env 5 "raw" "abc-C" "abc" "C" 50 200 1)
           (initial_world 1000)
    = Raise e.
Proof.
  exact (proj1 (page_that_is_no_object_fails demo_lib list_env 4 "raw" "abc-C" "abc" "C" 50 200 1
                  list_page (initial_world 1000) eq_refl eq_refl
                  ltac:(intros fields; discriminate))).
Defined.

Lemma missing_account_fails_first_witness :
  emitted (UsaspendingFetch.fetch_usaspending_for_recipient demo_lib demo_cfg calm_env 5 "abc-C"
             50 200) (initial_world 1000)
  = [].
Proof.
  exact (proj1 (proj2 (missing_account_fails_first demo_lib demo_cfg calm_env 5 "abc-C"
                         "https://news.example/feed" "news" 50 200 10 (initial_world 1000)
                         eq_refl))).
Defined.

Lemma article_fetch_is_best_effort_witness :
  result (NewsFetch.process_entry demo_lib timeout_env "raw" "anduril/news/news" linked_entry)
         (initial_world 1000)
  = Ok tt.
Proof.
  exact (proj1 (article_fetch_is_best_effort demo_lib timeout_env "raw" "anduril/news/news"
                  linked_entry "https://news.example/1" (initial_world 1000) eq_refl
                  ltac:(pause_taken) eq_refl)).
Defined.

Lemma entry_without_link_stops_the_run_witness :
  result (for_each (NewsFetch.process_entry demo_lib calm_env "raw" "anduril/news/news")
            [linkless_entry; linked_entry]) (initial_world 1000)
  = Raise (AttributeError "object has no attribute 'link'").
Proof.
  exact (proj1 (entry_without_link_stops_the_run demo_lib calm_env "raw" "anduril/news/news"
                  linkless_entry [linked_entry] (initial_world 1000) eq_refl
                  (fun i c => eq_refl))).
Defined.

Lemma unreachable_store_means_local_writes_witness :
  result (FetchSeed.make_adls_writer adls_cfg offline_env false) (initial_world 1000) = Ok None.
Proof.
  exact (proj2 (unreachable_store_means_local_writes demo_lib adls_cfg offline_env [report_row]
                  false false (initial_world 1000) (fun i url => eq_refl))).
Defined.
